(** * Rivine: host contract revision, transaction validation, the host
      database scanner and the configuration checks of the daemon

    A shallow embedding of
    - [modules/host/negotiaterevisecontract.go]
      ([managedRevisionIteration], [verifyRevision]),
    - the consensus validators, [ValidateCoinOutputsAreBalanced] and
      [ValidateBlockStakeOutputsAreBalanced] with the validators of outputs,
      inputs, miner fees and double spends,
    - [modules/renter/hostdb/scan.go]
      ([decrementReliability], [managedUpdateEntry], [threadedProbeHosts])
      and [calculateHostWeight],
    - [rivined/daemon.go]
      ([verifyAPISecurity], [processNetAddr], [processModules],
      [processConfig]),
    followed by the properties of these functions.

    Conventions.  A Go [uint64] (also [types.BlockHeight]) is a [Z] in
    [0, 2^64) and every arithmetic operation on it writes its wrap-around out.
    A [types.Currency] is an arbitrary-precision non-negative integer, a [Z].
    Go maps are [gmap]s; Go pointers to host entries are locations of an
    explicit heap, so that aliasing between [allHosts], [activeHosts] and the
    scanner's queue is visible.  An index out of range or a nil dereference is
    the outcome [Panic]. *)

From Stdlib Require Import Init.Byte Strings.Byte.
From stdpp Require Import base numbers option list strings gmap fin_maps.

Local Open Scope Z_scope.

#[global] Instance byte_eq_decision : EqDecision byte := Byte.byte_eq_dec.

(** ** Machine integers *)

Module U64.

Definition modulus : Z := 2 ^ 64.

Definition wrap (x : Z) : Z := x mod modulus.

Definition add (x y : Z) : Z := wrap (x + y).
Definition sub (x y : Z) : Z := wrap (x - y).
Definition mul (x y : Z) : Z := wrap (x * y).

(** [1 << k] on a [uint64]: zero once [k] reaches 64. *)
Definition shl1 (k : Z) : Z := wrap (Z.shiftl 1 k).

End U64.

(** ** [types.Currency] *)

Module Currency.

Definition t : Type := Z.

Definition NewCurrency64 (x : Z) : t := x.

Definition Add (x y : t) : t := x + y.
Definition Mul (x y : t) : t := x * y.
Definition Mul64 (x : t) (y : Z) : t := x * y.

(** Integer (big.Int) division, truncating; the operands are non-negative. *)
Definition Div (x y : t) : t := x / y.
Definition Div64 (x : t) (y : Z) : t := x / y.

(** [Cmp] is [big.Int.Cmp]: -1, 0 or 1. *)
Definition Cmp (x y : t) : Z :=
  match x ?= y with
  | Lt => -1
  | Eq => 0
  | Gt => 1
  end.

Definition IsZero (x : t) : bool := x =? 0.

(** Modelled from the spec: [types.Currency.Sub] is not under src/.  The spec
    has a currency "never negative": the difference when [y <= x]; for
    [x < y] the model keeps [x], and no property below rests on that case. *)
Definition Sub (x y : t) : t := if x <? y then x else x - y.

(** Modelled from the spec: [types.Currency.MulTax] is not under src/.  The
    spec describes it as "a fixed-denominator multiply" by the tax rate; the
    rate is the fraction [taxNum / taxDen] and the product is truncated. *)
Class TaxRate := { taxNum : Z; taxDen : Z }.

Definition MulTax `{TaxRate} (x : t) : t := x * taxNum / taxDen.

(** The siafund portion of the Sia lineage, 3.9 percent. *)
Definition SiafundPortion : TaxRate := {| taxNum := 39; taxDen := 1000 |}.

End Currency.

(** ** Outcomes of fallible code, and a state monad over them *)

(** What a call can end in: a value, a returned Go [error], a run-time panic
    (index out of range, nil dereference), or a loop that never exits. *)
Inductive outcome (E A : Type) : Type :=
  | Ok (a : A)
  | Err (e : E)
  | Panic
  | Diverge.

Arguments Ok {E A} a.
Arguments Err {E A} e.
Arguments Panic {E A}.
Arguments Diverge {E A}.

Definition obind {E A B} (o : outcome E A) (k : A -> outcome E B) : outcome E B :=
  match o with
  | Ok a => k a
  | Err e => Err e
  | Panic => Panic
  | Diverge => Diverge
  end.

(** A computation that threads a state [S]; the state reached when the
    computation stops is kept also on an error, because Go code that returns
    an error keeps the writes it has made through a pointer. *)
Definition M (E S A : Type) : Type := S -> outcome E A * S.

Definition ret {E S A} (a : A) : M E S A := fun s => (Ok a, s).

Definition bind {E S A B} (m : M E S A) (k : A -> M E S B) : M E S B :=
  fun s =>
    match m s with
    | (Ok a, s') => k a s'
    | (Err e, s') => (Err e, s')
    | (Panic, s') => (Panic, s')
    | (Diverge, s') => (Diverge, s')
    end.

Definition throw {E S A} (e : E) : M E S A := fun s => (Err e, s).
Definition get {E S} : M E S S := fun s => (Ok s, s).
Definition modify {E S} (f : S -> S) : M E S unit := fun s => (Ok tt, f s).

(** Lift a pure fallible value. *)
Definition lift {E S A} (o : outcome E A) : M E S A := fun s => (o, s).

(** An indexing expression [l[i]]: a panic when out of range. *)
Definition index {E A} (l : list A) (i : Z) : outcome E A :=
  if (i <? 0) || (Z.of_nat (length l) <=? i) then Panic
  else match l !! Z.to_nat i with
       | Some a => Ok a
       | None => Panic
       end.

Definition len {A} (l : list A) : Z := Z.of_nat (length l).

Declare Scope go_scope.
Delimit Scope go_scope with go.
Notation "'do' x <~ m ;; k" := (bind m (fun x => k))
  (at level 10, x name, m at level 99, k at level 200) : go_scope.
Notation "'run' m ;; k" := (bind m (fun _ => k))
  (at level 10, m at level 99, k at level 200) : go_scope.
Notation "'let!' x := o 'in' k" := (obind o (fun x => k))
  (at level 10, x name, o at level 99, k at level 200) : go_scope.

(** [for _, x := range xs { body x }] *)
Fixpoint forRange {E S A} (xs : list A) (body : A -> M E S unit) : M E S unit :=
  match xs with
  | [] => ret tt
  | x :: rest => bind (body x) (fun _ => forRange rest body)
  end.

(** ** Package host: [negotiaterevisecontract.go] *)

Module Host.

(** Declarations of [crypto] and [types] that are not under src/: the hash
    type, the Merkle root of a sector, the root of a cached tree of the given
    height after pushing the sector roots in order, and unlock conditions
    with their hash. *)
Class Crypto := {
  Hash : Type;
  Hash_eq_dec :: EqDecision Hash;
  MerkleRoot : list byte -> Hash;
  CachedTreeRoot : Z -> list Hash -> Hash;
  UnlockConditions : Type;
  UnlockHash : UnlockConditions -> Hash;
  SecretKey : Type
}.

(** Constants declared outside src/: [modules.SectorSize] (a [uint64]),
    [crypto.SegmentSize] and the host's [revisionSubmissionBuffer] (a
    [types.BlockHeight]). *)
Class Constants := {
  SectorSize : Z;
  SegmentSize : Z;
  revisionSubmissionBuffer : Z
}.

Inductive error : Type :=
  | errBadModificationIndex
  | errLargeSector
  | errBadSectorSize
  | errIllegalOffsetAndLength
  | errUnknownModification
  | errBadContractOutputCounts
  | errLateRevision
  | errBadContractParent
  | errBadUnlockConditions
  | errBadRevisionNumber
  | errBadFileSize
  | errBadWindowStart
  | errBadWindowEnd
  | errBadUnlockHash
  | errHighRenterValidOutput
  | errLowHostValidOutput
  | errHighRenterMissedOutput
  | errLowHostMissedOutput
  | errBadFileMerkleRoot
  | ErrorConnection (msg : string)
  | ErrorInternal (msg : string)
  | ErrorOther (msg : string)
  | Extended (prefix : string) (cause : error).

(** Modelled from the spec: [extendErr] is not under src/.  "Errors carry a
    chain of contextual prefixes"; a nil error stays nil. *)
Definition extendErr {A} (s : string) (r : outcome error A) : outcome error A :=
  match r with
  | Err e => Err (Extended s e)
  | other => other
  end.

(** The sentinel at the bottom of a chain of prefixes. *)
Fixpoint cause_of (e : error) : error :=
  match e with
  | Extended _ c => cause_of c
  | _ => e
  end.

Inductive ActionType : Type :=
  | ActionDelete
  | ActionInsert
  | ActionModify
  | ActionUnknown (specifier : string).

Record RevisionAction := {
  Type_ : ActionType;
  SectorIndex : Z;
  Offset : Z;
  Data : list byte
}.

Record HostInternalSettings := {
  MaxReviseBatchSize : Z;
  Collateral : Currency.t;
  MinStoragePrice : Currency.t;
  MinUploadBandwidthPrice : Currency.t
}.

Section Types.
Context `{Crypto}.

Record SiacoinOutput := {
  Value : Currency.t;
  OutputUnlockHash : Hash
}.

Record FileContractRevision := {
  ParentID : Hash;
  RevUnlockConditions : UnlockConditions;
  NewRevisionNumber : Z;
  NewFileSize : Z;
  NewFileMerkleRoot : Hash;
  NewWindowStart : Z;
  NewWindowEnd : Z;
  NewValidProofOutputs : list SiacoinOutput;
  NewMissedProofOutputs : list SiacoinOutput;
  NewUnlockHash : Hash
}.

Record TransactionSignature := {
  SigParentID : Hash;
  PublicKeyIndex : Z;
  Signature : list byte
}.

Record Transaction := {
  FileContractRevisions : list FileContractRevision;
  TransactionSignatures : list TransactionSignature
}.

Record storageObligation := {
  SectorRoots : list Hash;
  PotentialStorageRevenue : Currency.t;
  PotentialUploadRevenue : Currency.t;
  RiskedCollateral : Currency.t;
  OriginTransactionSet : list Transaction;
  RevisionTransactionSet : list Transaction
}.

Definition set_SectorRoots (roots : list Hash) (so : storageObligation) : storageObligation :=
  {| SectorRoots := roots;
     PotentialStorageRevenue := PotentialStorageRevenue so;
     PotentialUploadRevenue := PotentialUploadRevenue so;
     RiskedCollateral := RiskedCollateral so;
     OriginTransactionSet := OriginTransactionSet so;
     RevisionTransactionSet := RevisionTransactionSet so |}.

End Types.

(** Methods of the host and of the obligation that are not under src/.
    [store] is the host's durable state; [modifyStorageObligation] is the only
    function that writes it (it returns its error, [None] for nil, and the
    store it leaves) and [ReadSector] reads it. *)
Class HostDeps `{Crypto} := {
  store : Type;
  expiration : storageObligation -> Z;
  proofDeadline : storageObligation -> Z;
  ReadSector : store -> Hash -> string + list byte;
  createRevisionSignature :
    FileContractRevision -> TransactionSignature -> SecretKey -> Z ->
    outcome error Transaction;
  modifyStorageObligation :
    store -> storageObligation -> list Hash -> list Hash -> list (list byte) ->
    option string * store
}.

Section Revision.
Context `{Crypto} `{!Constants} `{!HostDeps}.
Local Open Scope go_scope.

(** The variables declared before the closure of
    [managedRevisionIteration]. *)
Record locals := {
  bandwidthRevenue : Currency.t;
  storageRevenue : Currency.t;
  newCollateral : Currency.t;
  sectorsRemoved : list Hash;
  sectorsGained : list Hash;
  gainedSectorData : list (list byte)
}.

Definition locals0 : locals :=
  {| bandwidthRevenue := 0; storageRevenue := 0; newCollateral := 0;
     sectorsRemoved := []; sectorsGained := []; gainedSectorData := [] |}.

(** The state the closure works on: the obligation behind the pointer [so]
    and the captured variables. *)
Definition loopState : Type := storageObligation * locals.

(** Lines 69-75. *)
Definition checkIndex (modification : RevisionAction) (so : storageObligation)
  : outcome error unit :=
  match Type_ modification with
  | ActionInsert =>
      if SectorIndex modification >? len (SectorRoots so)
      then Err errBadModificationIndex else Ok tt
  | _ =>
      if SectorIndex modification >=? len (SectorRoots so)
      then Err errBadModificationIndex else Ok tt
  end.

(** [copy(sector[offset:], data)]: a panic when [offset] is beyond the
    sector, else as many bytes as fit are overwritten. *)
Definition copyAt (sector : list byte) (offset : Z) (data : list byte)
  : outcome error (list byte) :=
  if (offset <? 0) || (offset >? len sector) then Panic
  else
    let o := Z.to_nat offset in
    let n := Nat.min (length sector - o) (length data) in
    Ok (take o sector ++ take n data ++ drop (o + n) sector).

(** The body of the loop at lines 66-134, for one modification. *)
Definition applyModification (st : store) (settings : HostInternalSettings)
    (blockHeight : Z) (modification : RevisionAction) : M error loopState unit :=
  do s <~ get ;;
  let so := fst s in
  run lift (checkIndex modification so) ;;
  if len (Data modification) >? SectorSize then throw errLargeSector
  else
    let i := Z.to_nat (SectorIndex modification) in
    match Type_ modification with
    | ActionDelete =>
        do root <~ lift (index (SectorRoots so) (SectorIndex modification)) ;;
        modify (fun '(so, l) =>
          (set_SectorRoots (take i (SectorRoots so) ++ drop (S i) (SectorRoots so)) so,
           {| bandwidthRevenue := bandwidthRevenue l;
              storageRevenue := storageRevenue l;
              newCollateral := newCollateral l;
              sectorsRemoved := sectorsRemoved l ++ [root];
              sectorsGained := sectorsGained l;
              gainedSectorData := gainedSectorData l |}))
    | ActionInsert =>
        if negb (len (Data modification) =? SectorSize) then throw errBadSectorSize
        else
          let blocksRemaining := U64.sub (proofDeadline so) blockHeight in
          let blockBytesCurrency :=
            Currency.Mul64 (Currency.NewCurrency64 blocksRemaining) SectorSize in
          let newRoot := MerkleRoot (Data modification) in
          modify (fun '(so, l) =>
            (set_SectorRoots
               (take i (SectorRoots so) ++ [newRoot] ++ drop i (SectorRoots so)) so,
             {| bandwidthRevenue :=
                  Currency.Add (bandwidthRevenue l)
                    (Currency.Mul64 (MinUploadBandwidthPrice settings) SectorSize);
                storageRevenue :=
                  Currency.Add (storageRevenue l)
                    (Currency.Mul (MinStoragePrice settings) blockBytesCurrency);
                newCollateral :=
                  Currency.Add (newCollateral l)
                    (Currency.Mul (Collateral settings) blockBytesCurrency);
                sectorsRemoved := sectorsRemoved l;
                sectorsGained := sectorsGained l ++ [newRoot];
                gainedSectorData := gainedSectorData l ++ [Data modification] |}))
    | ActionModify =>
        if (Offset modification >? SectorSize)
           || (U64.add (Offset modification) (len (Data modification)) >? SectorSize)
        then throw errIllegalOffsetAndLength
        else
          do oldRoot <~ lift (index (SectorRoots so) (SectorIndex modification)) ;;
          match ReadSector st oldRoot with
          | inl msg =>
              lift (extendErr "could not read sector: " (Err (ErrorInternal msg)))
          | inr sector0 =>
              do sector <~ lift (copyAt sector0 (Offset modification) (Data modification)) ;;
              let newRoot := MerkleRoot sector in
              modify (fun '(so, l) =>
                (set_SectorRoots (<[i := newRoot]> (SectorRoots so)) so,
                 {| bandwidthRevenue :=
                      Currency.Add (bandwidthRevenue l)
                        (Currency.Mul64 (MinUploadBandwidthPrice settings)
                           (len (Data modification)));
                    storageRevenue := storageRevenue l;
                    newCollateral := newCollateral l;
                    sectorsRemoved := sectorsRemoved l ++ [oldRoot];
                    sectorsGained := sectorsGained l ++ [newRoot];
                    gainedSectorData := gainedSectorData l ++ [sector] |}))
          end
    | ActionUnknown _ => throw errUnknownModification
    end.

(** The loop at lines 66-134. *)
Definition applyModifications (st : store) (settings : HostInternalSettings)
    (blockHeight : Z) (modifications : list RevisionAction) : M error loopState unit :=
  forRange modifications (applyModification st settings blockHeight).

(** The loop at lines 279-282.  The shift is a [uint64] shift, so [1 << k]
    is zero from [k = 64] on; after 65 iterations that all continue, the loop
    never exits. *)
Fixpoint log2Loop (fuel : nat) (log2SectorSize : Z) : outcome error Z :=
  match fuel with
  | O => Diverge
  | S fuel' =>
      if U64.shl1 log2SectorSize <? SectorSize / SegmentSize
      then log2Loop fuel' (U64.add log2SectorSize 1)
      else Ok log2SectorSize
  end.

(** Lines 224-293. *)
Definition verifyRevision (so : storageObligation) (revision : FileContractRevision)
    (blockHeight : Z) (newRevenue newCollateral : Currency.t) : outcome error unit :=
  if negb (len (NewValidProofOutputs revision) =? 2)
     || negb (len (NewMissedProofOutputs revision) =? 3)
  then Err errBadContractOutputCounts else
  if U64.sub (expiration so) revisionSubmissionBuffer <=? blockHeight
  then Err errLateRevision else
  let! lastTxn := index (RevisionTransactionSet so) (len (RevisionTransactionSet so) - 1) in
  let! oldFCR := index (FileContractRevisions lastTxn) 0 in
  if negb (bool_decide (ParentID oldFCR = ParentID revision))
  then Err errBadContractParent else
  if negb (bool_decide (UnlockHash (RevUnlockConditions oldFCR)
                        = UnlockHash (RevUnlockConditions revision)))
  then Err errBadUnlockConditions else
  if NewRevisionNumber oldFCR >=? NewRevisionNumber revision
  then Err errBadRevisionNumber else
  if negb (NewFileSize revision =? U64.mul (len (SectorRoots so)) SectorSize)
  then Err errBadFileSize else
  if negb (NewWindowStart oldFCR =? NewWindowStart revision)
  then Err errBadWindowStart else
  if negb (NewWindowEnd oldFCR =? NewWindowEnd revision)
  then Err errBadWindowEnd else
  if negb (bool_decide (NewUnlockHash oldFCR = NewUnlockHash revision))
  then Err errBadUnlockHash else
  let! newValid0 := index (NewValidProofOutputs revision) 0 in
  let! oldValid0 := index (NewValidProofOutputs oldFCR) 0 in
  if Currency.Cmp (Currency.Add (Value newValid0) newRevenue) (Value oldValid0) >? 0
  then Err errHighRenterValidOutput else
  let! oldValid1 := index (NewValidProofOutputs oldFCR) 1 in
  let! newValid1 := index (NewValidProofOutputs revision) 1 in
  if Currency.Cmp (Currency.Add (Value oldValid1) newRevenue) (Value newValid1) <? 0
  then Err errLowHostValidOutput else
  let! newMissed0 := index (NewMissedProofOutputs revision) 0 in
  let! oldMissed0 := index (NewMissedProofOutputs oldFCR) 0 in
  if Currency.Cmp (Currency.Add (Value newMissed0) newRevenue) (Value oldMissed0) >? 0
  then Err errHighRenterMissedOutput else
  let! newMissed1 := index (NewMissedProofOutputs revision) 1 in
  let! oldMissed1 := index (NewMissedProofOutputs oldFCR) 1 in
  if Currency.Cmp (Currency.Add (Value newMissed1) newCollateral) (Value oldMissed1) <? 0
  then Err errLowHostMissedOutput else
  let! log2SectorSize := log2Loop 65 0 in
  let expectedMerkleRoot := CachedTreeRoot log2SectorSize (SectorRoots so) in
  if negb (bool_decide (NewFileMerkleRoot revision = expectedMerkleRoot))
  then Err errBadFileMerkleRoot else
  Ok tt.

(** *** The checks of [verifyRevision], one by one

    Each check as a predicate of its own, and an order of checks read as a
    decision list, to compare the order of the code with the order the spec
    lists. *)

Inductive check : Type :=
  | OutputCounts
  | Lateness
  | ContractParent
  | UnlockConds
  | RevisionNumber
  | FileSize
  | WindowStart
  | WindowEnd
  | NewUnlockHashCheck
  | RenterValidOutput
  | HostValidOutput
  | RenterMissedOutput
  | HostMissedOutput
  | FileMerkleRoot.

Definition check_error (c : check) : error :=
  match c with
  | OutputCounts => errBadContractOutputCounts
  | Lateness => errLateRevision
  | ContractParent => errBadContractParent
  | UnlockConds => errBadUnlockConditions
  | RevisionNumber => errBadRevisionNumber
  | FileSize => errBadFileSize
  | WindowStart => errBadWindowStart
  | WindowEnd => errBadWindowEnd
  | NewUnlockHashCheck => errBadUnlockHash
  | RenterValidOutput => errHighRenterValidOutput
  | HostValidOutput => errLowHostValidOutput
  | RenterMissedOutput => errHighRenterMissedOutput
  | HostMissedOutput => errLowHostMissedOutput
  | FileMerkleRoot => errBadFileMerkleRoot
  end.

Definition valueAt (outputs : list SiacoinOutput) (i : nat) : Currency.t :=
  default 0 (Value <$> outputs !! i).

(** Whether check [c] rejects [revision], where [oldFCR] is the latest
    revision of the obligation and [height] the height of the Merkle tree. *)
Definition rejects (so : storageObligation) (oldFCR revision : FileContractRevision)
    (blockHeight : Z) (newRevenue newCollateral : Currency.t) (height : Z)
    (c : check) : bool :=
  match c with
  | OutputCounts =>
      negb (len (NewValidProofOutputs revision) =? 2)
      || negb (len (NewMissedProofOutputs revision) =? 3)
  | Lateness => U64.sub (expiration so) revisionSubmissionBuffer <=? blockHeight
  | ContractParent => negb (bool_decide (ParentID oldFCR = ParentID revision))
  | UnlockConds =>
      negb (bool_decide (UnlockHash (RevUnlockConditions oldFCR)
                         = UnlockHash (RevUnlockConditions revision)))
  | RevisionNumber => NewRevisionNumber oldFCR >=? NewRevisionNumber revision
  | FileSize =>
      negb (NewFileSize revision =? U64.mul (len (SectorRoots so)) SectorSize)
  | WindowStart => negb (NewWindowStart oldFCR =? NewWindowStart revision)
  | WindowEnd => negb (NewWindowEnd oldFCR =? NewWindowEnd revision)
  | NewUnlockHashCheck =>
      negb (bool_decide (NewUnlockHash oldFCR = NewUnlockHash revision))
  | RenterValidOutput =>
      valueAt (NewValidProofOutputs revision) 0 + newRevenue
        >? valueAt (NewValidProofOutputs oldFCR) 0
  | HostValidOutput =>
      valueAt (NewValidProofOutputs oldFCR) 1 + newRevenue
        <? valueAt (NewValidProofOutputs revision) 1
  | RenterMissedOutput =>
      valueAt (NewMissedProofOutputs revision) 0 + newRevenue
        >? valueAt (NewMissedProofOutputs oldFCR) 0
  | HostMissedOutput =>
      valueAt (NewMissedProofOutputs revision) 1 + newCollateral
        <? valueAt (NewMissedProofOutputs oldFCR) 1
  | FileMerkleRoot =>
      negb (bool_decide (NewFileMerkleRoot revision
                         = CachedTreeRoot height (SectorRoots so)))
  end.

(** The error of the first check of [order] that rejects, nil when none
    does. *)
Definition verdict (order : list check) (so : storageObligation)
    (oldFCR revision : FileContractRevision) (blockHeight : Z)
    (newRevenue newCollateral : Currency.t) (height : Z) : outcome error unit :=
  match find (rejects so oldFCR revision blockHeight newRevenue newCollateral height) order with
  | Some c => Err (check_error c)
  | None => Ok tt
  end.

(** The order in which the code makes the checks. *)
Definition codeOrder : list check :=
  [OutputCounts; Lateness; ContractParent; UnlockConds; RevisionNumber; FileSize;
   WindowStart; WindowEnd; NewUnlockHashCheck;
   RenterValidOutput; HostValidOutput; RenterMissedOutput; HostMissedOutput;
   FileMerkleRoot].

(** The order the spec lists: all the fields that must stay equal (item 3),
    then the revision number (item 4) and the file size (item 5). *)
Definition specOrder : list check :=
  [OutputCounts; Lateness; ContractParent; UnlockConds;
   WindowStart; WindowEnd; NewUnlockHashCheck; RevisionNumber; FileSize;
   RenterValidOutput; HostValidOutput; RenterMissedOutput; HostMissedOutput;
   FileMerkleRoot].

(** The closure at lines 65-137: the loop, then [verifyRevision] on the
    obligation as the loop left it. *)
Definition applyAndVerify (st : store) (settings : HostInternalSettings)
    (blockHeight : Z) (modifications : list RevisionAction)
    (revision : FileContractRevision) : M error loopState unit :=
  run applyModifications st settings blockHeight modifications ;;
  do s <~ get ;;
  let newRevenue := Currency.Add (storageRevenue (snd s)) (bandwidthRevenue (snd s)) in
  lift (extendErr "unable to verify revision: "
          (verifyRevision (fst s) revision blockHeight newRevenue (newCollateral (snd s)))).

(** *** The iteration and what it does to the outside *)

(** The fields the iteration reads from the host under its lock. *)
Record Host := {
  settings : HostInternalSettings;
  secretKey : SecretKey;
  blockHeight : Z
}.

(** What the iteration writes to the connection, and its call of
    [modifyStorageObligation]. *)
Inductive event : Type :=
  | EvRPCSettings
  | EvSetDeadline
  | EvWriteRejection (e : error)
  | EvWriteAcceptance
  | EvWriteStop
  | EvWriteSignature (sig : TransactionSignature)
  | EvModifyStorageObligation (so : storageObligation)
      (removed gained : list Hash) (data : list (list byte)).

(** What the other end of the connection and the transport answer: the
    results of the calls that read from or write to [conn].  An error of the
    [encoding] package is its message. *)
Record renter := {
  rpcSettings : outcome error unit;
  readAcceptance : outcome error unit;
  readModifications : string + list RevisionAction;
  readRevision : string + FileContractRevision;
  writeAcceptance : option string;
  readRenterSig : string + TransactionSignature;
  writeSignal : option string;
  writeHostSig : option string
}.

(** The obligation behind the pointer [so], the durable state of the host,
    and the trace of the iteration. *)
Record world := {
  obligation : storageObligation;
  durable : store;
  trace : list event
}.

Definition emit (e : event) : M error world unit :=
  modify (fun w =>
    {| obligation := obligation w; durable := durable w; trace := trace w ++ [e] |}).

Definition set_obligation (so : storageObligation) : M error world unit :=
  modify (fun w => {| obligation := so; durable := durable w; trace := trace w |}).

Definition set_durable (st : store) : M error world unit :=
  modify (fun w => {| obligation := obligation w; durable := st; trace := trace w |}).

(** [encoding.ReadObject] followed by the wrapping of its error. *)
Definition readObject {A} (prefix : string) (r : string + A) : M error world A :=
  match r with
  | inl msg => lift (extendErr prefix (Err (ErrorConnection msg)))
  | inr a => ret a
  end.

(** A write whose error is wrapped as a connection error. *)
Definition written (prefix : string) (r : option string) : M error world unit :=
  match r with
  | Some msg => lift (extendErr prefix (Err (ErrorConnection msg)))
  | None => ret tt
  end.

(** Lines 161-164. *)
Definition commitFields (l : locals) (txn : Transaction) (so : storageObligation)
  : storageObligation :=
  {| SectorRoots := SectorRoots so;
     PotentialStorageRevenue :=
       Currency.Add (PotentialStorageRevenue so) (storageRevenue l);
     PotentialUploadRevenue :=
       Currency.Add (PotentialUploadRevenue so) (bandwidthRevenue l);
     RiskedCollateral := Currency.Add (RiskedCollateral so) (newCollateral l);
     OriginTransactionSet := OriginTransactionSet so;
     RevisionTransactionSet := [txn] |}.

(** Lines 16-188. *)
Definition managedRevisionIteration (h : Host) (r : renter) (finalIter : bool)
  : M error world unit :=
  run emit EvRPCSettings ;;
  run lift (extendErr "RPCSettings failed: " (rpcSettings r)) ;;
  run emit EvSetDeadline ;;
  run lift (extendErr "renter rejected settings: " (readAcceptance r)) ;;
  do modifications <~
    readObject "unable to read revision modifications: " (readModifications r) ;;
  do revision <~ readObject "unable to read proposed revision: " (readRevision r) ;;
  do w <~ get ;;
  let result :=
    applyAndVerify (durable w) (settings h) (blockHeight h) modifications revision
      (obligation w, locals0) in
  run set_obligation (fst (snd result)) ;;
  let l := snd (snd result) in
  match fst result with
  | Err err =>
      run emit (EvWriteRejection err) ;;
      lift (extendErr "rejected proposed modifications: " (Err err))
  | Panic => lift Panic
  | Diverge => lift Diverge
  | Ok _ =>
      run emit EvWriteAcceptance ;;
      run written "could not accept revision modifications: " (writeAcceptance r) ;;
      do renterSig <~
        readObject "could not read renter transaction signature: " (readRenterSig r) ;;
      match createRevisionSignature revision renterSig (secretKey h) (blockHeight h) with
      | Err err =>
          run emit (EvWriteRejection err) ;;
          lift (extendErr "could not create revision signature: " (Err err))
      | Panic => lift Panic
      | Diverge => lift Diverge
      | Ok txn =>
          do w1 <~ get ;;
          let so := commitFields l txn (obligation w1) in
          run set_obligation so ;;
          run emit (EvModifyStorageObligation so
                      (sectorsRemoved l) (sectorsGained l) (gainedSectorData l)) ;;
          let committed :=
            modifyStorageObligation (durable w1) so
              (sectorsRemoved l) (sectorsGained l) (gainedSectorData l) in
          run set_durable (snd committed) ;;
          match fst committed with
          | Some msg =>
              run emit (EvWriteRejection (ErrorOther msg)) ;;
              lift (extendErr "could not modify storage obligation: "
                      (Err (ErrorInternal msg)))
          | None =>
              run emit (if finalIter then EvWriteStop else EvWriteAcceptance) ;;
              run written "iteration signal failed to send: " (writeSignal r) ;;
              do hostSig <~ lift (index (TransactionSignatures txn) 1) ;;
              run emit (EvWriteSignature hostSig) ;;
              written "failed to write revision signatures: " (writeHostSig r)
          end
      end
  end.

(** Two obligations that differ at most in their sector roots: the same
    accumulators and the same transaction sets. *)
Definition sameLedger (a b : storageObligation) : Prop :=
  PotentialStorageRevenue a = PotentialStorageRevenue b
  /\ PotentialUploadRevenue a = PotentialUploadRevenue b
  /\ RiskedCollateral a = RiskedCollateral b
  /\ OriginTransactionSet a = OriginTransactionSet b
  /\ RevisionTransactionSet a = RevisionTransactionSet b.

(** The errors the loop over the modifications can return. *)
Definition modificationError (e : error) : Prop :=
  e = errBadModificationIndex \/ e = errLargeSector \/ e = errBadSectorSize
  \/ e = errIllegalOffsetAndLength \/ e = errUnknownModification
  \/ exists msg, e = Extended "could not read sector: " (ErrorInternal msg).

(** What one modification, once applied, adds to the number of sector roots
    and how many bytes of upload it is charged for. *)
Definition sectorDelta (modification : RevisionAction) : Z :=
  match Type_ modification with
  | ActionInsert => 1
  | ActionDelete => -1
  | _ => 0
  end.

Definition uploadBytes (modification : RevisionAction) : Z :=
  match Type_ modification with
  | ActionInsert => SectorSize
  | ActionModify => len (Data modification)
  | _ => 0
  end.

Definition sumOver (f : RevisionAction -> Z) (modifications : list RevisionAction) : Z :=
  foldr Z.add 0 (f <$> modifications).

(** Whether the trace holds a call of [modifyStorageObligation]. *)
Definition is_commit (e : event) : bool :=
  match e with
  | EvModifyStorageObligation _ _ _ _ => true
  | _ => false
  end.

End Revision.

End Host.

(** ** Package consensus: the coin balance validator *)

Module Consensus.

(** Declarations of [types] that are not under src/: identifiers,
    conditions and fulfillments, and the hash that gives a transaction its
    identifier. *)
Class Types := {
  CoinOutputID : Type;
  TransactionID : Type;
  Condition : Type;
  Fulfillment : Type
}.

Section Validators.
Context `{Types}.

Record CoinInput := {
  ParentID : CoinOutputID;
  InputFulfillment : Fulfillment
}.

Record CoinOutput := {
  Value : Currency.t;
  OutputCondition : Condition
}.

Record Transaction := {
  CoinInputs : list CoinInput;
  CoinOutputs : list CoinOutput;
  MinerFees : list Currency.t;
  ArbitraryData : list byte
}.

Record TransactionCreationValidationContext := {
  BlockHeight : Z
}.

(** [modules.ConsensusStateGetter], the read view of the consensus state:
    [None] stands for a non-nil error of the lookup. *)
Record ConsensusStateGetter := {
  UnspentCoinOutputGet : CoinOutputID -> option CoinOutput
}.

(** The textual errors of the validator, with the values their messages are
    formatted from. *)
Inductive verror : Type :=
  | ErrParentNotFound (parent : CoinOutputID) (height : Z)
  | ErrInputsLessThanOutputs (inputs : Currency.t) (tx : TransactionID) (outputs : Currency.t)
  | ErrInputsGreaterThanOutputs (inputs : Currency.t) (tx : TransactionID) (outputs : Currency.t).

(** Modelled from the spec: [Transaction.CoinOutputSum] is not under src/.
    The sum "includes miner fees and all coin outputs". *)
Definition CoinOutputSum (tx : Transaction) : Currency.t :=
  let fees := fold_left Currency.Add (MinerFees tx) 0 in
  fold_left (fun sum co => Currency.Add sum (Value co)) (CoinOutputs tx) fees.

(** The loop at lines 440-448, from the sum collected so far. *)
Fixpoint collectCoinInputSum (css : ConsensusStateGetter)
    (ctx : TransactionCreationValidationContext)
    (inputs : list CoinInput) (coinInputSum : Currency.t) : verror + Currency.t :=
  match inputs with
  | [] => inr coinInputSum
  | ci :: rest =>
      match UnspentCoinOutputGet css (ParentID ci) with
      | None => inl (ErrParentNotFound (ParentID ci) (BlockHeight ctx))
      | Some co => collectCoinInputSum css ctx rest (Currency.Add coinInputSum (Value co))
      end
  end.

(** Lines 437-466; [ID] is [Transaction.ID].  [None] is the nil error. *)
Definition ValidateCoinOutputsAreBalanced (ID : Transaction -> TransactionID)
    (tx : Transaction) (ctx : TransactionCreationValidationContext)
    (css : ConsensusStateGetter) : option verror :=
  match collectCoinInputSum css ctx (CoinInputs tx) 0 with
  | inl err => Some err
  | inr coinInputSum =>
      let coinOutputSum := CoinOutputSum tx in
      let r := Currency.Cmp coinInputSum coinOutputSum in
      if r <? 0 then Some (ErrInputsLessThanOutputs coinInputSum (ID tx) coinOutputSum)
      else if r >? 0 then Some (ErrInputsGreaterThanOutputs coinInputSum (ID tx) coinOutputSum)
      else None
  end.

(** The validator's conditions, stated apart from its loop: the outputs
    that the inputs of a transaction resolve to, if all of them resolve, and
    the plain sum of a list of amounts. *)
Fixpoint resolveAll (css : ConsensusStateGetter) (inputs : list CoinInput)
  : option (list CoinOutput) :=
  match inputs with
  | [] => Some []
  | ci :: rest =>
      co ← UnspentCoinOutputGet css (ParentID ci);
      cos ← resolveAll css rest;
      Some (co :: cos)
  end.

Definition total (amounts : list Currency.t) : Currency.t := foldr Z.add 0 amounts.

End Validators.

End Consensus.

(** ** Package hostdb: the weight of a host and the scanner's updates *)

Module HostDB.

Record HostExternalSettings := {
  NetAddress : string;
  Collateral : Currency.t;
  ContractPrice : Currency.t;
  DownloadBandwidthPrice : Currency.t;
  StoragePrice : Currency.t;
  UploadBandwidthPrice : Currency.t
}.

Record SiaPublicKey := {
  Algorithm : string;
  Key : list byte
}.

(** [hostEntry] embeds the host's external settings. *)
Record hostEntry := {
  Settings : HostExternalSettings;
  PublicKey : SiaPublicKey;
  Weight : Currency.t;
  Reliability : Currency.t;
  Online : bool
}.

Definition maxActiveHosts : nat := 500.

Definition MaxReliability : Currency.t := Currency.NewCurrency64 500.
Definition DefaultReliability : Currency.t := Currency.NewCurrency64 150.
Definition UnreachablePenalty : Currency.t := Currency.NewCurrency64 1.

Definition baseWeight : Currency.t := 10 ^ 150.

Section Database.
Context `{Currency.TaxRate}.

(** [calculateHostWeight], lines 18-72 of its file. *)
Definition calculateHostWeight (entry : hostEntry) : Currency.t :=
  let s := Settings entry in
  let adjustedContractPrice :=
    Currency.Div64 (Currency.Div64 (ContractPrice s) 6048) 10000000000 in
  let adjustedUploadPrice := Currency.Div64 (UploadBandwidthPrice s) 24192 in
  let adjustedDownloadPrice := Currency.Div64 (DownloadBandwidthPrice s) 12096 in
  let siafundFee :=
    Currency.MulTax
      (Currency.Add
         (Currency.Add (Currency.Add adjustedContractPrice adjustedUploadPrice)
            adjustedDownloadPrice)
         (Collateral s)) in
  let totalPrice :=
    Currency.Add
      (Currency.Add
         (Currency.Add (Currency.Add (StoragePrice s) adjustedContractPrice)
            adjustedUploadPrice)
         adjustedDownloadPrice)
      siafundFee in
  let weight :=
    if negb (Currency.IsZero totalPrice)
    then Currency.Div (Currency.Div (Currency.Div (Currency.Div
           (Currency.Div baseWeight totalPrice) totalPrice) totalPrice)
           totalPrice) totalPrice
    else baseWeight in
  if Currency.IsZero (Collateral s) then weight
  else Currency.Mul weight (Collateral s).

(** A [*hostEntry] is a location of the heap.  [activeHosts] maps an address
    to the node of the host tree that holds the entry; the node is
    represented by the entry it points to (the tree itself, which
    [removeNode] and [insertNode] maintain, lives outside src/). *)
Definition loc : Type := positive.

Record hostDB := {
  heap : gmap loc hostEntry;
  allHosts : gmap string loc;
  activeHosts : gmap string loc
}.

Definition set_heap (h : gmap loc hostEntry) (hdb : hostDB) : hostDB :=
  {| heap := h; allHosts := allHosts hdb; activeHosts := activeHosts hdb |}.
Definition set_allHosts (m : gmap string loc) (hdb : hostDB) : hostDB :=
  {| heap := heap hdb; allHosts := m; activeHosts := activeHosts hdb |}.
Definition set_activeHosts (m : gmap string loc) (hdb : hostDB) : hostDB :=
  {| heap := heap hdb; allHosts := allHosts hdb; activeHosts := m |}.

Definition set_Reliability_Online (r : Currency.t) (o : bool) (e : hostEntry) : hostEntry :=
  {| Settings := Settings e; PublicKey := PublicKey e; Weight := Weight e;
     Reliability := r; Online := o |}.

(** scan.go lines 56-79.  [None] is a nil dereference. *)
Definition decrementReliability (addr : string) (penalty : Currency.t)
    (hdb : hostDB) : option hostDB :=
  match allHosts hdb !! addr with
  | None => Some hdb
  | Some entry =>
      e ← heap hdb !! entry;
      let e' := set_Reliability_Online (Currency.Sub (Reliability e) penalty) false e in
      let hdb1 := set_heap (<[entry := e']> (heap hdb)) hdb in
      let hdb2 :=
        match activeHosts hdb1 !! addr with
        | Some _ => set_activeHosts (delete (NetAddress (Settings e')) (activeHosts hdb1)) hdb1
        | None => hdb1
        end in
      Some (if Currency.IsZero (Reliability e')
            then set_allHosts (delete addr (allHosts hdb2)) hdb2
            else hdb2)
  end.

(** Modelled from the spec: [insertNode] is not under src/.  The entry is
    "re-inserted into the active tree": [activeHosts] gets a node for it under
    the entry's address. *)
Definition insertNode (entry : loc) (hdb : hostDB) : option hostDB :=
  e ← heap hdb !! entry;
  Some (set_activeHosts (<[NetAddress (Settings e) := entry]> (activeHosts hdb)) hdb).

(** scan.go lines 83-129.  [netErr] is the error of the probe, [None] for
    nil.  [hdb.save()] writes the database to disk and leaves it as it is. *)
Definition managedUpdateEntry (entry : loc) (newSettings : HostExternalSettings)
    (netErr : option string) (hdb : hostDB) : option hostDB :=
  e ← heap hdb !! entry;
  let addr := NetAddress (Settings e) in
  let priorHost := allHosts hdb !! addr in
  let hdb1 :=
    match priorHost with
    | None => set_allHosts (<[addr := entry]> (allHosts hdb)) hdb
    | Some _ => hdb
    end in
  match netErr with
  | Some _ =>
      match priorHost with
      | Some prior =>
          pe ← heap hdb1 !! prior;
          if bool_decide (Key (PublicKey pe) = Key (PublicKey e))
          then decrementReliability addr UnreachablePenalty hdb1
          else Some hdb1
      | None => Some hdb1
      end
  | None =>
      let hdb2 :=
        match activeHosts hdb1 !! addr with
        | Some _ => set_activeHosts (delete addr (activeHosts hdb1)) hdb1
        | None => hdb1
        end in
      let settings' :=
        {| NetAddress := NetAddress (Settings e);
           Collateral := Collateral newSettings;
           ContractPrice := ContractPrice newSettings;
           DownloadBandwidthPrice := DownloadBandwidthPrice newSettings;
           StoragePrice := StoragePrice newSettings;
           UploadBandwidthPrice := UploadBandwidthPrice newSettings |} in
      let e1 :=
        {| Settings := settings'; PublicKey := PublicKey e; Weight := Weight e;
           Reliability := MaxReliability; Online := Online e |} in
      let e2 :=
        {| Settings := settings'; PublicKey := PublicKey e;
           Weight := calculateHostWeight e1;
           Reliability := MaxReliability; Online := true |} in
      let hdb3 := set_heap (<[entry := e2]> (heap hdb2)) hdb2 in
      if bool_decide (is_Some (activeHosts hdb3 !! addr))
         || bool_decide (size (activeHosts hdb3) < maxActiveHosts)%nat
      then insertNode entry hdb3
      else Some hdb3
  end.

(** The state the scanner keeps: every entry of [allHosts] is allocated, is
    filed under its own address and has a reliability above zero, and
    [activeHosts] has at most [maxActiveHosts] entries. *)
Definition retained (hdb : hostDB) : Prop :=
  forall addr entry,
    allHosts hdb !! addr = Some entry ->
    exists e,
      heap hdb !! entry = Some e
      /\ NetAddress (Settings e) = addr
      /\ 0 < Reliability e.

Definition wellKept (hdb : hostDB) : Prop :=
  retained hdb /\ (size (activeHosts hdb) <= maxActiveHosts)%nat.

(** The entry that a successful probe leaves behind the pointer, lines
    117-121 of scan.go: the new settings under the old address, the highest
    reliability, the weight of the entry so far updated, online. *)
Definition probed (e : hostEntry) (newSettings : HostExternalSettings) : hostEntry :=
  let settings' :=
    {| NetAddress := NetAddress (Settings e);
       Collateral := Collateral newSettings;
       ContractPrice := ContractPrice newSettings;
       DownloadBandwidthPrice := DownloadBandwidthPrice newSettings;
       StoragePrice := StoragePrice newSettings;
       UploadBandwidthPrice := UploadBandwidthPrice newSettings |} in
  {| Settings := settings'; PublicKey := PublicKey e;
     Weight :=
       calculateHostWeight
         {| Settings := settings'; PublicKey := PublicKey e; Weight := Weight e;
            Reliability := MaxReliability; Online := Online e |};
     Reliability := MaxReliability; Online := true |}.

(** scan.go lines 134-170.  The workers take the queued entries off
    [scanPool]; each probe ends in settings or in an error, and each update
    runs under the lock of the database.  [probes] lists the entries in the
    order in which their updates take the lock, each with the answer of its
    probe. *)
Fixpoint threadedProbeHosts
    (probes : list (loc * HostExternalSettings * option string))
    (hdb : hostDB) : option hostDB :=
  match probes with
  | [] => Some hdb
  | (hostEntry, settings, err) :: rest =>
      hdb' ← managedUpdateEntry hostEntry settings err hdb;
      threadedProbeHosts rest hdb'
  end.

End Database.

End HostDB.

(** ** The transaction validators *)

Module Validation.
Import Consensus.

(** Further declarations of [types] that are not under src/: the block
    stake identifiers, the zero values of the identifiers (the composite
    literals [CoinOutputID{}] and [BlockStakeOutputID{}]), the validation
    context, and the standardness checks of conditions and fulfillments with
    the errors they return, [None] for nil.  The identifiers are keys of Go
    maps. *)
Class ValidationTypes `{Types} := {
  BlockStakeOutputID : Type;
  ValidationContext : Type;
  StandardError : Type;
  CoinOutputID_eq_dec :: EqDecision CoinOutputID;
  CoinOutputID_countable :: @Countable CoinOutputID CoinOutputID_eq_dec;
  BlockStakeOutputID_eq_dec :: EqDecision BlockStakeOutputID;
  BlockStakeOutputID_countable ::
    @Countable BlockStakeOutputID BlockStakeOutputID_eq_dec;
  zeroCoinOutputID : CoinOutputID;
  zeroBlockStakeOutputID : BlockStakeOutputID;
  IsStandardCondition : Condition -> ValidationContext -> option StandardError;
  IsStandardFulfillment : Fulfillment -> ValidationContext -> option StandardError
}.

Section Validators.
Context `{ValidationTypes}.

Record BlockStakeInput := {
  BlockStakeParentID : BlockStakeOutputID;
  BlockStakeFulfillment : Fulfillment
}.

Record BlockStakeOutput := {
  BlockStakeValue : Currency.t;
  BlockStakeCondition : Condition
}.

(** [types.Transaction] with the fields that the validators read. *)
Record Transaction := {
  CoinInputs : list CoinInput;
  CoinOutputs : list CoinOutput;
  BlockStakeInputs : list BlockStakeInput;
  BlockStakeOutputs : list BlockStakeOutput;
  MinerFees : list Currency.t
}.

(** [types.TransactionValidationContext]; [Context] is the embedded
    [ValidationContext]. *)
Record TransactionValidationContext := {
  Context : ValidationContext;
  IsBlockCreatingTx : bool;
  MinimumMinerFee : Currency.t
}.

(** The method of [modules.ConsensusStateGetter] that the block stake
    validator calls: [None] stands for a non-nil error of the lookup. *)
Record BlockStakeStateGetter := {
  UnspentBlockStakeOutputGet : BlockStakeOutputID -> option BlockStakeOutput
}.

Inductive error : Type :=
  | ErrZeroOutput
  | ErrDoubleSpend
  | ErrTooSmallMinerFee
  | ErrNotStandard (err : StandardError)
  | ErrNoCoinParentID
  | ErrNoBlockStakeParentID
  | ErrNoMinerFees (tx : TransactionID)
  | ErrBlockStakeParentNotFound (parent : BlockStakeOutputID) (height : Z)
  | ErrBlockStakeInputsLessThanOutputs
      (inputs : Currency.t) (tx : TransactionID) (outputs : Currency.t)
  | ErrBlockStakeInputsGreaterThanOutputs
      (inputs : Currency.t) (tx : TransactionID) (outputs : Currency.t).

(** The error of a standardness check, handed on as it is. *)
Definition standard (err : option StandardError) : option error :=
  ErrNotStandard <$> err.

(** Lines 322-334; the state getter is not read. *)
Fixpoint coinOutputsAreValid (ctx : TransactionValidationContext)
    (outputs : list CoinOutput) : option error :=
  match outputs with
  | [] => None
  | co :: rest =>
      if Currency.IsZero (Value co) then Some ErrZeroOutput
      else match standard (IsStandardCondition (OutputCondition co) (Context ctx)) with
           | Some err => Some err
           | None => coinOutputsAreValid ctx rest
           end
  end.

Definition ValidateCoinOutputsAreValid (tx : Transaction)
    (ctx : TransactionValidationContext) : option error :=
  coinOutputsAreValid ctx (CoinOutputs tx).

(** Lines 338-350. *)
Fixpoint coinInputsAreValid (ctx : TransactionValidationContext)
    (inputs : list CoinInput) : option error :=
  match inputs with
  | [] => None
  | ci :: rest =>
      if bool_decide (ParentID ci = zeroCoinOutputID) then Some ErrNoCoinParentID
      else match standard (IsStandardFulfillment (InputFulfillment ci) (Context ctx)) with
           | Some err => Some err
           | None => coinInputsAreValid ctx rest
           end
  end.

Definition ValidateCoinInputsAreValid (tx : Transaction)
    (ctx : TransactionValidationContext) : option error :=
  coinInputsAreValid ctx (CoinInputs tx).

(** Lines 354-366. *)
Fixpoint blockStakeOutputsAreValid (ctx : TransactionValidationContext)
    (outputs : list BlockStakeOutput) : option error :=
  match outputs with
  | [] => None
  | bso :: rest =>
      if Currency.IsZero (BlockStakeValue bso) then Some ErrZeroOutput
      else match standard (IsStandardCondition (BlockStakeCondition bso) (Context ctx)) with
           | Some err => Some err
           | None => blockStakeOutputsAreValid ctx rest
           end
  end.

Definition ValidateBlockStakeOutputsAreValid (tx : Transaction)
    (ctx : TransactionValidationContext) : option error :=
  blockStakeOutputsAreValid ctx (BlockStakeOutputs tx).

(** Lines 370-382. *)
Fixpoint blockStakeInputsAreValid (ctx : TransactionValidationContext)
    (inputs : list BlockStakeInput) : option error :=
  match inputs with
  | [] => None
  | bsi :: rest =>
      if bool_decide (BlockStakeParentID bsi = zeroBlockStakeOutputID)
      then Some ErrNoBlockStakeParentID
      else match standard (IsStandardFulfillment (BlockStakeFulfillment bsi) (Context ctx)) with
           | Some err => Some err
           | None => blockStakeInputsAreValid ctx rest
           end
  end.

Definition ValidateBlockStakeInputsAreValid (tx : Transaction)
    (ctx : TransactionValidationContext) : option error :=
  blockStakeInputsAreValid ctx (BlockStakeInputs tx).

(** Lines 386-394; [ID] is [Transaction.ID]. *)
Definition ValidateMinerFeeIsPresent (ID : Transaction -> TransactionID)
    (tx : Transaction) (ctx : TransactionValidationContext) : option error :=
  if IsBlockCreatingTx ctx then None
  else if len (MinerFees tx) =? 0 then Some (ErrNoMinerFees (ID tx))
  else None.

(** Lines 398-405. *)
Fixpoint minerFeesAreValid (ctx : TransactionValidationContext)
    (fees : list Currency.t) : option error :=
  match fees with
  | [] => None
  | fee :: rest =>
      if Currency.Cmp fee (MinimumMinerFee ctx) =? -1 then Some ErrTooSmallMinerFee
      else minerFeesAreValid ctx rest
  end.

Definition ValidateMinerFeesAreValid (tx : Transaction)
    (ctx : TransactionValidationContext) : option error :=
  minerFeesAreValid ctx (MinerFees tx).

(** Lines 408-417: the loop over the coin inputs, with the map
    [spendCoins] as the set of its keys. *)
Fixpoint doubleCoinSpends (inputs : list CoinInput) (spendCoins : gset CoinOutputID)
  : option error :=
  match inputs with
  | [] => None
  | ci :: rest =>
      if bool_decide (ParentID ci ∈ spendCoins) then Some ErrDoubleSpend
      else doubleCoinSpends rest ({[ParentID ci]} ∪ spendCoins)
  end.

Definition ValidateDoubleCoinSpends (tx : Transaction)
    (ctx : TransactionValidationContext) : option error :=
  doubleCoinSpends (CoinInputs tx) ∅.

(** Lines 420-429. *)
Fixpoint doubleBlockStakeSpends (inputs : list BlockStakeInput)
    (spendBlockStakes : gset BlockStakeOutputID) : option error :=
  match inputs with
  | [] => None
  | bsi :: rest =>
      if bool_decide (BlockStakeParentID bsi ∈ spendBlockStakes)
      then Some ErrDoubleSpend
      else doubleBlockStakeSpends rest ({[BlockStakeParentID bsi]} ∪ spendBlockStakes)
  end.

Definition ValidateDoubleBlockStakeSpends (tx : Transaction)
    (ctx : TransactionValidationContext) : option error :=
  doubleBlockStakeSpends (BlockStakeInputs tx) ∅.

(** The loop at lines 473-481, from the sum collected so far. *)
Fixpoint collectBlockStakeInputSum (css : BlockStakeStateGetter)
    (ctx : TransactionCreationValidationContext)
    (inputs : list BlockStakeInput) (blockStakeInputSum : Currency.t)
  : error + Currency.t :=
  match inputs with
  | [] => inr blockStakeInputSum
  | bsi :: rest =>
      match UnspentBlockStakeOutputGet css (BlockStakeParentID bsi) with
      | None => inl (ErrBlockStakeParentNotFound (BlockStakeParentID bsi) (BlockHeight ctx))
      | Some bso =>
          collectBlockStakeInputSum css ctx rest
            (Currency.Add blockStakeInputSum (BlockStakeValue bso))
      end
  end.

(** Lines 470-502. *)
Definition ValidateBlockStakeOutputsAreBalanced (ID : Transaction -> TransactionID)
    (tx : Transaction) (ctx : TransactionCreationValidationContext)
    (css : BlockStakeStateGetter) : option error :=
  match collectBlockStakeInputSum css ctx (BlockStakeInputs tx) 0 with
  | inl err => Some err
  | inr blockStakeInputSum =>
      let blockStakeOutputSum :=
        fold_left (fun sum bso => Currency.Add sum (BlockStakeValue bso))
          (BlockStakeOutputs tx) 0 in
      let r := Currency.Cmp blockStakeInputSum blockStakeOutputSum in
      if r <? 0
      then Some (ErrBlockStakeInputsLessThanOutputs blockStakeInputSum (ID tx)
                   blockStakeOutputSum)
      else if r >? 0
           then Some (ErrBlockStakeInputsGreaterThanOutputs blockStakeInputSum (ID tx)
                        blockStakeOutputSum)
           else None
  end.

(** The conditions of the validators, stated apart from their loops. *)
Definition validCoinOutput (ctx : TransactionValidationContext) (co : CoinOutput) : Prop :=
  Value co <> 0 /\ IsStandardCondition (OutputCondition co) (Context ctx) = None.

Definition validBlockStakeOutput (ctx : TransactionValidationContext)
    (bso : BlockStakeOutput) : Prop :=
  BlockStakeValue bso <> 0
  /\ IsStandardCondition (BlockStakeCondition bso) (Context ctx) = None.

Definition validCoinInput (ctx : TransactionValidationContext) (ci : CoinInput) : Prop :=
  ParentID ci <> zeroCoinOutputID
  /\ IsStandardFulfillment (InputFulfillment ci) (Context ctx) = None.

Definition validBlockStakeInput (ctx : TransactionValidationContext)
    (bsi : BlockStakeInput) : Prop :=
  BlockStakeParentID bsi <> zeroBlockStakeOutputID
  /\ IsStandardFulfillment (BlockStakeFulfillment bsi) (Context ctx) = None.

Fixpoint resolveBlockStakes (css : BlockStakeStateGetter)
    (inputs : list BlockStakeInput) : option (list BlockStakeOutput) :=
  match inputs with
  | [] => Some []
  | bsi :: rest =>
      bso ← UnspentBlockStakeOutputGet css (BlockStakeParentID bsi);
      bsos ← resolveBlockStakes css rest;
      Some (bso :: bsos)
  end.

End Validators.

End Validation.

(** ** The configuration checks of the daemon *)

Module Daemon.

(** The errors that rivined/daemon.go makes, with the values their messages
    are formatted from. *)
Inductive error : Type :=
  | ErrBlankHost (port : string)
  | ErrNotLoopback
  | ErrNoPassword
  | ErrModules (invalidModules : string).

(** Declarations that are not under src/: the methods of
    [modules.NetAddress], [build.JoinErrors] with the errors it makes, and of
    Go's library [strconv.Atoi], of which the daemon reads the error only
    ([None] when it is not nil), and [strings.ToLower]. *)
Class Library := {
  IsLoopback : string -> bool;
  Host : string -> string;
  Port : string -> string;
  JoinedError : Type;
  JoinErrors : list (option error) -> string -> option JoinedError;
  Atoi : string -> option Z;
  ToLower : string -> string
}.

(** The fields of [Config.Siad] that the checks read. *)
Record SiadConfig := {
  AllowAPIBind : bool;
  AuthenticateAPI : bool;
  APIaddr : string;
  RPCaddr : string;
  HostAddr : string;
  Modules : string
}.

Record Config := {
  Siad : SiadConfig
}.

Section Checks.
Context `{Library}.

(** daemon.go lines 29-49. *)
Definition verifyAPISecurity (config : Config) : option error :=
  if negb (AllowAPIBind (Siad config)) then
    let addr := APIaddr (Siad config) in
    if negb (IsLoopback addr) then
      if bool_decide (Host addr = EmptyString) then Some (ErrBlankHost (Port addr))
      else Some ErrNotLoopback
    else None
  else if AllowAPIBind (Siad config) && negb (AuthenticateAPI (Siad config))
       then Some ErrNoPassword
       else None.

(** Lines 53-59. *)
Definition processNetAddr (addr : string) : string :=
  match Atoi addr with
  | Some _ => ":" +:+ addr
  | None => addr
  end.

(** [strings.Replace(s, string(m), "", 1)] for a rune [m] of one byte: [s]
    without the first occurrence of [m]. *)
Fixpoint Replace1 (s : string) (m : Ascii.ascii) : string :=
  match s with
  | EmptyString => EmptyString
  | String c rest => if bool_decide (c = m) then rest else String c (Replace1 rest m)
  end.

Definition validModules : string := "cgtwe".

(** The bytes of a string, in their order. *)
Definition letters (s : string) : list Ascii.ascii := String.list_ascii_of_string s.

(** Lines 64-75: the string and the error that are returned. *)
Definition processModules (modules : string) : string * option error :=
  let modules := ToLower modules in
  let invalidModules :=
    fold_left Replace1 (letters validModules) modules in
  if 0 <? Z.of_nat (String.length invalidModules)
  then (EmptyString, Some (ErrModules invalidModules))
  else (modules, None).

(** Lines 79-91.  With an error the configuration returned is the zero
    value, [inl] keeps the error alone. *)
Definition processConfig (config : Config) : JoinedError + Config :=
  let siad := Siad config in
  let '(modules, err1) := processModules (Modules siad) in
  let config :=
    {| Siad := {| AllowAPIBind := AllowAPIBind siad;
                  AuthenticateAPI := AuthenticateAPI siad;
                  APIaddr := processNetAddr (APIaddr siad);
                  RPCaddr := processNetAddr (RPCaddr siad);
                  HostAddr := processNetAddr (HostAddr siad);
                  Modules := modules |} |} in
  let err2 := verifyAPISecurity config in
  match JoinErrors [err1; err2] ", and " with
  | Some err => inl err
  | None => inr config
  end.

End Checks.

End Daemon.

(** ** A small concrete host, for running the definitions *)

Module Fixture.
Import Host.

(** Hashes are numbers; the root of a sector is a checksum of its bytes and
    the root of a tree adds the pushed roots to the height. *)
Definition crypto : Crypto :=
  {| Hash := Z;
     MerkleRoot := fun data =>
       fold_left (fun acc b => acc + Z.of_N (Byte.to_N b)) data (len data);
     CachedTreeRoot := fun height roots => fold_left Z.add roots height;
     UnlockConditions := Z;
     UnlockHash := fun uc => uc;
     SecretKey := Z |}.

#[local] Existing Instance crypto.

(** The sector size of the spec's scenario, 4 KiB, with 64-byte segments. *)
Definition constants : Constants :=
  {| SectorSize := 4096; SegmentSize := 64; revisionSubmissionBuffer := 144 |}.

#[local] Existing Instance constants.

Definition lastRevision (so : storageObligation) : option FileContractRevision :=
  t ← last (RevisionTransactionSet so);
  head (FileContractRevisions t).

(** The durable state is the list of the obligations committed so far, the
    latest first; no sector can be read back.  The window of the obligation is
    the one of its latest revision. *)
Definition deps : HostDeps :=
  {| store := list storageObligation;
     expiration := fun so => default 0 (NewWindowStart <$> lastRevision so);
     proofDeadline := fun so => default 0 (NewWindowEnd <$> lastRevision so);
     ReadSector := fun _ _ => inl "sector not found"%string;
     createRevisionSignature := fun revision renterSig sk _ =>
       Ok {| FileContractRevisions := [revision];
             TransactionSignatures :=
               [renterSig;
                {| SigParentID := ParentID revision; PublicKeyIndex := 1;
                   Signature := [] |}] |};
     modifyStorageObligation := fun st so _ _ _ => (None, so :: st) |}.

#[local] Existing Instance deps.

Definition emptyStore : store := [].

Definition output (v : Currency.t) : SiacoinOutput :=
  {| Value := v; OutputUnlockHash := 0 |}.

(** The latest revision of the contract: revision 5, no data yet, proof
    window from height 1000 to height 1100. *)
Definition oldRevision : FileContractRevision :=
  {| ParentID := 11; RevUnlockConditions := 22; NewRevisionNumber := 5;
     NewFileSize := 0; NewFileMerkleRoot := 6;
     NewWindowStart := 1000; NewWindowEnd := 1100;
     NewValidProofOutputs := [output 5000000; output 1000];
     NewMissedProofOutputs := [output 5000000; output 1000000; output 0];
     NewUnlockHash := 33 |}.

Definition revise (number windowStart : Z) : FileContractRevision :=
  {| ParentID := ParentID oldRevision;
     RevUnlockConditions := RevUnlockConditions oldRevision;
     NewRevisionNumber := number;
     NewFileSize := NewFileSize oldRevision;
     NewFileMerkleRoot := NewFileMerkleRoot oldRevision;
     NewWindowStart := windowStart;
     NewWindowEnd := NewWindowEnd oldRevision;
     NewValidProofOutputs := NewValidProofOutputs oldRevision;
     NewMissedProofOutputs := NewMissedProofOutputs oldRevision;
     NewUnlockHash := NewUnlockHash oldRevision |}.

(** Revision 6 changes nothing else; the stale revision keeps number 5; the
    stale revision that also moves the window starts it at height 1001. *)
Definition nextRevision : FileContractRevision := revise 6 1000.
Definition staleRevision : FileContractRevision := revise 5 1000.
Definition staleMovedRevision : FileContractRevision := revise 5 1001.

(** Revision 6 that changes nothing else than the host's valid output, which
    it takes from 1000 to nothing. *)
Definition hostLosesRevision : FileContractRevision :=
  {| ParentID := ParentID oldRevision;
     RevUnlockConditions := RevUnlockConditions oldRevision;
     NewRevisionNumber := 6;
     NewFileSize := NewFileSize oldRevision;
     NewFileMerkleRoot := NewFileMerkleRoot oldRevision;
     NewWindowStart := NewWindowStart oldRevision;
     NewWindowEnd := NewWindowEnd oldRevision;
     NewValidProofOutputs := [output 5000000; output 0];
     NewMissedProofOutputs := NewMissedProofOutputs oldRevision;
     NewUnlockHash := NewUnlockHash oldRevision |}.

Definition lastTransaction : Transaction :=
  {| FileContractRevisions := [oldRevision]; TransactionSignatures := [] |}.

Definition emptyObligation : storageObligation :=
  {| SectorRoots := [];
     PotentialStorageRevenue := 0; PotentialUploadRevenue := 0;
     RiskedCollateral := 0;
     OriginTransactionSet := [];
     RevisionTransactionSet := [lastTransaction] |}.

(** The prices of the spec's first scenario. *)
Definition scenarioSettings : HostInternalSettings :=
  {| MaxReviseBatchSize := 1000000; Collateral := 1;
     MinStoragePrice := 2; MinUploadBandwidthPrice := 3 |}.

Definition zeroSector : list byte := replicate 4096 Byte.x00.

Definition insertAt (i : Z) : RevisionAction :=
  {| Type_ := ActionInsert; SectorIndex := i; Offset := 0; Data := zeroSector |}.

Definition deleteAt (i : Z) : RevisionAction :=
  {| Type_ := ActionDelete; SectorIndex := i; Offset := 0; Data := [] |}.

End Fixture.

Module FixtureIteration.
Import Host.
#[local] Existing Instances Fixture.crypto Fixture.constants Fixture.deps.

Definition host : Host :=
  {| settings := Fixture.scenarioSettings; secretKey := 7; blockHeight := 500 |}.

Definition renterSignature : TransactionSignature :=
  {| SigParentID := 11; PublicKeyIndex := 0; Signature := [] |}.

(** A renter that accepts the settings and sends the given batch and
    revision, then its signature; every write succeeds. *)
Definition renterSending (modifications : list RevisionAction)
    (revision : FileContractRevision) : renter :=
  {| rpcSettings := Ok tt;
     readAcceptance := Ok tt;
     readModifications := inr modifications;
     readRevision := inr revision;
     writeAcceptance := None;
     readRenterSig := inr renterSignature;
     writeSignal := None;
     writeHostSig := None |}.

(** The revision that pays for one inserted sector at height 500, when 600
    blocks remain: 4927488 of revenue moves from the renter to the host. *)
Definition paidRevision : FileContractRevision :=
  {| ParentID := 11; RevUnlockConditions := 22; NewRevisionNumber := 6;
     NewFileSize := 4096; NewFileMerkleRoot := 4102;
     NewWindowStart := 1000; NewWindowEnd := 1100;
     NewValidProofOutputs := [Fixture.output 72512; Fixture.output 4928488];
     NewMissedProofOutputs :=
       [Fixture.output 72512; Fixture.output 1000000; Fixture.output 0];
     NewUnlockHash := 33 |}.

Definition world0 : world :=
  {| obligation := Fixture.emptyObligation; durable := Fixture.emptyStore; trace := [] |}.

End FixtureIteration.

Module FixtureConsensus.
Import Consensus.

Definition types : Types :=
  {| CoinOutputID := Z; TransactionID := Z; Condition := unit; Fulfillment := unit |}.

#[local] Existing Instance types.

(** A consensus state with one unspent output, of value 100, under the
    identifier 1. *)
Definition parentOutput : CoinOutput := {| Value := 100; OutputCondition := tt |}.

Definition unspent : gmap Z CoinOutput := {[ 1 := parentOutput ]}.

Definition css : ConsensusStateGetter :=
  {| UnspentCoinOutputGet := fun id => unspent !! id |}.

Definition ctx : TransactionCreationValidationContext := {| BlockHeight := 42 |}.

Definition ID (tx : Transaction) : TransactionID := len (CoinOutputs tx).

(** The spec's third scenario: one input of 100, an output of 90 and a miner
    fee of 10. *)
Definition balancedTx : Transaction :=
  {| CoinInputs := [{| ParentID := 1; InputFulfillment := tt |}];
     CoinOutputs := [{| Value := 90; OutputCondition := tt |}];
     MinerFees := [10];
     ArbitraryData := [] |}.

End FixtureConsensus.

Module FixtureHostDB.
Import HostDB.

#[local] Existing Instance Currency.SiafundPortion.

Definition address : string := "host.example:9982".

Definition settingsWith (download collateral : Currency.t) : HostExternalSettings :=
  {| NetAddress := address; Collateral := collateral;
     ContractPrice := 0; DownloadBandwidthPrice := download;
     StoragePrice := 0; UploadBandwidthPrice := 0 |}.

Definition entryWith (download collateral reliability : Currency.t) : hostEntry :=
  {| Settings := settingsWith download collateral;
     PublicKey := {| Algorithm := "ed25519"; Key := [Byte.x01; Byte.x02] |};
     Weight := 0; Reliability := reliability; Online := true |}.

(** A database with one host, active, one failed probe away from
    eviction. *)
Definition lastChance : hostDB :=
  {| heap := {[ 1%positive := entryWith 0 10 1 ]};
     allHosts := {[ address := 1%positive ]};
     activeHosts := {[ address := 1%positive ]} |}.

Definition probeFailed : option string := Some "i/o timeout"%string.

(** The database after two failed probes of the same entry. *)
Definition probedTwice : option hostDB :=
  hdb1 ← managedUpdateEntry 1%positive (settingsWith 0 10) probeFailed lastChance;
  managedUpdateEntry 1%positive (settingsWith 0 10) probeFailed hdb1.

Definition afterFirstProbe : hostDB :=
  {| heap := {[ 1%positive := set_Reliability_Online 0 false (entryWith 0 10 1) ]};
     allHosts := ∅;
     activeHosts := ∅ |}.


(** A database that has an announced host on its heap and nothing on
    file. *)
Definition unknownHost : hostDB :=
  {| heap := {[ 1%positive := entryWith 0 10 150 ]};
     allHosts := ∅;
     activeHosts := ∅ |}.

(** An entry that charges for storage. *)
Definition pricedEntry (storage collateral reliability : Currency.t) : hostEntry :=
  {| Settings :=
       {| NetAddress := address; Collateral := collateral;
          ContractPrice := 0; DownloadBandwidthPrice := 0;
          StoragePrice := storage; UploadBandwidthPrice := 0 |};
     PublicKey := {| Algorithm := "ed25519"; Key := [Byte.x01; Byte.x02] |};
     Weight := 0; Reliability := reliability; Online := true |}.

(** A database with one host, active, two failed probes away from
    eviction, and a round of the scanner that probes it twice in vain. *)
Definition twoChances : hostDB :=
  {| heap := {[ 1%positive := entryWith 0 10 2 ]};
     allHosts := {[ address := 1%positive ]};
     activeHosts := {[ address := 1%positive ]} |}.

Definition failedRound : list (loc * HostExternalSettings * option string) :=
  [ (1%positive, settingsWith 0 10, probeFailed);
    (1%positive, settingsWith 0 10, probeFailed) ].

Definition afterFailedRound : hostDB :=
  {| heap := {[ 1%positive := set_Reliability_Online 0 false (entryWith 0 10 2) ]};
     allHosts := ∅;
     activeHosts := ∅ |}.

End FixtureHostDB.

Module FixtureSectors.
Import Host.
#[local] Existing Instances Fixture.crypto Fixture.constants.

(** A host whose durable state is the sectors it stores, each under its
    root; a committed obligation adds the gained sectors. *)
Definition deps : HostDeps :=
  {| store := list (Hash * list byte);
     expiration := fun so => default 0 (NewWindowStart <$> Fixture.lastRevision so);
     proofDeadline := fun so => default 0 (NewWindowEnd <$> Fixture.lastRevision so);
     ReadSector := fun st root =>
       match list_find (fun entry => fst entry = root) st with
       | Some (_, (_, sector)) => inr sector
       | None => inl "sector not found"%string
       end;
     createRevisionSignature := fun revision renterSig sk _ =>
       Ok {| FileContractRevisions := [revision];
             TransactionSignatures := [renterSig; renterSig] |};
     modifyStorageObligation := fun st so _ gained data => (None, zip gained data ++ st) |}.

#[local] Existing Instance deps.

Definition zeroRoot : Hash := MerkleRoot Fixture.zeroSector.

Definition sectorStore : store := [(zeroRoot, Fixture.zeroSector)].

(** An obligation that holds the sector of zeros. *)
Definition oneSector : storageObligation :=
  {| SectorRoots := [zeroRoot];
     PotentialStorageRevenue := 0; PotentialUploadRevenue := 0;
     RiskedCollateral := 0;
     OriginTransactionSet := [];
     RevisionTransactionSet := [Fixture.lastTransaction] |}.

Definition modifyAt (i offset : Z) (data : list byte) : RevisionAction :=
  {| Type_ := ActionModify; SectorIndex := i; Offset := offset; Data := data |}.

End FixtureSectors.

Module FixtureValidation.
Import Consensus Validation.

(** A condition or a fulfillment is standard when it is [true]. *)
Definition types : Types :=
  {| CoinOutputID := Z; TransactionID := Z; Condition := bool; Fulfillment := bool |}.

#[local] Existing Instance types.

Definition known (standard : bool) (_ : unit) : option string :=
  if standard then None else Some "unknown type"%string.

Definition validationTypes : ValidationTypes :=
  {| BlockStakeOutputID := Z; ValidationContext := unit; StandardError := string;
     CoinOutputID_eq_dec := _; CoinOutputID_countable := _;
     BlockStakeOutputID_eq_dec := _; BlockStakeOutputID_countable := _;
     zeroCoinOutputID := 0; zeroBlockStakeOutputID := 0;
     IsStandardCondition := known; IsStandardFulfillment := known |}.

#[local] Existing Instance validationTypes.

Definition ctx : TransactionValidationContext :=
  {| Context := tt; IsBlockCreatingTx := false; MinimumMinerFee := 10 |}.

Definition creation : TransactionCreationValidationContext := {| BlockHeight := 42 |}.

Definition ID (tx : Transaction) : TransactionID := len (CoinOutputs tx).

Definition soundInput : CoinInput := {| ParentID := 1; InputFulfillment := true |}.
Definition soundOutput : CoinOutput := {| Value := 75; OutputCondition := true |}.
Definition stakeOutput : BlockStakeOutput :=
  {| BlockStakeValue := 3; BlockStakeCondition := true |}.

(** An input without a parent and with an unknown fulfillment, and an
    output without a value and with an unknown condition. *)
Definition orphanInput : CoinInput := {| ParentID := 0; InputFulfillment := false |}.
Definition voidOutput : CoinOutput := {| Value := 0; OutputCondition := false |}.

(** One coin input and one block stake input, an output of each kind, and
    two miner fees. *)
Definition tx : Transaction :=
  {| CoinInputs := [soundInput];
     CoinOutputs := [soundOutput];
     BlockStakeInputs :=
       [{| BlockStakeParentID := 7; BlockStakeFulfillment := true |}];
     BlockStakeOutputs := [stakeOutput];
     MinerFees := [10; 15] |}.

(** A consensus state with one unspent block stake output, of value 3. *)
Definition css : BlockStakeStateGetter :=
  {| UnspentBlockStakeOutputGet :=
       fun id => if id =? 7 then Some stakeOutput else None |}.

(** The same transaction with a second coin input and a second coin output,
    both flawed. *)
Definition flawedTx : Transaction :=
  {| CoinInputs := [soundInput; orphanInput];
     CoinOutputs := [soundOutput; voidOutput];
     BlockStakeInputs := BlockStakeInputs tx;
     BlockStakeOutputs := BlockStakeOutputs tx;
     MinerFees := MinerFees tx |}.

End FixtureValidation.

Module FixtureDaemon.
Import Daemon.

Definition colon : Ascii.ascii := Ascii.Ascii false true false true true true false false.

Definition isDigit (c : Ascii.ascii) : bool :=
  bool_decide (48 <= Z.of_N (Ascii.N_of_ascii c) <= 57).

Fixpoint digits (s : string) (value : Z) : option Z :=
  match s with
  | EmptyString => Some value
  | String c rest =>
      if isDigit c then digits rest (10 * value + (Z.of_N (Ascii.N_of_ascii c) - 48))
      else None
  end.

(** A reading of port numbers: one or more decimal digits. *)
Definition readPort (s : string) : option Z :=
  match s with
  | EmptyString => None
  | _ => digits s 0
  end.

Definition join (errs : list (option error)) (sep : string) : option (list error) :=
  match omap id errs with
  | [] => None
  | found => Some found
  end.

(** A library that knows the host [localhost] alone as loopback, splits an
    address at its first colon, and lowers nothing. *)
Fixpoint hostOf (addr : string) : string :=
  match addr with
  | EmptyString => EmptyString
  | String c rest =>
      if bool_decide (c = colon) then EmptyString else String c (hostOf rest)
  end.

Fixpoint portOf (addr : string) : string :=
  match addr with
  | EmptyString => EmptyString
  | String c rest => if bool_decide (c = colon) then rest else portOf rest
  end.

Definition library : Library :=
  {| IsLoopback := fun addr => bool_decide (hostOf addr = "localhost"%string);
     Host := hostOf; Port := portOf;
     JoinedError := list error; JoinErrors := join; Atoi := readPort; ToLower := fun s => s |}.

Definition config : Config :=
  {| Siad := {| AllowAPIBind := false; AuthenticateAPI := false;
                APIaddr := "localhost:23110"; RPCaddr := "23112";
                HostAddr := ":23113"; Modules := "cgtwe" |} |}.

Definition processed : Config :=
  {| Siad := {| AllowAPIBind := false; AuthenticateAPI := false;
                APIaddr := "localhost:23110"; RPCaddr := ":23112";
                HostAddr := ":23113"; Modules := "cgtwe" |} |}.

End FixtureDaemon.

(** * Properties *)

(** ** The modification loop *)

Section ModificationLoop.
Import Host.
Context `{Crypto} `{!Constants} `{!HostDeps}.

Lemma forRange_app {E S A} (xs ys : list A) (body : A -> M E S unit) (s : S) :
  forRange (xs ++ ys) body s = bind (forRange xs body) (fun _ => forRange ys body) s.
Proof.
  revert s. induction xs as [|x xs IH]; intros s; simpl; [reflexivity|].
  unfold bind. destruct (body x s) as [[[]| | |] s']; try reflexivity.
  rewrite IH. reflexivity.
Qed.

Lemma forRange_singleton {E S A} (x : A) (body : A -> M E S unit) (s : S) :
  forRange [x] body s = body x s.
Proof.
  simpl. unfold bind, ret. destruct (body x s) as [[[]| | |] s']; reflexivity.
Qed.

Lemma applyModifications_snoc st settings bh ms m (s0 s1 : loopState) :
  applyModifications st settings bh ms s0 = (Ok tt, s1) ->
  applyModifications st settings bh (ms ++ [m]) s0
  = applyModification st settings bh m s1.
Proof.
  intros Hms. unfold applyModifications in *.
  rewrite forRange_app. unfold bind at 1. rewrite Hms.
  apply forRange_singleton.
Qed.

Lemma checkIndex_spec (m : RevisionAction) (so : storageObligation) :
  checkIndex m so = Err errBadModificationIndex
  <-> (Type_ m = ActionInsert /\ SectorIndex m > len (SectorRoots so))
      \/ (Type_ m <> ActionInsert /\ SectorIndex m >= len (SectorRoots so)).
Proof.
  unfold checkIndex.
  destruct (Type_ m) eqn:Ht;
    repeat match goal with
           | |- context [?a >? ?b] => destruct (Z.gtb_spec a b)
           | |- context [?a >=? ?b] => destruct (Z.geb_spec a b)
           end;
    split; intros Hx; try discriminate; try reflexivity;
    try (destruct Hx as [[Hx ?]|[Hx ?]]; (discriminate || congruence || lia));
    try (right; split; [discriminate | lia]);
    try (left; split; [reflexivity | lia]).
Qed.

Lemma checkIndex_cases (m : RevisionAction) (so : storageObligation) :
  checkIndex m so = Err errBadModificationIndex \/ checkIndex m so = Ok tt.
Proof.
  unfold checkIndex. destruct (Type_ m); repeat case_match; auto.
Qed.

Lemma index_no_err {E A} (l : list A) (i : Z) (e : E) : index l i <> Err e.
Proof. unfold index. repeat case_match; discriminate. Qed.

Lemma copyAt_no_err (sector : list byte) (offset : Z) (data : list byte) (e : error) :
  copyAt sector offset data <> Err e.
Proof. unfold copyAt. case_match; discriminate. Qed.

Lemma applyModification_index_error st settings bh m (s : loopState) :
  fst (applyModification st settings bh m s) = Err errBadModificationIndex
  <-> checkIndex m (fst s) = Err errBadModificationIndex.
Proof.
  unfold applyModification, bind, get, lift, throw, modify, extendErr.
  destruct (checkIndex_cases m (fst s)) as [Hc|Hc]; rewrite Hc; simpl.
  - tauto.
  - split; [|discriminate]. intros Hx. exfalso.
    repeat (case_match; simpl in *; try discriminate;
            try (eapply index_no_err; eassumption);
            try (eapply copyAt_no_err; eassumption)).
Qed.

(** C7.  After the modifications [ms] of a batch have been applied, the next
    modification [m] is checked against the sector roots as [ms] left them:
    it fails with [errBadModificationIndex] exactly when it is an insert
    beyond the length, or not an insert and at or beyond the length; an insert
    of a full sector at the length itself is accepted and appends its root. *)
Theorem modification_index_precondition st settings bh
    (ms : list RevisionAction) (m : RevisionAction) (s0 s1 : loopState) :
  applyModifications st settings bh ms s0 = (Ok tt, s1) ->
  let n := len (SectorRoots (fst s1)) in
  applyModifications st settings bh (ms ++ [m]) s0
    = applyModification st settings bh m s1
  /\ (fst (applyModification st settings bh m s1) = Err errBadModificationIndex
      <-> (Type_ m = ActionInsert /\ SectorIndex m > n)
          \/ (Type_ m <> ActionInsert /\ SectorIndex m >= n))
  /\ (Type_ m = ActionInsert -> SectorIndex m = n -> len (Data m) = SectorSize ->
      exists l,
        applyModification st settings bh m s1
        = (Ok tt, (set_SectorRoots (SectorRoots (fst s1) ++ [MerkleRoot (Data m)])
                     (fst s1), l))).
Proof.
  intros Hms n. split; [|split].
  - apply applyModifications_snoc, Hms.
  - rewrite applyModification_index_error. apply checkIndex_spec.
  - intros Ht Hi Hd. destruct s1 as [so l]. simpl in *.
    unfold applyModification, bind, get, lift, throw, modify, checkIndex. simpl.
    rewrite Ht, Hi, Hd. fold n.
    rewrite !Z.gtb_ltb, !Z.ltb_irrefl. simpl.
    rewrite Z.eqb_refl. simpl. eexists. f_equal. f_equal. f_equal.
    subst n. unfold len. rewrite Nat2Z.id.
    rewrite firstn_all, drop_all. reflexivity.
Qed.

(** C3.  An obligation without sectors and one insert of a full sector: the
    loop succeeds, the sector's root is the only root, and the amounts are
    the prices times [SectorSize], for storage and collateral times the
    remaining blocks [proofDeadline - blockHeight] as well (a [uint64]
    difference, the plain one when the deadline is ahead).  With the numbers of
    the spec's scenario they are 819200, 12288 and 409600. *)
Theorem single_insert_finances st settings bh
    (so : storageObligation) (m : RevisionAction) :
  SectorRoots so = [] ->
  Type_ m = ActionInsert -> SectorIndex m = 0 -> len (Data m) = SectorSize ->
  let remainingBlocks := U64.sub (proofDeadline so) bh in
  exists so' l,
    applyModifications st settings bh [m] (so, locals0) = (Ok tt, (so', l))
    /\ SectorRoots so' = [MerkleRoot (Data m)]
    /\ storageRevenue l = MinStoragePrice settings * remainingBlocks * SectorSize
    /\ bandwidthRevenue l = MinUploadBandwidthPrice settings * SectorSize
    /\ newCollateral l = Collateral settings * remainingBlocks * SectorSize
    /\ (0 <= bh <= proofDeadline so -> proofDeadline so < U64.modulus ->
        remainingBlocks = proofDeadline so - bh)
    /\ (SectorSize = 4096 -> MinStoragePrice settings = 2 ->
        MinUploadBandwidthPrice settings = 3 -> Collateral settings = 1 ->
        remainingBlocks = 100 ->
        storageRevenue l = 819200 /\ bandwidthRevenue l = 12288
        /\ newCollateral l = 409600).
Proof.
  intros Hroots Ht Hi Hd remainingBlocks.
  unfold applyModifications. rewrite forRange_singleton.
  unfold applyModification, bind, get, lift, throw, modify, checkIndex. simpl.
  rewrite Ht, Hi, Hd, Hroots. simpl.
  rewrite Z.gtb_ltb, Z.ltb_irrefl, Z.eqb_refl. simpl.
  eexists _, _. split; [reflexivity|]. simpl.
  unfold Currency.Add, Currency.Mul, Currency.Mul64, Currency.NewCurrency64.
  fold remainingBlocks.
  split; [rewrite Hroots; reflexivity|].
  split; [lia|]. split; [lia|]. split; [lia|]. split.
  - intros Hb Hp. subst remainingBlocks. unfold U64.sub, U64.wrap.
    apply Z.mod_small. unfold U64.modulus in *. lia.
  - intros Hs Hp Hu Hc Hr. rewrite Hs, Hp, Hu, Hc, Hr. repeat split; reflexivity.
Qed.

End ModificationLoop.

Section ModificationLoopWitnesses.
Import Host.
#[local] Existing Instances Fixture.crypto Fixture.constants Fixture.deps.

(** The spec's first scenario: 100 blocks remain at height 1000. *)
Lemma single_insert_finances_witness :
  exists so' l,
    applyModifications Fixture.emptyStore Fixture.scenarioSettings 1000 [Fixture.insertAt 0]
      (Fixture.emptyObligation, locals0) = (Ok tt, (so', l))
    /\ storageRevenue l = 819200 /\ bandwidthRevenue l = 12288
    /\ newCollateral l = 409600.
Proof.
  destruct (single_insert_finances Fixture.emptyStore Fixture.scenarioSettings 1000
              Fixture.emptyObligation (Fixture.insertAt 0))
    as (so' & l & Hrun & _ & _ & _ & _ & _ & Hnum); try reflexivity.
  exists so', l. split; [exact Hrun|]. apply Hnum; reflexivity.
Defined.

(** A batch that first inserts a sector into an empty obligation: the next
    modification sees one root, so an insert at 2 and a delete at 1 fail on
    their index and an insert at 1 is accepted. *)
Lemma modification_index_precondition_witness :
  let exec ms :=
    applyModifications Fixture.emptyStore Fixture.scenarioSettings 1000 ms
      (Fixture.emptyObligation, locals0) in
  fst (exec ([Fixture.insertAt 0] ++ [Fixture.insertAt 2])) = Err errBadModificationIndex
  /\ fst (exec ([Fixture.insertAt 0] ++ [Fixture.deleteAt 1])) = Err errBadModificationIndex
  /\ fst (exec ([Fixture.insertAt 0] ++ [Fixture.insertAt 1])) = Ok tt.
Proof.
  intros exec.
  assert (Hfirst : exec [Fixture.insertAt 0] = (Ok tt, snd (exec [Fixture.insertAt 0])))
    by (vm_compute; reflexivity).
  split; [|split].
  - destruct (modification_index_precondition _ _ _ _ (Fixture.insertAt 2) _ _ Hfirst)
      as (Hstep & Hidx & _).
    unfold exec. rewrite Hstep. apply Hidx. left. split; [reflexivity|].
    vm_compute. reflexivity.
  - destruct (modification_index_precondition _ _ _ _ (Fixture.deleteAt 1) _ _ Hfirst)
      as (Hstep & Hidx & _).
    unfold exec. rewrite Hstep. apply Hidx. right. split; [discriminate|].
    vm_compute. discriminate.
  - destruct (modification_index_precondition _ _ _ _ (Fixture.insertAt 1) _ _ Hfirst)
      as (Hstep & _ & Hacc).
    unfold exec. rewrite Hstep.
    destruct Hacc as [l Hl]; [reflexivity | vm_compute; reflexivity | reflexivity |].
    rewrite Hl. reflexivity.
Defined.

End ModificationLoopWitnesses.

(** ** The checks of a revision *)

Section RevisionChecks.
Import Host.
Context `{Crypto} `{!Constants} `{!HostDeps}.

Lemma Cmp_gt0 (x y : Currency.t) : (Currency.Cmp x y >? 0) = (x >? y).
Proof.
  unfold Currency.Cmp. rewrite (Z.gtb_ltb x y), Z.ltb_antisym, Z.leb_compare.
  destruct (x ?= y); reflexivity.
Qed.

Lemma Cmp_lt0 (x y : Currency.t) : (Currency.Cmp x y <? 0) = (x <? y).
Proof.
  unfold Currency.Cmp, Z.ltb at 2. destruct (x ?= y); reflexivity.
Qed.

Lemma index_in_range {E A} (l : list A) (i : nat) :
  (i < length l)%nat -> exists a, index (E := E) l (Z.of_nat i) = Ok a /\ l !! i = Some a.
Proof.
  intros Hi. unfold index, len.
  destruct (Z.ltb_spec (Z.of_nat i) 0); [lia|].
  destruct (Z.leb_spec (Z.of_nat (length l)) (Z.of_nat i)); [lia|]. simpl.
  rewrite Nat2Z.id. destruct (lookup_lt_is_Some_2 l i Hi) as [a Ha].
  rewrite Ha. eauto.
Qed.

Lemma index_value (outputs : list SiacoinOutput) (i : nat) :
  (i < length outputs)%nat ->
  exists o, index (E := error) outputs (Z.of_nat i) = Ok o /\ Value o = valueAt outputs i.
Proof.
  intros Hi. destruct (index_in_range (E := error) outputs i Hi) as (o & Ho & Hl).
  exists o. split; [exact Ho|]. unfold valueAt. rewrite Hl. reflexivity.
Qed.

Lemma shl1_small (k : Z) : 0 <= k <= 63 -> U64.shl1 k = 2 ^ k.
Proof.
  intros Hk. unfold U64.shl1, U64.wrap, U64.modulus.
  rewrite Z.shiftl_1_l. apply Z.mod_small. split.
  - apply Z.pow_nonneg. lia.
  - apply Z.pow_lt_mono_r; lia.
Qed.

(** The loop at lines 279-282 exits, with the height the spec names, when
    the sector has at most [2^63] segments. *)
Lemma log2Loop_from (fuel : nat) (k : Z) :
  SectorSize / SegmentSize <= 2 ^ 63 ->
  0 <= k <= 63 ->
  64 - k <= Z.of_nat fuel ->
  k = 0 \/ 2 ^ (k - 1) < SectorSize / SegmentSize ->
  log2Loop fuel k = Ok (Z.log2_up (SectorSize / SegmentSize)).
Proof.
  intros Hq. revert k. induction fuel as [|fuel IH]; intros k Hk Hfuel Hinv.
  - lia.
  - simpl. rewrite (shl1_small k Hk).
    destruct (Z.ltb_spec (2 ^ k) (SectorSize / SegmentSize)) as [Hlt|Hge].
    + assert (k < 63).
      { destruct (Z.lt_ge_cases k 63) as [?|Hge]; [assumption|].
        assert (k = 63) by lia. subst k. lia. }
      replace (U64.add k 1) with (k + 1)
        by (unfold U64.add, U64.wrap, U64.modulus; rewrite Z.mod_small; lia).
      apply IH; [lia | lia |]. right. replace (k + 1 - 1) with k by lia. exact Hlt.
    + f_equal. symmetry.
      destruct (Z.eq_dec k 0) as [->|Hk0].
      * apply Z.log2_up_eqn0. simpl in Hge. lia.
      * destruct Hinv as [?|Hinv]; [contradiction|].
        apply Z.log2_up_unique; lia.
Qed.

Lemma log2Loop_height :
  SectorSize / SegmentSize <= 2 ^ 63 ->
  log2Loop 65 0 = Ok (Z.log2_up (SectorSize / SegmentSize)).
Proof.
  intros Hq. apply log2Loop_from; [exact Hq | lia | lia | left; reflexivity].
Qed.

Ltac next_check :=
  match goal with
  | |- (if ?c then _ else _) = _ => destruct c eqn:?; [reflexivity|]
  end.

Ltac read_output :=
  match goal with
  | |- obind (index ?l ?i) _ = _ =>
      let o := fresh "o" in
      let Ho := fresh "Ho" in
      let Hval := fresh "Hval" in
      destruct (index_value l (Z.to_nat i)) as (o & Ho & Hval); [simpl; lia|];
      change (Z.of_nat (Z.to_nat i)) with i in Ho;
      let n := eval compute in (Z.to_nat i) in change (Z.to_nat i) with n in Hval;
      rewrite Ho; cbn [obind]; rewrite ?Hval
  end.

(** C1.  Given the latest revision of the obligation, [verifyRevision]
    returns the error of the first check that rejects in the order of the
    code: output counts, lateness, parent, unlock conditions, revision number,
    file size, window start, window end, new unlock hash, the four payment
    checks, and the Merkle root last, over a tree of height
    [log2_up (SectorSize / SegmentSize)].  In particular a revision that
    passes the first four checks and does not raise the revision number gets
    [errBadRevisionNumber], whatever it does to the window and the new
    unlock hash. *)
Theorem verifyRevision_order (so : storageObligation)
    (revision : FileContractRevision) (bh : Z) (nr nc : Currency.t)
    (lastTxn : Transaction) (oldFCR : FileContractRevision) :
  index (E := error) (RevisionTransactionSet so)
    (len (RevisionTransactionSet so) - 1) = Ok lastTxn ->
  index (E := error) (FileContractRevisions lastTxn) 0 = Ok oldFCR ->
  ((2 <= length (NewValidProofOutputs oldFCR))%nat ->
   (2 <= length (NewMissedProofOutputs oldFCR))%nat ->
   SectorSize / SegmentSize <= 2 ^ 63 ->
   verifyRevision so revision bh nr nc
   = verdict codeOrder so oldFCR revision bh nr nc
       (Z.log2_up (SectorSize / SegmentSize)))
  /\ (rejects so oldFCR revision bh nr nc 0 OutputCounts = false ->
      rejects so oldFCR revision bh nr nc 0 Lateness = false ->
      rejects so oldFCR revision bh nr nc 0 ContractParent = false ->
      rejects so oldFCR revision bh nr nc 0 UnlockConds = false ->
      NewRevisionNumber oldFCR >= NewRevisionNumber revision ->
      verifyRevision so revision bh nr nc = Err errBadRevisionNumber).
Proof.
  intros Hlast Hold. split.
  - intros Hvalid Hmissed Hsegments.
    pose proof (log2Loop_height Hsegments) as Hlog.
    unfold verifyRevision, verdict, codeOrder. cbn [find rejects check_error].
    match goal with
    | |- (if ?c then _ else _) = _ => destruct c eqn:Hcounts; [reflexivity|]
    end.
    apply orb_false_elim in Hcounts as [Hv Hm].
    apply negb_false_iff, Z.eqb_eq in Hv. apply negb_false_iff, Z.eqb_eq in Hm.
    unfold len in Hv, Hm.
    next_check.
    rewrite Hlast. cbn [obind]. rewrite Hold. cbn [obind].
    do 7 next_check.
    unfold Currency.Add.
    do 2 read_output. rewrite Cmp_gt0. next_check.
    do 2 read_output. rewrite Cmp_lt0. next_check.
    do 2 read_output. rewrite Cmp_gt0. next_check.
    do 2 read_output. rewrite Cmp_lt0. next_check.
    rewrite Hlog. cbn [obind]. next_check. reflexivity.
  - cbn [rejects]. intros Hc Hl Hp Hu Hn.
    unfold verifyRevision. rewrite Hc, Hl, Hlast. cbn [obind].
    rewrite Hold. cbn [obind]. rewrite Hp, Hu.
    destruct (Z.geb_spec (NewRevisionNumber oldFCR) (NewRevisionNumber revision));
      [reflexivity | lia].
Qed.

Lemma log2Loop_no_err (fuel : nat) (k : Z) (e : error) : log2Loop fuel k <> Err e.
Proof.
  revert k. induction fuel as [|fuel IH]; intros k; simpl; [discriminate|].
  case_match; [apply IH | discriminate].
Qed.

Lemma verifyRevision_late_only_at_check (so : storageObligation)
    (revision : FileContractRevision) (bh : Z) (nr nc : Currency.t) :
  (U64.sub (expiration so) revisionSubmissionBuffer <=? bh) = false ->
  verifyRevision so revision bh nr nc <> Err errLateRevision.
Proof.
  intros Hlate Hx. unfold verifyRevision in Hx. rewrite Hlate in Hx.
  unfold obind in Hx.
  repeat (case_match; try discriminate;
          try (eapply index_no_err; eassumption);
          try (eapply log2Loop_no_err; eassumption)).
Qed.

(** C4.  With the output counts right, [verifyRevision] returns
    [errLateRevision] exactly when [expiration - revisionSubmissionBuffer <=
    blockHeight] (a [uint64] difference, the plain one when the buffer is not
    beyond the expiration): at the height [expiration -
    revisionSubmissionBuffer] itself the revision is late, and it passes the
    check only at smaller heights. *)
Theorem lateness_check (so : storageObligation)
    (revision : FileContractRevision) (bh : Z) (nr nc : Currency.t) :
  len (NewValidProofOutputs revision) = 2 ->
  len (NewMissedProofOutputs revision) = 3 ->
  (verifyRevision so revision bh nr nc = Err errLateRevision
   <-> U64.sub (expiration so) revisionSubmissionBuffer <= bh)
  /\ (bh = U64.sub (expiration so) revisionSubmissionBuffer ->
      verifyRevision so revision bh nr nc = Err errLateRevision)
  /\ (0 <= revisionSubmissionBuffer <= expiration so ->
      expiration so < U64.modulus ->
      U64.sub (expiration so) revisionSubmissionBuffer
      = expiration so - revisionSubmissionBuffer).
Proof.
  intros Hv Hm.
  assert (Hlate : U64.sub (expiration so) revisionSubmissionBuffer <= bh ->
                  verifyRevision so revision bh nr nc = Err errLateRevision).
  { intros Hle. unfold verifyRevision. rewrite Hv, Hm. simpl.
    destruct (Z.leb_spec (U64.sub (expiration so) revisionSubmissionBuffer) bh);
      [reflexivity | lia]. }
  split; [split|split].
  - intros Hx.
    destruct (Z.leb_spec (U64.sub (expiration so) revisionSubmissionBuffer) bh)
      as [Hle|Hgt]; [exact Hle|].
    exfalso. eapply verifyRevision_late_only_at_check; [|exact Hx].
    apply Z.leb_gt, Hgt.
  - exact Hlate.
  - intros ->. apply Hlate. lia.
  - intros Hb Hr. unfold U64.sub, U64.wrap. apply Z.mod_small.
    unfold U64.modulus in *. lia.
Qed.

End RevisionChecks.

Section RevisionChecksWitnesses.
Import Host.
#[local] Existing Instances Fixture.crypto Fixture.constants Fixture.deps.

(** C1, as the spec words it, fails: a revision that moves the window start
    and keeps the revision number passes the first four checks and is rejected
    for its revision number, where the order of the spec would answer
    [errBadWindowStart]. *)
Lemma spec_order_counterexample :
  NewWindowStart Fixture.oldRevision <> NewWindowStart Fixture.staleMovedRevision
  /\ NewRevisionNumber Fixture.staleMovedRevision <= NewRevisionNumber Fixture.oldRevision
  /\ verifyRevision Fixture.emptyObligation Fixture.staleMovedRevision 500 0 0
     = Err errBadRevisionNumber
  /\ verdict specOrder Fixture.emptyObligation Fixture.oldRevision
       Fixture.staleMovedRevision 500 0 0 6
     = Err errBadWindowStart.
Proof.
  split; [|split; [|split]].
  - vm_compute. discriminate.
  - vm_compute. discriminate.
  - vm_compute. reflexivity.
  - vm_compute. reflexivity.
Qed.

Lemma verifyRevision_order_witness :
  verifyRevision Fixture.emptyObligation Fixture.staleMovedRevision 500 0 0
  = verdict codeOrder Fixture.emptyObligation Fixture.oldRevision
      Fixture.staleMovedRevision 500 0 0 6
  /\ verifyRevision Fixture.emptyObligation Fixture.staleMovedRevision 500 0 0
     = Err errBadRevisionNumber.
Proof.
  destruct (verifyRevision_order Fixture.emptyObligation Fixture.staleMovedRevision
              500 0 0 Fixture.lastTransaction Fixture.oldRevision eq_refl eq_refl)
    as [Horder Hstale].
  split.
  - apply Horder; [simpl; lia | simpl; lia | vm_compute; discriminate].
  - apply Hstale; try reflexivity. vm_compute. discriminate.
Defined.

(** C4, as it is worded, fails: at the height [expiration -
    revisionSubmissionBuffer], here 1000 - 144, a revision that is accepted
    one block earlier is rejected as late. *)
Lemma lateness_boundary_counterexample :
  len (NewValidProofOutputs Fixture.nextRevision) = 2
  /\ len (NewMissedProofOutputs Fixture.nextRevision) = 3
  /\ expiration Fixture.emptyObligation - revisionSubmissionBuffer = 856
  /\ verifyRevision Fixture.emptyObligation Fixture.nextRevision 856 0 0
     = Err errLateRevision
  /\ verifyRevision Fixture.emptyObligation Fixture.nextRevision 855 0 0 = Ok tt.
Proof.
  repeat split; vm_compute; reflexivity.
Qed.

Lemma lateness_check_witness :
  verifyRevision Fixture.emptyObligation Fixture.nextRevision 856 0 0
  = Err errLateRevision
  /\ verifyRevision Fixture.emptyObligation Fixture.nextRevision 855 0 0
     <> Err errLateRevision.
Proof.
  split.
  - apply (lateness_check Fixture.emptyObligation Fixture.nextRevision 856 0 0);
      reflexivity.
  - intros Hx.
    apply (lateness_check Fixture.emptyObligation Fixture.nextRevision 855 0 0) in Hx;
      [|reflexivity|reflexivity].
    vm_compute in Hx. apply Hx. reflexivity.
Defined.

End RevisionChecksWitnesses.

(** ** One iteration of the revision loop *)

Section Iteration.
Import Host.
Context `{Crypto} `{!Constants} `{!HostDeps}.

Lemma sameLedger_refl (so : storageObligation) : sameLedger so so.
Proof. repeat split. Qed.

Lemma sameLedger_trans (a b c : storageObligation) :
  sameLedger a b -> sameLedger b c -> sameLedger a c.
Proof.
  unfold sameLedger. intros (?&?&?&?&?) (?&?&?&?&?). repeat split; congruence.
Qed.

Lemma applyModification_sameLedger st settings bh m (s s' : loopState) o :
  applyModification st settings bh m s = (o, s') -> sameLedger (fst s) (fst s').
Proof.
  destruct s as [so l].
  unfold applyModification, bind, get, lift, throw, modify, extendErr. simpl.
  intros Hrun.
  repeat (case_match; simplify_eq; simpl in *; try apply sameLedger_refl);
    repeat split.
Qed.

Lemma applyModifications_sameLedger st settings bh ms (s s' : loopState) o :
  applyModifications st settings bh ms s = (o, s') -> sameLedger (fst s) (fst s').
Proof.
  unfold applyModifications. revert s.
  induction ms as [|m ms IH]; intros s; simpl.
  - unfold ret. intros [= _ <-]. apply sameLedger_refl.
  - unfold bind.
    destruct (applyModification st settings bh m s) as [o1 s1] eqn:Hm.
    apply applyModification_sameLedger in Hm.
    destruct o1; intros Hrun; simplify_eq; try exact Hm.
    eapply sameLedger_trans; [exact Hm|]. eapply IH. exact Hrun.
Qed.

Lemma applyModification_error st settings bh m (s : loopState) e :
  fst (applyModification st settings bh m s) = Err e -> modificationError e.
Proof.
  unfold applyModification, bind, get, lift, throw, modify, extendErr, checkIndex.
  unfold modificationError. intros Hx.
  repeat (case_match; simplify_eq; simpl in *; eauto 10;
          try (exfalso; eapply index_no_err; eassumption);
          try (exfalso; eapply copyAt_no_err; eassumption)).
Qed.

Lemma applyModifications_error st settings bh ms (s : loopState) e :
  fst (applyModifications st settings bh ms s) = Err e -> modificationError e.
Proof.
  unfold applyModifications. revert s.
  induction ms as [|m ms IH]; intros s; simpl.
  - discriminate.
  - unfold bind.
    destruct (applyModification st settings bh m s) as [o1 s1] eqn:Hm.
    destruct o1; simpl; intros Hx; simplify_eq.
    + eapply IH. exact Hx.
    + eapply applyModification_error. rewrite Hm. reflexivity.
Qed.

Lemma applyAndVerify_error st settings bh ms revision (s : loopState) e :
  fst (applyAndVerify st settings bh ms revision s) = Err e ->
  modificationError e
  \/ exists s1 ve,
       applyModifications st settings bh ms s = (Ok tt, s1)
       /\ verifyRevision (fst s1) revision bh
            (Currency.Add (storageRevenue (snd s1)) (bandwidthRevenue (snd s1)))
            (newCollateral (snd s1)) = Err ve
       /\ e = Extended "unable to verify revision: " ve.
Proof.
  unfold applyAndVerify, bind, get, lift.
  destruct (applyModifications st settings bh ms s) as [o1 s1] eqn:Hloop.
  destruct o1 as [[]| | |]; simpl; intros Hx; simplify_eq.
  - right. exists s1.
    destruct (verifyRevision _ _ _ _ _) as [|ve| |] eqn:Hv; simpl in Hx; simplify_eq.
    exists ve. auto.
  - left. eapply applyModifications_error. rewrite Hloop. reflexivity.
Qed.

Lemma applyAndVerify_sameLedger st settings bh ms revision (s s' : loopState) o :
  applyAndVerify st settings bh ms revision s = (o, s') -> sameLedger (fst s) (fst s').
Proof.
  unfold applyAndVerify, bind, get, lift.
  destruct (applyModifications st settings bh ms s) as [o1 s1] eqn:Hloop.
  apply applyModifications_sameLedger in Hloop.
  destruct o1; intros Hx; simplify_eq; exact Hloop.
Qed.

(** C2.  An iteration that has read the batch and the revision and in which
    the batch or [verifyRevision] fails with [e]: the host writes a rejection
    carrying [e] and nothing after it, returns [e] under the prefix of the
    phase, and [modifyStorageObligation] is not called: the durable state is
    the one before, and so are the accumulators and the transaction sets of
    the obligation.  [e] is one of the errors of the loop or an error of
    [verifyRevision] under its prefix. *)
Theorem rejected_iteration_keeps_durable_state (h : Host) (r : renter)
    (finalIter : bool) (w : world)
    (modifications : list RevisionAction) (revision : FileContractRevision)
    (e : error) :
  rpcSettings r = Ok tt ->
  readAcceptance r = Ok tt ->
  readModifications r = inr modifications ->
  readRevision r = inr revision ->
  fst (applyAndVerify (durable w) (settings h) (blockHeight h) modifications revision
         (obligation w, locals0)) = Err e ->
  exists w',
    managedRevisionIteration h r finalIter w
    = (Err (Extended "rejected proposed modifications: " e), w')
    /\ cause_of (Extended "rejected proposed modifications: " e) = cause_of e
    /\ trace w' = trace w ++ [EvRPCSettings; EvSetDeadline; EvWriteRejection e]
    /\ (forall ev, ev ∈ [EvRPCSettings; EvSetDeadline; EvWriteRejection e] ->
        is_commit ev = false)
    /\ durable w' = durable w
    /\ sameLedger (obligation w) (obligation w')
    /\ (modificationError e
        \/ exists s1 ve,
             applyModifications (durable w) (settings h) (blockHeight h) modifications
               (obligation w, locals0) = (Ok tt, s1)
             /\ verifyRevision (fst s1) revision (blockHeight h)
                  (Currency.Add (storageRevenue (snd s1)) (bandwidthRevenue (snd s1)))
                  (newCollateral (snd s1)) = Err ve
             /\ e = Extended "unable to verify revision: " ve).
Proof.
  intros Hset Hacc Hmods Hrev Hfail.
  pose proof (applyAndVerify_error _ _ _ _ _ _ _ Hfail) as Hclass.
  destruct (applyAndVerify (durable w) (settings h) (blockHeight h) modifications
              revision (obligation w, locals0)) as [o [so' l']] eqn:Hrun.
  pose proof (applyAndVerify_sameLedger _ _ _ _ _ _ _ _ Hrun) as Hledger.
  simpl in Hfail. subst o.
  unfold managedRevisionIteration.
  unfold readObject, emit, set_obligation.
  unfold bind, modify, lift, get, ret, extendErr.
  rewrite Hset, Hacc, Hmods, Hrev. simpl. rewrite Hrun. simpl.
  eexists. split; [reflexivity|]. simpl.
  split; [reflexivity|].
  split; [rewrite <- !app_assoc; reflexivity|].
  split.
  { intros ev Hev. repeat (apply elem_of_cons in Hev as [->|Hev]; [reflexivity|]).
    apply elem_of_nil in Hev. destruct Hev. }
  split; [reflexivity|]. split; [exact Hledger | exact Hclass].
Qed.

(** C9.  Whatever the iteration ends in, a call of [modifyStorageObligation]
    in its trace has an obligation whose [RevisionTransactionSet] is the
    one-element list of the transaction that [createRevisionSignature]
    returned for the revision read in this iteration; it is the obligation the
    iteration leaves behind [so].  An iteration that returns nil has made this
    call, and the call returned nil. *)
Theorem committed_iteration_revision_set (h : Host) (r : renter)
    (finalIter : bool) (w w' : world) (res : outcome error unit) :
  managedRevisionIteration h r finalIter w = (res, w') ->
  exists evs,
    trace w' = trace w ++ evs
    /\ (forall so removed gained data,
          EvModifyStorageObligation so removed gained data ∈ evs ->
          exists revision renterSig txn,
            readRevision r = inr revision
            /\ readRenterSig r = inr renterSig
            /\ createRevisionSignature revision renterSig (secretKey h) (blockHeight h)
               = Ok txn
            /\ RevisionTransactionSet so = [txn]
            /\ length (RevisionTransactionSet so) = 1%nat
            /\ obligation w' = so
            /\ durable w'
               = snd (modifyStorageObligation (durable w) so removed gained data))
    /\ (res = Ok tt ->
        exists so removed gained data,
          EvModifyStorageObligation so removed gained data ∈ evs
          /\ fst (modifyStorageObligation (durable w) so removed gained data) = None).
Proof.
  unfold managedRevisionIteration.
  unfold readObject, written, emit, set_obligation, set_durable.
  unfold bind, modify, lift, get, ret, extendErr.
  intros Hrun.
  repeat (case_match; simplify_eq; simpl in * );
    (eexists; split; [rewrite <- ?app_assoc; simpl; reflexivity|]);
    (split;
     [ intros so0 rm0 g0 d0 Hin;
       repeat (apply elem_of_cons in Hin as [Hin|Hin]; [try discriminate|]);
       try (apply elem_of_nil in Hin; destruct Hin);
       simplify_eq; eauto 10
     | intros Hres; try discriminate ]).
  all: eexists _, _, _, _; split;
    [do 3 apply list_elem_of_further; apply list_elem_of_here | assumption].
Qed.

End Iteration.

Section IterationWitnesses.
Import Host.
#[local] Existing Instances Fixture.crypto Fixture.constants Fixture.deps.

(** The spec's second scenario: the revision keeps the current revision
    number. *)
Lemma rejected_iteration_witness :
  let e := Extended "unable to verify revision: " errBadRevisionNumber in
  exists w',
    managedRevisionIteration FixtureIteration.host
      (FixtureIteration.renterSending [] Fixture.staleRevision) false
      FixtureIteration.world0
    = (Err (Extended "rejected proposed modifications: " e), w')
    /\ trace w' = [EvRPCSettings; EvSetDeadline; EvWriteRejection e]
    /\ durable w' = Fixture.emptyStore.
Proof.
  intros e.
  destruct (rejected_iteration_keeps_durable_state FixtureIteration.host
              (FixtureIteration.renterSending [] Fixture.staleRevision) false
              FixtureIteration.world0 [] Fixture.staleRevision e)
    as (w' & Hrun & _ & Htrace & _ & Hdurable & _); try reflexivity.
  exists w'. split; [exact Hrun|]. split; [exact Htrace | exact Hdurable].
Defined.

(** The spec's first scenario, paid for and signed: the iteration returns
    nil and the obligation holds one revision transaction. *)
Lemma committed_iteration_witness :
  exists w',
    managedRevisionIteration FixtureIteration.host
      (FixtureIteration.renterSending [Fixture.insertAt 0]
         FixtureIteration.paidRevision) false
      FixtureIteration.world0 = (Ok tt, w')
    /\ length (RevisionTransactionSet (obligation w')) = 1%nat.
Proof.
  assert (Hok : fst (managedRevisionIteration FixtureIteration.host
                       (FixtureIteration.renterSending [Fixture.insertAt 0]
                          FixtureIteration.paidRevision) false
                       FixtureIteration.world0) = Ok tt)
    by (vm_compute; reflexivity).
  destruct (managedRevisionIteration FixtureIteration.host
              (FixtureIteration.renterSending [Fixture.insertAt 0]
                 FixtureIteration.paidRevision) false
              FixtureIteration.world0) as [res w'] eqn:Hrun.
  cbn [fst] in Hok. subst res. exists w'. split; [reflexivity|].
  destruct (committed_iteration_revision_set FixtureIteration.host
              (FixtureIteration.renterSending [Fixture.insertAt 0]
                 FixtureIteration.paidRevision) false
              FixtureIteration.world0 w' (Ok tt) Hrun)
    as (evs & _ & Hcommit & Hdone).
  destruct (Hdone eq_refl) as (so & removed & gained & data & Hin & _).
  destruct (Hcommit _ _ _ _ Hin)
    as (revision & renterSig & txn & _ & _ & _ & _ & Hlen & Hso & _).
  rewrite Hso. exact Hlen.
Defined.

End IterationWitnesses.

(** ** The coin balance of a transaction *)

Section Balance.
Import Consensus.
Context `{Types}.

Lemma fold_Add_total (amounts : list Currency.t) (start : Currency.t) :
  fold_left Currency.Add amounts start = start + total amounts.
Proof.
  revert start. induction amounts as [|a amounts IH]; intros start; simpl.
  - unfold total. simpl. lia.
  - rewrite IH. unfold Currency.Add, total. simpl. lia.
Qed.

Lemma fold_Add_values (outputs : list CoinOutput) (start : Currency.t) :
  fold_left (fun sum co => Currency.Add sum (Value co)) outputs start
  = start + total (Value <$> outputs).
Proof.
  revert start. induction outputs as [|co outputs IH]; intros start.
  - unfold total. simpl. lia.
  - cbn [fold_left]. rewrite IH, fmap_cons. unfold Currency.Add, total.
    cbn [foldr]. lia.
Qed.

Lemma CoinOutputSum_total (tx : Transaction) :
  CoinOutputSum tx = total (MinerFees tx) + total (Value <$> CoinOutputs tx).
Proof.
  unfold CoinOutputSum. rewrite fold_Add_values, fold_Add_total. lia.
Qed.

Lemma collectCoinInputSum_resolved css ctx inputs start cos :
  resolveAll css inputs = Some cos ->
  collectCoinInputSum css ctx inputs start = inr (start + total (Value <$> cos)).
Proof.
  revert start cos. induction inputs as [|ci inputs IH]; intros start cos; simpl.
  - intros [= <-]. unfold total. simpl. f_equal. lia.
  - destruct (UnspentCoinOutputGet css (ParentID ci)) as [co|]; simpl; [|discriminate].
    destruct (resolveAll css inputs) as [cos'|]; simpl; [|discriminate].
    intros [= <-]. rewrite (IH _ cos' eq_refl), fmap_cons.
    unfold Currency.Add, total. cbn [foldr]. f_equal. lia.
Qed.

Lemma collectCoinInputSum_unresolved css ctx inputs start :
  resolveAll css inputs = None ->
  exists ci,
    ci ∈ inputs
    /\ UnspentCoinOutputGet css (ParentID ci) = None
    /\ collectCoinInputSum css ctx inputs start
       = inl (ErrParentNotFound (ParentID ci) (BlockHeight ctx)).
Proof.
  revert start. induction inputs as [|ci inputs IH]; intros start; simpl.
  - discriminate.
  - destruct (UnspentCoinOutputGet css (ParentID ci)) as [co|] eqn:Hget; simpl.
    + destruct (resolveAll css inputs) as [cos'|]; simpl; [discriminate|].
      intros _. destruct (IH (Currency.Add start (Value co)) eq_refl)
        as (ci' & Hin & Hnone & Hrun).
      exists ci'. split; [apply list_elem_of_further, Hin|]. split; assumption.
    + intros _. exists ci. split; [apply list_elem_of_here|]. split; [assumption|reflexivity].
Qed.

(** C5.  [ValidateCoinOutputsAreBalanced] returns nil exactly when every
    input's parent resolves and the resolved values add up to
    [CoinOutputSum], the miner fees plus the coin outputs.  When a parent does
    not resolve the error names that parent and the block height of the
    context; when all resolve and the sums differ the error states on which
    side the inputs are. *)
Theorem coin_outputs_balanced (ID : Transaction -> TransactionID)
    (tx : Transaction) (ctx : TransactionCreationValidationContext)
    (css : ConsensusStateGetter) :
  (ValidateCoinOutputsAreBalanced ID tx ctx css = None
   <-> exists cos,
         resolveAll css (CoinInputs tx) = Some cos
         /\ total (Value <$> cos) = CoinOutputSum tx)
  /\ CoinOutputSum tx = total (MinerFees tx) + total (Value <$> CoinOutputs tx)
  /\ (resolveAll css (CoinInputs tx) = None ->
      exists ci,
        ci ∈ CoinInputs tx
        /\ UnspentCoinOutputGet css (ParentID ci) = None
        /\ ValidateCoinOutputsAreBalanced ID tx ctx css
           = Some (ErrParentNotFound (ParentID ci) (BlockHeight ctx)))
  /\ (forall cos,
        resolveAll css (CoinInputs tx) = Some cos ->
        (total (Value <$> cos) < CoinOutputSum tx ->
         ValidateCoinOutputsAreBalanced ID tx ctx css
         = Some (ErrInputsLessThanOutputs (total (Value <$> cos)) (ID tx)
                   (CoinOutputSum tx)))
        /\ (total (Value <$> cos) > CoinOutputSum tx ->
            ValidateCoinOutputsAreBalanced ID tx ctx css
            = Some (ErrInputsGreaterThanOutputs (total (Value <$> cos)) (ID tx)
                      (CoinOutputSum tx)))).
Proof.
  assert (Hres : forall cos,
             resolveAll css (CoinInputs tx) = Some cos ->
             ValidateCoinOutputsAreBalanced ID tx ctx css
             = if total (Value <$> cos) <? CoinOutputSum tx
               then Some (ErrInputsLessThanOutputs (total (Value <$> cos)) (ID tx)
                            (CoinOutputSum tx))
               else if total (Value <$> cos) >? CoinOutputSum tx
                    then Some (ErrInputsGreaterThanOutputs (total (Value <$> cos))
                                 (ID tx) (CoinOutputSum tx))
                    else None).
  { intros cos Hcos. unfold ValidateCoinOutputsAreBalanced.
    rewrite (collectCoinInputSum_resolved css ctx _ 0 cos Hcos).
    rewrite Z.add_0_l. unfold Currency.Cmp, Z.ltb, Z.gtb.
    destruct (total (Value <$> cos) ?= CoinOutputSum tx); reflexivity. }
  split; [|split; [|split]].
  - split.
    + intros Hnil. destruct (resolveAll css (CoinInputs tx)) as [cos|] eqn:Hcos.
      * exists cos. split; [reflexivity|]. rewrite (Hres cos eq_refl) in Hnil.
        destruct (Z.ltb_spec (total (Value <$> cos)) (CoinOutputSum tx));
          [discriminate|].
        destruct (Z.gtb_spec (total (Value <$> cos)) (CoinOutputSum tx));
          [discriminate|]. lia.
      * destruct (collectCoinInputSum_unresolved css ctx _ 0 Hcos)
          as (ci & _ & _ & Hrun).
        unfold ValidateCoinOutputsAreBalanced in Hnil. rewrite Hrun in Hnil.
        discriminate.
    + intros (cos & Hcos & Hsum). rewrite (Hres cos Hcos), Hsum.
      rewrite Z.ltb_irrefl, Z.gtb_ltb, Z.ltb_irrefl. reflexivity.
  - apply CoinOutputSum_total.
  - intros Hnone.
    destruct (collectCoinInputSum_unresolved css ctx _ 0 Hnone)
      as (ci & Hin & Hget & Hrun).
    exists ci. split; [exact Hin|]. split; [exact Hget|].
    unfold ValidateCoinOutputsAreBalanced. rewrite Hrun. reflexivity.
  - intros cos Hcos. rewrite (Hres cos Hcos). split; intros Hcmp.
    + destruct (Z.ltb_spec (total (Value <$> cos)) (CoinOutputSum tx));
        [reflexivity | lia].
    + destruct (Z.ltb_spec (total (Value <$> cos)) (CoinOutputSum tx)); [lia|].
      destruct (Z.gtb_spec (total (Value <$> cos)) (CoinOutputSum tx));
        [reflexivity | lia].
Qed.

End Balance.

Section BalanceWitnesses.
Import Consensus.
#[local] Existing Instance FixtureConsensus.types.

(** The spec's third scenario passes the validator. *)
Lemma coin_outputs_balanced_witness :
  ValidateCoinOutputsAreBalanced FixtureConsensus.ID FixtureConsensus.balancedTx
    FixtureConsensus.ctx FixtureConsensus.css = None.
Proof.
  apply (coin_outputs_balanced FixtureConsensus.ID FixtureConsensus.balancedTx
           FixtureConsensus.ctx FixtureConsensus.css).
  exists [FixtureConsensus.parentOutput].
  split; reflexivity.
Defined.

End BalanceWitnesses.

(** ** The weight of a host *)

Section HostWeight.
Import HostDB.
Context `{Currency.TaxRate}.

(** C6.  Two entries with the same four prices and collateral 10 and 20: the
    weight of the second is twice the weight of the first whenever the
    siafund fee, which is taken on the adjusted prices plus the collateral, is
    the same for both. *)
Theorem collateral_doubles_weight (e10 e20 : hostEntry) :
  StoragePrice (Settings e10) = StoragePrice (Settings e20) ->
  ContractPrice (Settings e10) = ContractPrice (Settings e20) ->
  UploadBandwidthPrice (Settings e10) = UploadBandwidthPrice (Settings e20) ->
  DownloadBandwidthPrice (Settings e10) = DownloadBandwidthPrice (Settings e20) ->
  Collateral (Settings e10) = 10 ->
  Collateral (Settings e20) = 20 ->
  let adjusted :=
    ContractPrice (Settings e10) / 6048 / 10000000000
    + UploadBandwidthPrice (Settings e10) / 24192
    + DownloadBandwidthPrice (Settings e10) / 12096 in
  Currency.MulTax (adjusted + 10) = Currency.MulTax (adjusted + 20) ->
  calculateHostWeight e20 = 2 * calculateHostWeight e10.
Proof.
  intros Hs Hc Hu Hd H10 H20 adjusted Hfee.
  unfold calculateHostWeight.
  rewrite <- Hs, <- Hc, <- Hu, <- Hd, H10, H20.
  unfold Currency.Add, Currency.Div64, Currency.Mul. fold adjusted.
  rewrite <- Hfee.
  change (Currency.IsZero 10) with false. change (Currency.IsZero 20) with false.
  cbv iota.
  destruct (negb (Currency.IsZero _)); lia.
Qed.

End HostWeight.

Section HostWeightWitnesses.
Import HostDB.
#[local] Existing Instance Currency.SiafundPortion.

(** C6, as it is worded, fails at the siafund portion of 39/1000: with a
    download price that adjusts to 6, the fee on 6 + 10 is 0 and the fee on
    6 + 20 is 1, the total prices are 6 and 7, and the weights are not in the
    ratio 2. *)
Lemma collateral_weight_counterexample :
  let e10 := FixtureHostDB.entryWith 72576 10 1 in
  let e20 := FixtureHostDB.entryWith 72576 20 1 in
  StoragePrice (Settings e10) = StoragePrice (Settings e20)
  /\ ContractPrice (Settings e10) = ContractPrice (Settings e20)
  /\ UploadBandwidthPrice (Settings e10) = UploadBandwidthPrice (Settings e20)
  /\ DownloadBandwidthPrice (Settings e10) = DownloadBandwidthPrice (Settings e20)
  /\ Collateral (Settings e10) = 10
  /\ Collateral (Settings e20) = 20
  /\ Currency.MulTax (6 + 10) = 0
  /\ Currency.MulTax (6 + 20) = 1
  /\ calculateHostWeight e20 <> 2 * calculateHostWeight e10.
Proof.
  repeat split; try reflexivity. vm_compute. discriminate.
Qed.

(** With all four prices zero both fees are zero. *)
Lemma collateral_doubles_weight_witness :
  calculateHostWeight (FixtureHostDB.entryWith 0 20 1)
  = 2 * calculateHostWeight (FixtureHostDB.entryWith 0 10 1).
Proof.
  apply (collateral_doubles_weight (FixtureHostDB.entryWith 0 10 1)
           (FixtureHostDB.entryWith 0 20 1));
    reflexivity.
Defined.

End HostWeightWitnesses.

(** ** The scanner's update of the host database *)

Section Scanner.
Import HostDB.
Context `{Currency.TaxRate}.

Lemma Sub_penalty (reliability : Currency.t) :
  0 < reliability ->
  Currency.Sub reliability UnreachablePenalty = reliability - UnreachablePenalty.
Proof.
  intros Hpos. unfold Currency.Sub, UnreachablePenalty, Currency.NewCurrency64.
  destruct (Z.ltb_spec reliability 1); [lia | reflexivity].
Qed.

(** The database [decrementReliability] leaves for a host on file under the
    address of its entry. *)
Lemma decrementReliability_known (hdb : hostDB) (addr : string) (prior : loc)
    (pe : hostEntry) (penalty : Currency.t) :
  allHosts hdb !! addr = Some prior ->
  heap hdb !! prior = Some pe ->
  NetAddress (Settings pe) = addr ->
  let pe' := set_Reliability_Online (Currency.Sub (Reliability pe) penalty) false pe in
  decrementReliability addr penalty hdb
  = Some {| heap := <[prior := pe']> (heap hdb);
            allHosts := if Currency.IsZero (Reliability pe')
                        then delete addr (allHosts hdb) else allHosts hdb;
            activeHosts := delete addr (activeHosts hdb) |}.
Proof.
  intros Hall Hheap Haddr pe'. subst pe'. unfold decrementReliability.
  rewrite Hall, Hheap. simpl. rewrite Haddr.
  destruct (activeHosts hdb !! addr) eqn:Hact; simpl.
  - destruct (Currency.IsZero (Currency.Sub (Reliability pe) penalty)); reflexivity.
  - rewrite (delete_id _ _ Hact).
    destruct (Currency.IsZero (Currency.Sub (Reliability pe) penalty));
      destruct hdb; reflexivity.
Qed.

Lemma retained_entry_address (hdb : hostDB) (entry : loc) (e : hostEntry)
    (a : string) :
  retained hdb -> heap hdb !! entry = Some e -> allHosts hdb !! a = Some entry ->
  a = NetAddress (Settings e).
Proof.
  intros Hret Hheap Hall. destruct (Hret a entry Hall) as (e' & He' & Haddr & _).
  congruence.
Qed.

(** C10.  A failed probe of an entry whose address is not in [allHosts]
    files the entry under its address and changes nothing else: the heap, and
    with it the reliability of the entry, is as before.  When the address is
    on file, the probe changes nothing if the public keys differ, and
    penalises the entry on file if they are equal. *)
Theorem failed_probe_penalty (entry : loc) (e : hostEntry)
    (newSettings : HostExternalSettings) (msg : string) (hdb : hostDB) :
  heap hdb !! entry = Some e ->
  let addr := NetAddress (Settings e) in
  (allHosts hdb !! addr = None ->
   exists hdb',
     managedUpdateEntry entry newSettings (Some msg) hdb = Some hdb'
     /\ allHosts hdb' = <[addr := entry]> (allHosts hdb)
     /\ heap hdb' = heap hdb
     /\ activeHosts hdb' = activeHosts hdb
     /\ heap hdb' !! entry = Some e)
  /\ (forall prior pe,
        allHosts hdb !! addr = Some prior ->
        heap hdb !! prior = Some pe ->
        (Key (PublicKey pe) <> Key (PublicKey e) ->
         managedUpdateEntry entry newSettings (Some msg) hdb = Some hdb)
        /\ (Key (PublicKey pe) = Key (PublicKey e) ->
            exists hdb',
              managedUpdateEntry entry newSettings (Some msg) hdb = Some hdb'
              /\ heap hdb' !! prior
                 = Some (set_Reliability_Online
                           (Currency.Sub (Reliability pe) UnreachablePenalty)
                           false pe))).
Proof.
  intros Hheap addr. split.
  - intros Hnone. unfold managedUpdateEntry. rewrite Hheap. simpl.
    fold addr. rewrite Hnone. eexists. split; [reflexivity|].
    simpl. repeat split; try reflexivity. exact Hheap.
  - intros prior pe Hall Hprior. unfold managedUpdateEntry.
    rewrite Hheap. simpl. fold addr. rewrite Hall, Hprior. simpl. split.
    + intros Hkey. rewrite bool_decide_eq_false_2 by exact Hkey. reflexivity.
    + intros Hkey. rewrite bool_decide_eq_true_2 by exact Hkey.
      unfold decrementReliability. rewrite Hall, Hprior. simpl.
      eexists. split; [reflexivity|].
      repeat case_match; simpl; apply lookup_insert_eq.
Qed.

Lemma wellKept_penalised (hdb : hostDB) (addr : string) (prior : loc) (pe : hostEntry) :
  wellKept hdb ->
  allHosts hdb !! addr = Some prior ->
  heap hdb !! prior = Some pe ->
  let pe' := set_Reliability_Online (Reliability pe - UnreachablePenalty) false pe in
  wellKept {| heap := <[prior := pe']> (heap hdb);
              allHosts := if Currency.IsZero (Reliability pe')
                          then delete addr (allHosts hdb) else allHosts hdb;
              activeHosts := delete addr (activeHosts hdb) |}.
Proof.
  intros [Hret Hsize] Hall Hpe pe'.
  destruct (Hret addr prior Hall) as (pe0 & Hpe0 & Hpaddr & Hppos).
  assert (pe0 = pe) by congruence. subst pe0.
  assert (Hother : forall a q, a <> addr -> allHosts hdb !! a = Some q ->
            exists e0, <[prior := pe']> (heap hdb) !! q = Some e0
                       /\ NetAddress (Settings e0) = a /\ 0 < Reliability e0).
  { intros a q Hne Hq. destruct (Hret a q Hq) as (e0 & He0 & Ha & Hp).
    exists e0. split; [|auto]. rewrite lookup_insert_ne; [exact He0|].
    intros ->. apply Hne. congruence. }
  split.
  - intros a q. simpl. unfold UnreachablePenalty, Currency.NewCurrency64, Currency.IsZero.
    destruct (Z.eqb_spec (Reliability pe - 1) 0) as [Hz|Hnz].
    + intros Hq. apply lookup_delete_Some in Hq as [Hne Hq].
      apply Hother; auto.
    + intros Hq. destruct (decide (a = addr)) as [->|Hne]; [|apply Hother; auto].
      assert (q = prior) by congruence. subst q.
      exists pe'. split; [apply lookup_insert_eq|]. split; [exact Hpaddr|].
      simpl. unfold UnreachablePenalty, Currency.NewCurrency64. lia.
  - simpl. etransitivity; [|exact Hsize].
    apply map_subseteq_size, delete_subseteq.
Qed.

Lemma wellKept_filed (hdb : hostDB) (entry : loc) (e : hostEntry) :
  wellKept hdb ->
  heap hdb !! entry = Some e ->
  0 < Reliability e ->
  wellKept (set_allHosts (<[NetAddress (Settings e) := entry]> (allHosts hdb)) hdb).
Proof.
  intros [Hret Hsize] Hheap Hpos. split; [|exact Hsize].
  intros a q. simpl. intros Hq.
  apply lookup_insert_Some in Hq as [[<- <-]|[Hne Hq]].
  - exists e. auto.
  - apply Hret, Hq.
Qed.


End Scanner.

Section ScannerWitnesses.
Import HostDB.
#[local] Existing Instance Currency.SiafundPortion.





(** A failed probe of a host that is not on file yet. *)
Lemma failed_probe_penalty_witness :
  exists hdb',
    managedUpdateEntry 1%positive (FixtureHostDB.settingsWith 0 10)
      FixtureHostDB.probeFailed FixtureHostDB.unknownHost = Some hdb'
    /\ allHosts hdb' !! FixtureHostDB.address = Some 1%positive
    /\ heap hdb' !! 1%positive = Some (FixtureHostDB.entryWith 0 10 150).
Proof.
  destruct (failed_probe_penalty 1%positive (FixtureHostDB.entryWith 0 10 150)
              (FixtureHostDB.settingsWith 0 10) "i/o timeout"
              FixtureHostDB.unknownHost eq_refl) as [Hunknown _].
  destruct (Hunknown eq_refl) as (hdb' & Hrun & Hall & _ & _ & Hentry).
  exists hdb'. split; [exact Hrun|]. split; [|exact Hentry].
  rewrite Hall. apply lookup_insert_eq.
Defined.

End ScannerWitnesses.

(** * Further properties *)

(** ** The modification loop, continued *)

Section ModificationEffects.
Import Host.
Context `{Crypto} `{!Constants} `{!HostDeps}.

Lemma index_Ok_lookup {E A} (l : list A) (i : Z) (a : A) :
  index (E := E) l i = Ok a -> 0 <= i < len l /\ l !! Z.to_nat i = Some a.
Proof.
  unfold index, len.
  destruct (Z.ltb_spec i 0); simpl; [discriminate|].
  destruct (Z.leb_spec (Z.of_nat (length l)) i); simpl; [discriminate|].
  destruct (l !! Z.to_nat i) eqn:Hl; [|discriminate].
  intros [= ->]. split; [lia | reflexivity].
Qed.

Lemma index_lookup_Ok {E A} (l : list A) (i : Z) (a : A) :
  0 <= i -> l !! Z.to_nat i = Some a -> index (E := E) l i = Ok a.
Proof.
  intros Hi Hl. unfold index.
  pose proof (lookup_lt_Some _ _ _ Hl) as Hlt.
  destruct (Z.ltb_spec i 0); [lia|].
  destruct (Z.leb_spec (Z.of_nat (length l)) i); [lia|]. simpl.
  rewrite Hl. reflexivity.
Qed.

(** A modification that fails has written nothing. *)
Lemma applyModification_failed st settings bh m (s s' : loopState) e :
  applyModification st settings bh m s = (Err e, s') -> s' = s.
Proof.
  destruct s as [so l].
  unfold applyModification, bind, get, lift, throw, modify, extendErr. simpl.
  intros Hrun.
  repeat (case_match; simplify_eq; simpl in *; try reflexivity).
Qed.

Lemma applyModification_count st settings bh m (s s' : loopState) :
  applyModification st settings bh m s = (Ok tt, s') ->
  len (SectorRoots (fst s')) = len (SectorRoots (fst s)) + sectorDelta m.
Proof.
  destruct s as [so l].
  unfold applyModification, bind, get, lift, throw, modify, extendErr, checkIndex,
    sectorDelta, len.
  simpl. intros Hrun.
  repeat (case_match; simplify_eq; simpl in * );
    repeat match goal with
           | Hi : index _ _ = Ok _ |- _ => apply index_Ok_lookup in Hi as [? ?]
           | Hc : (_ >? _) = false |- _ => rewrite Z.gtb_ltb in Hc; apply Z.ltb_ge in Hc
           | Hc : (_ >=? _) = false |- _ => rewrite Z.geb_leb in Hc; apply Z.leb_gt in Hc
           end;
    unfold len in *;
    rewrite ?length_app; simpl;
    rewrite ?length_insert, ?length_take, ?length_drop; lia.
Qed.

Lemma applyModifications_cons_inv st settings bh m ms (s s' : loopState) o :
  applyModifications st settings bh (m :: ms) s = (o, s') ->
  (exists s1,
      applyModification st settings bh m s = (Ok tt, s1)
      /\ applyModifications st settings bh ms s1 = (o, s'))
  \/ (applyModification st settings bh m s = (o, s') /\ o <> Ok tt).
Proof.
  unfold applyModifications. simpl. unfold bind.
  destruct (applyModification st settings bh m s) as [[[]| | |] s1];
    intros Hrun; simplify_eq; eauto.
Qed.

Lemma applyModifications_nil st settings bh (s : loopState) :
  applyModifications st settings bh [] s = (Ok tt, s).
Proof. reflexivity. Qed.

(** X1.  After a batch that was applied in full, the obligation has as many
    sector roots as before, plus one for every insert and minus one for every
    delete of the batch. *)
Theorem sector_count_after_batch st settings bh
    (ms : list RevisionAction) (s s' : loopState) :
  applyModifications st settings bh ms s = (Ok tt, s') ->
  len (SectorRoots (fst s')) = len (SectorRoots (fst s)) + sumOver sectorDelta ms.
Proof.
  revert s. induction ms as [|m ms IH]; intros s Hrun.
  - rewrite applyModifications_nil in Hrun. simplify_eq. unfold sumOver. simpl. lia.
  - apply applyModifications_cons_inv in Hrun as [(s1 & Hm & Hrest)|[_ Hne]];
      [|congruence].
    rewrite (IH _ Hrest), (applyModification_count _ _ _ _ _ _ Hm).
    unfold sumOver. rewrite fmap_cons. cbn [foldr]. lia.
Qed.

Lemma applyModification_gained st settings bh m (s s' : loopState) o :
  applyModification st settings bh m s = (o, s') ->
  sectorsGained (snd s) = MerkleRoot <$> gainedSectorData (snd s) ->
  sectorsGained (snd s') = MerkleRoot <$> gainedSectorData (snd s').
Proof.
  destruct s as [so l].
  unfold applyModification, bind, get, lift, throw, modify, extendErr. simpl.
  intros Hrun Hinv.
  repeat (case_match; simplify_eq; simpl in *; try assumption);
    rewrite fmap_app, Hinv; reflexivity.
Qed.

(** X2.  Whatever a batch ends in, the roots it lists as gained are, one by
    one, the Merkle roots of the sector data it hands over with them. *)
Theorem gained_roots_match_data st settings bh
    (ms : list RevisionAction) (so so' : storageObligation) (l' : locals) o :
  applyModifications st settings bh ms (so, locals0) = (o, (so', l')) ->
  sectorsGained l' = MerkleRoot <$> gainedSectorData l'
  /\ length (sectorsGained l') = length (gainedSectorData l').
Proof.
  assert (Hgen : forall (s s' : loopState),
             applyModifications st settings bh ms s = (o, s') ->
             sectorsGained (snd s) = MerkleRoot <$> gainedSectorData (snd s) ->
             sectorsGained (snd s') = MerkleRoot <$> gainedSectorData (snd s')).
  { induction ms as [|m ms IH]; intros s s' Hrun Hinv.
    - rewrite applyModifications_nil in Hrun. simplify_eq. exact Hinv.
    - apply applyModifications_cons_inv in Hrun as [(s1 & Hm & Hrest)|[Hm _]].
      + eapply IH; [exact Hrest|]. eapply applyModification_gained; eassumption.
      + eapply applyModification_gained; eassumption. }
  intros Hrun. pose proof (Hgen _ _ Hrun eq_refl) as Hroots. simpl in Hroots.
  split; [exact Hroots|]. rewrite Hroots, length_fmap. reflexivity.
Qed.

Lemma applyModification_upload st settings bh m (s s' : loopState) :
  applyModification st settings bh m s = (Ok tt, s') ->
  bandwidthRevenue (snd s')
  = bandwidthRevenue (snd s) + MinUploadBandwidthPrice settings * uploadBytes m.
Proof.
  destruct s as [so l].
  unfold applyModification, bind, get, lift, throw, modify, extendErr, uploadBytes.
  simpl. intros Hrun.
  repeat (case_match; simplify_eq; simpl in * );
    unfold Currency.Add, Currency.Mul64; lia.
Qed.

(** X3.  A batch that was applied in full is charged upload bandwidth for
    [SectorSize] bytes per insert and for the bytes sent per modify, at
    [MinUploadBandwidthPrice]; a delete is not charged. *)
Theorem batch_upload_revenue st settings bh
    (ms : list RevisionAction) (s s' : loopState) :
  applyModifications st settings bh ms s = (Ok tt, s') ->
  bandwidthRevenue (snd s')
  = bandwidthRevenue (snd s)
    + MinUploadBandwidthPrice settings * sumOver uploadBytes ms.
Proof.
  revert s. induction ms as [|m ms IH]; intros s Hrun.
  - rewrite applyModifications_nil in Hrun. simplify_eq. unfold sumOver. simpl. lia.
  - apply applyModifications_cons_inv in Hrun as [(s1 & Hm & Hrest)|[_ Hne]];
      [|congruence].
    rewrite (IH _ Hrest), (applyModification_upload _ _ _ _ _ _ Hm).
    unfold sumOver. rewrite fmap_cons. cbn [foldr]. lia.
Qed.

Lemma applyModification_accrual st settings bh m (s s' : loopState) o (B : Z) :
  applyModification st settings bh m s = (o, s') ->
  storageRevenue (snd s) = MinStoragePrice settings * B ->
  newCollateral (snd s) = Collateral settings * B ->
  exists B',
    storageRevenue (snd s') = MinStoragePrice settings * B'
    /\ newCollateral (snd s') = Collateral settings * B'
    /\ (Type_ m <> ActionInsert -> B' = B).
Proof.
  destruct s as [so l].
  unfold applyModification, bind, get, lift, throw, modify, extendErr. simpl.
  intros Hrun Hs Hc.
  repeat (case_match; simplify_eq; simpl in * );
    try (exists B; split; [assumption|]; split; [assumption|]; reflexivity).
  eexists (B + U64.sub (proofDeadline so) bh * SectorSize).
  unfold Currency.Add, Currency.Mul, Currency.Mul64, Currency.NewCurrency64.
  rewrite Hs, Hc. split; [lia|]. split; [lia|]. congruence.
Qed.

(** X4.  Whatever a batch ends in, the storage revenue and the collateral it
    has accrued are the two prices times one and the same number of
    block-bytes; a batch without an insert accrues neither. *)
Theorem storage_and_collateral_accrual st settings bh
    (ms : list RevisionAction) (so so' : storageObligation) (l' : locals) o :
  applyModifications st settings bh ms (so, locals0) = (o, (so', l')) ->
  exists blockBytes,
    storageRevenue l' = MinStoragePrice settings * blockBytes
    /\ newCollateral l' = Collateral settings * blockBytes
    /\ (Forall (fun m => Type_ m <> ActionInsert) ms -> blockBytes = 0).
Proof.
  assert (Hgen : forall (s s' : loopState) B,
             applyModifications st settings bh ms s = (o, s') ->
             storageRevenue (snd s) = MinStoragePrice settings * B ->
             newCollateral (snd s) = Collateral settings * B ->
             exists B',
               storageRevenue (snd s') = MinStoragePrice settings * B'
               /\ newCollateral (snd s') = Collateral settings * B'
               /\ (Forall (fun m => Type_ m <> ActionInsert) ms -> B' = B)).
  { induction ms as [|m ms IH]; intros s s' B Hrun Hs Hc.
    - rewrite applyModifications_nil in Hrun. simplify_eq. eauto.
    - apply applyModifications_cons_inv in Hrun as [(s1 & Hm & Hrest)|[Hm _]].
      + destruct (applyModification_accrual _ _ _ _ _ _ _ _ Hm Hs Hc)
          as (B1 & Hs1 & Hc1 & Hsame1).
        destruct (IH _ _ _ Hrest Hs1 Hc1) as (B' & Hs' & Hc' & Hsame').
        exists B'. split; [exact Hs'|]. split; [exact Hc'|].
        intros Hall. apply Forall_cons in Hall as [Hm0 Hall].
        rewrite (Hsame' Hall). apply Hsame1, Hm0.
      + destruct (applyModification_accrual _ _ _ _ _ _ _ _ Hm Hs Hc)
          as (B1 & Hs1 & Hc1 & Hsame1).
        exists B1. split; [exact Hs1|]. split; [exact Hc1|].
        intros Hall. apply Forall_cons in Hall as [Hm0 _]. apply Hsame1, Hm0. }
  intros Hrun. apply (Hgen _ _ 0 Hrun); simpl; lia.
Qed.

(** X5.  A batch that fails has applied the modifications before the failing
    one and nothing of the failing one: the state it leaves is the state after
    that prefix, which is not undone. *)
Theorem failed_batch_keeps_prefix st settings bh
    (ms : list RevisionAction) (s s' : loopState) (e : error) :
  applyModifications st settings bh ms s = (Err e, s') ->
  exists ms1 m ms2,
    ms = ms1 ++ m :: ms2
    /\ applyModifications st settings bh ms1 s = (Ok tt, s')
    /\ applyModification st settings bh m s' = (Err e, s').
Proof.
  revert s. induction ms as [|m ms IH]; intros s Hrun.
  - rewrite applyModifications_nil in Hrun. discriminate.
  - apply applyModifications_cons_inv in Hrun as [(s1 & Hm & Hrest)|[Hm _]].
    + destruct (IH _ Hrest) as (ms1 & m' & ms2 & -> & Hpre & Hfail).
      exists (m :: ms1), m', ms2. split; [reflexivity|]. split; [|exact Hfail].
      unfold applyModifications in *. simpl. unfold bind. rewrite Hm. exact Hpre.
    + pose proof (applyModification_failed _ _ _ _ _ _ _ Hm) as ->.
      exists [], m, ms. split; [reflexivity|]. split; [reflexivity | exact Hm].
Qed.

Lemma set_SectorRoots_same (so : storageObligation) (roots : list Hash) :
  set_SectorRoots (SectorRoots so) (set_SectorRoots roots so) = so.
Proof. destruct so; reflexivity. Qed.

(** X6.  Deleting the sector at an index and then inserting, at the same
    index, a full sector whose Merkle root is the deleted root gives back the
    obligation as it was; the root is listed once as removed and once as
    gained. *)
Theorem delete_insert_restores_roots st settings bh (del ins : RevisionAction)
    (so : storageObligation) (l : locals) (root : Hash) :
  Type_ del = ActionDelete ->
  Type_ ins = ActionInsert ->
  SectorIndex ins = SectorIndex del ->
  0 <= SectorIndex del ->
  SectorRoots so !! Z.to_nat (SectorIndex del) = Some root ->
  len (Data del) <= SectorSize ->
  len (Data ins) = SectorSize ->
  MerkleRoot (Data ins) = root ->
  exists l',
    applyModifications st settings bh [del; ins] (so, l) = (Ok tt, (so, l'))
    /\ sectorsRemoved l' = sectorsRemoved l ++ [root]
    /\ sectorsGained l' = sectorsGained l ++ [root].
Proof.
  intros Hdel Hins Hidx Hpos Hroot Hdlen Hilen Hmerkle.
  pose proof (lookup_lt_Some _ _ _ Hroot) as Hlt.
  set (i := Z.to_nat (SectorIndex del)) in *.
  assert (Hlen' : length (take i (SectorRoots so) ++ drop (S i) (SectorRoots so))
                  = (length (SectorRoots so) - 1)%nat).
  { rewrite length_app, length_take, length_drop. lia. }
  assert (Hc1 : (SectorIndex del >=? len (SectorRoots so)) = false)
    by (rewrite Z.geb_leb; apply Z.leb_gt; unfold len; lia).
  assert (Hc2 : (len (Data del) >? SectorSize) = false)
    by (rewrite Z.gtb_ltb; apply Z.ltb_ge; lia).
  assert (Hc3 : (SectorIndex del
                 >? len (take i (SectorRoots so) ++ drop (S i) (SectorRoots so)))
                = false)
    by (rewrite Z.gtb_ltb; apply Z.ltb_ge; unfold len; lia).
  unfold applyModifications. simpl.
  unfold bind at 1. unfold applyModification at 1.
  unfold bind, get, lift, throw, modify, checkIndex. simpl.
  rewrite Hdel, Hc1, Hc2.
  rewrite (index_lookup_Ok (SectorRoots so) (SectorIndex del) root Hpos Hroot).
  fold i. simpl.
  unfold applyModification, bind, get, lift, throw, modify, checkIndex. simpl.
  rewrite Hins, Hidx, Hilen. fold i. rewrite Hc3.
  rewrite Z.gtb_ltb, Z.ltb_irrefl, Z.eqb_refl. simpl.
  rewrite Hmerkle.
  replace (take i (take i (SectorRoots so) ++ drop (S i) (SectorRoots so)))
    with (take i (SectorRoots so))
    by (rewrite take_app_le by (rewrite length_take; lia);
        rewrite take_take; f_equal; lia).
  replace (drop i (take i (SectorRoots so) ++ drop (S i) (SectorRoots so)))
    with (drop (S i) (SectorRoots so))
    by (rewrite drop_app_length' by (rewrite length_take; lia); reflexivity).
  rewrite (take_drop_middle (SectorRoots so) i root Hroot).
  unfold ret. eexists. split.
  - f_equal. f_equal; try reflexivity. destruct so; reflexivity.
  - split; reflexivity.
Qed.

Lemma offset_check (o n : Z) :
  0 <= SectorSize < 2 ^ 63 -> 0 <= o < U64.modulus -> 0 <= n <= SectorSize ->
  ((o >? SectorSize) || (U64.add o n >? SectorSize)) = true <-> o + n > SectorSize.
Proof.
  intros Hs Ho Hn. unfold U64.modulus in Ho.
  rewrite orb_true_iff, !Z.gtb_ltb, !Z.ltb_lt.
  destruct (Z.le_gt_cases o SectorSize) as [Hle|Hgt].
  - unfold U64.add, U64.wrap, U64.modulus. rewrite Z.mod_small by lia. lia.
  - lia.
Qed.

(** X7.  With a sector size below [2^63], a modification fails with
    [errIllegalOffsetAndLength] exactly when it is a modify at a valid index
    with at most [SectorSize] bytes whose offset plus length, as a plain sum,
    is beyond [SectorSize]: the wrapped sum of the code lets nothing
    through. *)
Theorem modify_offset_bound st settings bh (m : RevisionAction) (s : loopState) :
  0 <= SectorSize < 2 ^ 63 ->
  0 <= Offset m < U64.modulus ->
  fst (applyModification st settings bh m s) = Err errIllegalOffsetAndLength
  <-> Type_ m = ActionModify
      /\ SectorIndex m < len (SectorRoots (fst s))
      /\ len (Data m) <= SectorSize
      /\ Offset m + len (Data m) > SectorSize.
Proof.
  intros Hs Ho.
  assert (Hlen : 0 <= len (Data m)) by (unfold len; lia).
  unfold applyModification, bind, get, lift, throw, modify, extendErr, checkIndex.
  simpl.
  destruct (Type_ m) eqn:Ht; simpl;
    repeat match goal with
           | |- context [?a >=? ?b] => destruct (Z.geb_spec a b); simpl
           | |- context [len (Data m) >? SectorSize] =>
               destruct (Z.gtb_spec (len (Data m)) SectorSize); simpl
           | |- context [SectorIndex m >? ?b] =>
               destruct (Z.gtb_spec (SectorIndex m) b); simpl
           end;
    try (split; [discriminate | intros (? & ? & ? & ?); (discriminate || lia)]).
  - split; [|intros (? & _); discriminate]. intros Hx. exfalso.
    repeat (case_match; simpl in *; try discriminate;
            try (eapply index_no_err; eassumption)).
  - split; [|intros (? & _); discriminate]. intros Hx. exfalso.
    repeat (case_match; simpl in *; try discriminate).
  - destruct ((Offset m >? SectorSize)
              || (U64.add (Offset m) (len (Data m)) >? SectorSize)) eqn:Hcheck;
      simpl.
    + apply offset_check in Hcheck; [|lia..]. split; [intros _|reflexivity].
      repeat split; lia.
    + split; [|intros (_ & _ & _ & Hsum)].
      * intros Hx. exfalso.
        repeat (case_match; simpl in *; try discriminate;
                try (eapply index_no_err; eassumption);
                try (eapply copyAt_no_err; eassumption)).
      * exfalso. apply (proj2 (offset_check (Offset m) (len (Data m)) Hs Ho
                                 ltac:(lia))) in Hsum.
        congruence.
Qed.

(** X8.  A modify at a valid index, of a stored sector of [SectorSize]
    bytes and within its bounds, overwrites the bytes from the offset on with
    the data and leaves the others: the patched sector has the length of the
    stored one, its root replaces the old root at the index, the sector
    count stays, and only upload bandwidth is charged. *)
Theorem modify_patches_sector st settings bh (m : RevisionAction)
    (so : storageObligation) (l : locals) (root : Hash) (sector : list byte) :
  Type_ m = ActionModify ->
  0 <= SectorIndex m ->
  SectorRoots so !! Z.to_nat (SectorIndex m) = Some root ->
  ReadSector st root = inr sector ->
  len sector = SectorSize ->
  SectorSize < U64.modulus ->
  0 <= Offset m ->
  Offset m + len (Data m) <= SectorSize ->
  let o := Z.to_nat (Offset m) in
  let patched := take o sector ++ Data m ++ drop (o + length (Data m)) sector in
  length patched = length sector
  /\ applyModification st settings bh m (so, l)
     = (Ok tt,
        (set_SectorRoots
           (<[Z.to_nat (SectorIndex m) := MerkleRoot patched]> (SectorRoots so)) so,
         {| bandwidthRevenue :=
              bandwidthRevenue l + MinUploadBandwidthPrice settings * len (Data m);
            storageRevenue := storageRevenue l;
            newCollateral := newCollateral l;
            sectorsRemoved := sectorsRemoved l ++ [root];
            sectorsGained := sectorsGained l ++ [MerkleRoot patched];
            gainedSectorData := gainedSectorData l ++ [patched] |})).
Proof.
  intros Ht Hpos Hroot Hread Hsec Hmod Hoff Hsum o patched.
  pose proof (lookup_lt_Some _ _ _ Hroot) as Hlt.
  assert (Hdata : 0 <= len (Data m)) by (unfold len; lia).
  assert (Hfit : (o + length (Data m) <= length sector)%nat)
    by (unfold len in *; subst o; lia).
  split.
  { subst patched. rewrite !length_app, length_take, length_drop. lia. }
  unfold applyModification, bind, get, lift, throw, modify, checkIndex. simpl.
  rewrite Ht.
  destruct (Z.geb_spec (SectorIndex m) (len (SectorRoots so))) as [Hge|_];
    [unfold len in Hge; lia|].
  destruct (Z.gtb_spec (len (Data m)) SectorSize) as [Hgt|_]; [lia|].
  destruct (Z.gtb_spec (Offset m) SectorSize) as [Hgt|_]; [lia|].
  replace (U64.add (Offset m) (len (Data m))) with (Offset m + len (Data m))
    by (unfold U64.add, U64.wrap; rewrite Z.mod_small; [reflexivity|lia]).
  destruct (Z.gtb_spec (Offset m + len (Data m)) SectorSize) as [Hgt|_]; [lia|].
  simpl. rewrite (index_lookup_Ok _ _ root Hpos Hroot), Hread. simpl.
  unfold copyAt.
  destruct (Z.ltb_spec (Offset m) 0) as [?|_]; [lia|].
  destruct (Z.gtb_spec (Offset m) (len sector)) as [?|_]; [lia|].
  simpl. fold o.
  replace (Nat.min (length sector - o) (length (Data m))) with (length (Data m))
    by lia.
  rewrite firstn_all. fold patched.
  unfold Currency.Add, Currency.Mul64. reflexivity.
Qed.

End ModificationEffects.

Section ModificationEffectsWitnesses.
Import Host.
#[local] Existing Instances Fixture.crypto Fixture.constants Fixture.deps.

(** Two inserts and a delete leave one sector. *)
Lemma sector_count_after_batch_witness :
  exists s',
    applyModifications Fixture.emptyStore Fixture.scenarioSettings 1000
      [Fixture.insertAt 0; Fixture.insertAt 1; Fixture.deleteAt 0]
      (Fixture.emptyObligation, locals0) = (Ok tt, s')
    /\ len (SectorRoots (fst s')) = 1.
Proof.
  assert (Hok : fst (applyModifications Fixture.emptyStore Fixture.scenarioSettings
                       1000 [Fixture.insertAt 0; Fixture.insertAt 1; Fixture.deleteAt 0]
                       (Fixture.emptyObligation, locals0)) = Ok tt)
    by (vm_compute; reflexivity).
  destruct (applyModifications Fixture.emptyStore Fixture.scenarioSettings 1000
              [Fixture.insertAt 0; Fixture.insertAt 1; Fixture.deleteAt 0]
              (Fixture.emptyObligation, locals0)) as [o s'] eqn:Hrun.
  cbn [fst] in Hok. subst o. exists s'. split; [reflexivity|].
  rewrite (sector_count_after_batch _ _ _ _ _ _ Hrun). reflexivity.
Defined.

Lemma gained_roots_match_data_witness :
  exists o so' l',
    applyModifications Fixture.emptyStore Fixture.scenarioSettings 1000
      [Fixture.insertAt 0; Fixture.deleteAt 3]
      (Fixture.emptyObligation, locals0) = (o, (so', l'))
    /\ length (sectorsGained l') = length (gainedSectorData l').
Proof.
  destruct (applyModifications Fixture.emptyStore Fixture.scenarioSettings 1000
              [Fixture.insertAt 0; Fixture.deleteAt 3]
              (Fixture.emptyObligation, locals0)) as [o [so' l']] eqn:Hrun.
  exists o, so', l'. split; [reflexivity|].
  apply (gained_roots_match_data _ _ _ _ _ _ _ _ Hrun).
Defined.

(** Two inserted sectors of 4096 bytes at a price of 3. *)
Lemma batch_upload_revenue_witness :
  exists s',
    applyModifications Fixture.emptyStore Fixture.scenarioSettings 1000
      [Fixture.insertAt 0; Fixture.insertAt 1; Fixture.deleteAt 0]
      (Fixture.emptyObligation, locals0) = (Ok tt, s')
    /\ bandwidthRevenue (snd s') = 24576.
Proof.
  assert (Hok : fst (applyModifications Fixture.emptyStore Fixture.scenarioSettings
                       1000 [Fixture.insertAt 0; Fixture.insertAt 1; Fixture.deleteAt 0]
                       (Fixture.emptyObligation, locals0)) = Ok tt)
    by (vm_compute; reflexivity).
  destruct (applyModifications Fixture.emptyStore Fixture.scenarioSettings 1000
              [Fixture.insertAt 0; Fixture.insertAt 1; Fixture.deleteAt 0]
              (Fixture.emptyObligation, locals0)) as [o s'] eqn:Hrun.
  cbn [fst] in Hok. subst o. exists s'. split; [reflexivity|].
  rewrite (batch_upload_revenue _ _ _ _ _ _ Hrun). reflexivity.
Defined.

Lemma storage_and_collateral_accrual_witness :
  exists o so' l',
    applyModifications Fixture.emptyStore Fixture.scenarioSettings 1000
      [Fixture.deleteAt 0] (Fixture.emptyObligation, locals0) = (o, (so', l'))
    /\ storageRevenue l' = 0 /\ newCollateral l' = 0.
Proof.
  destruct (applyModifications Fixture.emptyStore Fixture.scenarioSettings 1000
              [Fixture.deleteAt 0] (Fixture.emptyObligation, locals0))
    as [o [so' l']] eqn:Hrun.
  exists o, so', l'. split; [reflexivity|].
  destruct (storage_and_collateral_accrual _ _ _ _ _ _ _ _ Hrun)
    as (B & Hs & Hc & Hzero).
  rewrite Hs, Hc, Hzero; [split; lia|].
  repeat constructor. discriminate.
Defined.

(** The batch inserts a sector and then deletes at an index out of range:
    the inserted root stays in the state the batch leaves. *)
Lemma failed_batch_keeps_prefix_witness :
  exists s',
    applyModifications Fixture.emptyStore Fixture.scenarioSettings 1000
      [Fixture.insertAt 0; Fixture.deleteAt 3]
      (Fixture.emptyObligation, locals0) = (Err errBadModificationIndex, s')
    /\ applyModifications Fixture.emptyStore Fixture.scenarioSettings 1000
         [Fixture.insertAt 0] (Fixture.emptyObligation, locals0) = (Ok tt, s').
Proof.
  assert (Herr : fst (applyModifications Fixture.emptyStore Fixture.scenarioSettings
                        1000 [Fixture.insertAt 0; Fixture.deleteAt 3]
                        (Fixture.emptyObligation, locals0))
                 = Err errBadModificationIndex)
    by (vm_compute; reflexivity).
  destruct (applyModifications Fixture.emptyStore Fixture.scenarioSettings 1000
              [Fixture.insertAt 0; Fixture.deleteAt 3]
              (Fixture.emptyObligation, locals0)) as [o s'] eqn:Hrun.
  cbn [fst] in Herr. subst o. exists s'. split; [reflexivity|].
  destruct (failed_batch_keeps_prefix _ _ _ _ _ _ _ Hrun)
    as (ms1 & m & ms2 & Hsplit & Hpre & Hfail).
  destruct ms1 as [|m1 ms1].
  - exfalso. simpl in Hsplit. injection Hsplit as <- _.
    rewrite applyModifications_nil in Hpre. injection Hpre as <-.
    vm_compute in Hfail. discriminate.
  - simpl in Hsplit. injection Hsplit as <- Hrest.
    destruct ms1 as [|m2 ms1].
    + exact Hpre.
    + exfalso. simpl in Hrest. injection Hrest as _ Hrest.
      destruct ms1; discriminate.
Defined.

End ModificationEffectsWitnesses.

Section PatchWitnesses.
Import Host.
#[local] Existing Instances Fixture.crypto Fixture.constants FixtureSectors.deps.

Lemma delete_insert_restores_roots_witness :
  exists l',
    applyModifications FixtureSectors.sectorStore Fixture.scenarioSettings 500
      [Fixture.deleteAt 0; Fixture.insertAt 0] (FixtureSectors.oneSector, locals0)
    = (Ok tt, (FixtureSectors.oneSector, l')).
Proof.
  destruct (delete_insert_restores_roots FixtureSectors.sectorStore
              Fixture.scenarioSettings 500 (Fixture.deleteAt 0) (Fixture.insertAt 0)
              FixtureSectors.oneSector locals0 FixtureSectors.zeroRoot)
    as (l' & Hrun & _);
    [reflexivity | reflexivity | reflexivity | vm_compute; discriminate
    | vm_compute; reflexivity | vm_compute; discriminate
    | vm_compute; reflexivity | vm_compute; reflexivity |].
  exists l'. exact Hrun.
Defined.

(** Offset 4000 and 97 bytes end one byte beyond the sector of 4096. *)
Lemma modify_offset_bound_witness :
  fst (applyModification FixtureSectors.sectorStore Fixture.scenarioSettings 500
         (FixtureSectors.modifyAt 0 4000 (replicate 97 Byte.x01))
         (FixtureSectors.oneSector, locals0))
  = Err errIllegalOffsetAndLength.
Proof.
  apply modify_offset_bound; [vm_compute; split; [discriminate|reflexivity]
                             | vm_compute; split; [discriminate|reflexivity] |].
  split; [reflexivity|]. split; [reflexivity|].
  split; vm_compute; [discriminate | reflexivity].
Defined.

(** Two bytes written at offset 10 of the stored sector. *)
Lemma modify_patches_sector_witness :
  exists s',
    applyModification FixtureSectors.sectorStore Fixture.scenarioSettings 500
      (FixtureSectors.modifyAt 0 10 [Byte.x01; Byte.x02])
      (FixtureSectors.oneSector, locals0) = (Ok tt, s')
    /\ bandwidthRevenue (snd s') = 6
    /\ storageRevenue (snd s') = 0.
Proof.
  destruct (modify_patches_sector FixtureSectors.sectorStore Fixture.scenarioSettings
              500 (FixtureSectors.modifyAt 0 10 [Byte.x01; Byte.x02])
              FixtureSectors.oneSector locals0 FixtureSectors.zeroRoot
              Fixture.zeroSector)
    as [_ Hrun];
    [reflexivity | vm_compute; discriminate | vm_compute; reflexivity
    | vm_compute; reflexivity | vm_compute; reflexivity | vm_compute; reflexivity
    | vm_compute; discriminate | vm_compute; discriminate |].
  eexists. split; [exact Hrun|]. split; reflexivity.
Defined.

End PatchWitnesses.

(** ** The checks of a revision, continued *)

Section RevisionAcceptance.
Import Host.
Context `{Crypto} `{!Constants} `{!HostDeps}.

Lemma index_valueAt (outputs : list SiacoinOutput) (i : Z) (o : SiacoinOutput) :
  index (E := error) outputs i = Ok o -> Value o = valueAt outputs (Z.to_nat i).
Proof.
  intros Hi. apply index_Ok_lookup in Hi as [_ Hl].
  unfold valueAt. rewrite Hl. reflexivity.
Qed.

Ltac read_checks :=
  repeat match goal with
         | Hc : (_ || _) = false |- _ => apply orb_false_elim in Hc as [? ?]
         | Hc : negb _ = false |- _ => apply negb_false_iff in Hc
         | Hc : bool_decide _ = true |- _ => apply bool_decide_eq_true in Hc
         | Hc : (_ =? _) = true |- _ => apply Z.eqb_eq in Hc
         | Hc : (_ <=? _) = false |- _ => apply Z.leb_gt in Hc
         | Hc : (_ >=? _) = false |- _ =>
             rewrite Z.geb_leb in Hc; apply Z.leb_gt in Hc
         | Hc : (Currency.Cmp _ _ >? 0) = false |- _ =>
             rewrite Cmp_gt0, Z.gtb_ltb in Hc; apply Z.ltb_ge in Hc
         | Hc : (Currency.Cmp _ _ <? 0) = false |- _ =>
             rewrite Cmp_lt0 in Hc; apply Z.ltb_ge in Hc
         end.

(** What [verifyRevision] has checked when it returns nil. *)
Lemma verifyRevision_Ok_inv (so : storageObligation)
    (revision : FileContractRevision) (bh : Z) (nr nc : Currency.t) :
  verifyRevision so revision bh nr nc = Ok tt ->
  exists lastTxn oldFCR height,
    index (E := error) (RevisionTransactionSet so)
      (len (RevisionTransactionSet so) - 1) = Ok lastTxn
    /\ index (E := error) (FileContractRevisions lastTxn) 0 = Ok oldFCR
    /\ len (NewValidProofOutputs revision) = 2
    /\ len (NewMissedProofOutputs revision) = 3
    /\ bh < U64.sub (expiration so) revisionSubmissionBuffer
    /\ ParentID oldFCR = ParentID revision
    /\ UnlockHash (RevUnlockConditions oldFCR) = UnlockHash (RevUnlockConditions revision)
    /\ NewRevisionNumber oldFCR < NewRevisionNumber revision
    /\ NewFileSize revision = U64.mul (len (SectorRoots so)) SectorSize
    /\ NewWindowStart oldFCR = NewWindowStart revision
    /\ NewWindowEnd oldFCR = NewWindowEnd revision
    /\ NewUnlockHash oldFCR = NewUnlockHash revision
    /\ valueAt (NewValidProofOutputs revision) 0 + nr
       <= valueAt (NewValidProofOutputs oldFCR) 0
    /\ valueAt (NewValidProofOutputs revision) 1
       <= valueAt (NewValidProofOutputs oldFCR) 1 + nr
    /\ valueAt (NewMissedProofOutputs revision) 0 + nr
       <= valueAt (NewMissedProofOutputs oldFCR) 0
    /\ valueAt (NewMissedProofOutputs oldFCR) 1
       <= valueAt (NewMissedProofOutputs revision) 1 + nc
    /\ log2Loop 65 0 = Ok height
    /\ NewFileMerkleRoot revision = CachedTreeRoot height (SectorRoots so)
    /\ 2 <= len (NewValidProofOutputs oldFCR)
    /\ 2 <= len (NewMissedProofOutputs oldFCR).
Proof.
  unfold verifyRevision, obind. intros Hx.
  repeat (case_match; try discriminate).
  unfold Currency.Add in *.
  repeat match goal with
         | Hi : index ?l ?i = Ok ?o |- _ =>
             lazymatch type of o with
             | SiacoinOutput =>
                 pose proof (proj1 (index_Ok_lookup _ _ _ Hi));
                 apply index_valueAt in Hi; simpl Z.to_nat in Hi;
                 rewrite Hi in *; clear Hi
             end
         end.
  read_checks.
  change (Z.to_nat 0) with 0%nat in *. change (Z.to_nat 1) with 1%nat in *.
  match goal with
  | Hl : index (RevisionTransactionSet so) _ = Ok ?t,
    Ho : index (FileContractRevisions ?t) 0 = Ok ?o,
    Hh : log2Loop 65 0 = Ok ?h |- _ => exists t, o, h
  end.
  repeat split; try assumption; try lia.
Qed.

(** X9.  [verifyRevision] accepts a revision exactly when the obligation has
    a latest revision with at least two valid and two missed outputs, the
    height loop ends, and the proposed revision has two valid and three
    missed outputs, comes before the submission deadline, keeps the parent,
    the unlock conditions, the window and the new unlock hash of the latest
    revision, has a greater revision number, declares the size and the Merkle
    root of the sector roots, and meets the four bounds on the outputs: the
    renter's valid output and the renter's missed output are each down by at
    least the new revenue, the host's valid output is at most its old value
    plus the new revenue, and the host's missed output is down by at most the
    new collateral.  The host's valid output is bounded from above only:
    nothing in the check asks that the revenue arrives there. *)
Theorem verifyRevision_accepts_only (so : storageObligation)
    (revision : FileContractRevision) (bh : Z) (nr nc : Currency.t) :
  verifyRevision so revision bh nr nc = Ok tt
  <-> exists lastTxn oldFCR height,
    index (E := error) (RevisionTransactionSet so)
      (len (RevisionTransactionSet so) - 1) = Ok lastTxn
    /\ index (E := error) (FileContractRevisions lastTxn) 0 = Ok oldFCR
    /\ len (NewValidProofOutputs revision) = 2
    /\ len (NewMissedProofOutputs revision) = 3
    /\ bh < U64.sub (expiration so) revisionSubmissionBuffer
    /\ ParentID oldFCR = ParentID revision
    /\ UnlockHash (RevUnlockConditions oldFCR) = UnlockHash (RevUnlockConditions revision)
    /\ NewRevisionNumber oldFCR < NewRevisionNumber revision
    /\ NewFileSize revision = U64.mul (len (SectorRoots so)) SectorSize
    /\ NewWindowStart oldFCR = NewWindowStart revision
    /\ NewWindowEnd oldFCR = NewWindowEnd revision
    /\ NewUnlockHash oldFCR = NewUnlockHash revision
    /\ valueAt (NewValidProofOutputs revision) 0 + nr
       <= valueAt (NewValidProofOutputs oldFCR) 0
    /\ valueAt (NewValidProofOutputs revision) 1
       <= valueAt (NewValidProofOutputs oldFCR) 1 + nr
    /\ valueAt (NewMissedProofOutputs revision) 0 + nr
       <= valueAt (NewMissedProofOutputs oldFCR) 0
    /\ valueAt (NewMissedProofOutputs oldFCR) 1
       <= valueAt (NewMissedProofOutputs revision) 1 + nc
    /\ log2Loop 65 0 = Ok height
    /\ NewFileMerkleRoot revision = CachedTreeRoot height (SectorRoots so)
    /\ 2 <= len (NewValidProofOutputs oldFCR)
    /\ 2 <= len (NewMissedProofOutputs oldFCR).
Proof.
  split; [apply verifyRevision_Ok_inv|].
  intros (lastTxn & oldFCR & height & Hlast & Hold & Hv & Hm & Hlate & Hparent
          & Hunlock & Hnum & Hsize & Hws & Hwe & Huh & Hrv & Hhv & Hrm & Hhm
          & Hheight & Hroot & Hov & Hom).
  unfold len in Hv, Hm, Hov, Hom.
  destruct (index_value (NewValidProofOutputs revision) 0) as (nv0 & Hnv0 & Env0);
    [lia|].
  destruct (index_value (NewValidProofOutputs revision) 1) as (nv1 & Hnv1 & Env1);
    [lia|].
  destruct (index_value (NewValidProofOutputs oldFCR) 0) as (ov0 & Hov0 & Eov0);
    [lia|].
  destruct (index_value (NewValidProofOutputs oldFCR) 1) as (ov1 & Hov1 & Eov1);
    [lia|].
  destruct (index_value (NewMissedProofOutputs revision) 0) as (nm0 & Hnm0 & Enm0);
    [lia|].
  destruct (index_value (NewMissedProofOutputs revision) 1) as (nm1 & Hnm1 & Enm1);
    [lia|].
  destruct (index_value (NewMissedProofOutputs oldFCR) 0) as (om0 & Hom0 & Eom0);
    [lia|].
  destruct (index_value (NewMissedProofOutputs oldFCR) 1) as (om1 & Hom1 & Eom1);
    [lia|].
  change (Z.of_nat 0) with 0 in *. change (Z.of_nat 1) with 1 in *.
  unfold verifyRevision. unfold len at 1 2.
  rewrite Hv, Hm. cbn [Z.of_nat Pos.of_succ_nat Pos.succ Z.eqb Pos.eqb negb orb].
  rewrite (proj2 (Z.leb_gt _ _) Hlate), Hlast. cbn [obind].
  rewrite Hold. cbn [obind].
  rewrite !bool_decide_eq_true_2 by assumption. cbn [negb].
  rewrite Z.geb_leb, (proj2 (Z.leb_gt _ _) Hnum).
  rewrite (proj2 (Z.eqb_eq _ _) Hsize), (proj2 (Z.eqb_eq _ _) Hws),
    (proj2 (Z.eqb_eq _ _) Hwe). cbn [negb].
  rewrite Hnv0, Hov0. cbn [obind].
  rewrite Cmp_gt0, Z.gtb_ltb, (proj2 (Z.ltb_ge _ _));
    [|unfold Currency.Add; rewrite Env0, Eov0; exact Hrv].
  rewrite Hov1, Hnv1. cbn [obind].
  rewrite Cmp_lt0, (proj2 (Z.ltb_ge _ _));
    [|unfold Currency.Add; rewrite Env1, Eov1; exact Hhv].
  rewrite Hnm0, Hom0. cbn [obind].
  rewrite Cmp_gt0, Z.gtb_ltb, (proj2 (Z.ltb_ge _ _));
    [|unfold Currency.Add; rewrite Enm0, Eom0; exact Hrm].
  rewrite Hnm1, Hom1. cbn [obind].
  rewrite Cmp_lt0, (proj2 (Z.ltb_ge _ _));
    [|unfold Currency.Add; rewrite Enm1, Eom1; exact Hhm].
  rewrite Hheight. cbn [obind].
  rewrite bool_decide_eq_true_2 by exact Hroot. reflexivity.
Qed.

Lemma index_Panic_inv {E A} (l : list A) (i : Z) :
  index (E := E) l i = Panic -> i < 0 \/ len l <= i.
Proof.
  unfold index, len.
  destruct (Z.ltb_spec i 0); [auto|].
  destruct (Z.leb_spec (Z.of_nat (length l)) i); [auto|]. simpl.
  destruct (l !! Z.to_nat i) eqn:Hl; [discriminate|].
  apply lookup_ge_None in Hl. lia.
Qed.

Lemma index_no_diverge {E A} (l : list A) (i : Z) : index (E := E) l i <> Diverge.
Proof. unfold index. repeat case_match; discriminate. Qed.

(** X10.  [verifyRevision] returns, nil or an error, whenever the obligation
    has a latest revision with at least two valid and two missed outputs and a
    sector has at most [2^63] segments.  On an obligation without a revision
    transaction it panics as soon as the output counts and the height
    pass. *)
Theorem verifyRevision_returns (so : storageObligation)
    (revision : FileContractRevision) (bh : Z) (nr nc : Currency.t) :
  (forall lastTxn oldFCR,
      index (E := error) (RevisionTransactionSet so)
        (len (RevisionTransactionSet so) - 1) = Ok lastTxn ->
      index (E := error) (FileContractRevisions lastTxn) 0 = Ok oldFCR ->
      (2 <= length (NewValidProofOutputs oldFCR))%nat ->
      (2 <= length (NewMissedProofOutputs oldFCR))%nat ->
      SectorSize / SegmentSize <= 2 ^ 63 ->
      verifyRevision so revision bh nr nc = Ok tt
      \/ exists e, verifyRevision so revision bh nr nc = Err e)
  /\ (RevisionTransactionSet so = [] ->
      len (NewValidProofOutputs revision) = 2 ->
      len (NewMissedProofOutputs revision) = 3 ->
      bh < U64.sub (expiration so) revisionSubmissionBuffer ->
      verifyRevision so revision bh nr nc = Panic).
Proof.
  split.
  - intros lastTxn oldFCR Hlast Hold Hvalid Hmissed Hsegments.
    pose proof (log2Loop_height Hsegments) as Hlog.
    destruct (verifyRevision so revision bh nr nc) as [[]|e| |] eqn:Hx;
      [left; reflexivity | right; eauto | exfalso | exfalso];
      unfold verifyRevision, obind in Hx; rewrite Hlog in Hx;
      repeat (case_match; try discriminate; try congruence);
      read_checks;
      repeat match goal with
             | Hi : index _ _ = Diverge |- _ => apply index_no_diverge in Hi; destruct Hi
             | Hi : index _ _ = Panic |- _ => apply index_Panic_inv in Hi
             end;
      simplify_eq;
      repeat match goal with
             | Ha : ?t = Ok ?a, Hb : ?t = Ok oldFCR |- _ =>
                 assert (a = oldFCR) by congruence; subst a; clear Ha
             end;
      unfold len in *; lia.
  - intros Hempty Hv Hm Hlate. unfold verifyRevision.
    rewrite Hv, Hm, Hempty. simpl.
    destruct (Z.leb_spec (U64.sub (expiration so) revisionSubmissionBuffer) bh);
      [lia | reflexivity].
Qed.

End RevisionAcceptance.

(** ** One iteration of the revision loop, continued *)

Section IterationEffects.
Import Host.
Context `{Crypto} `{!Constants} `{!HostDeps}.


Ltac unfold_iteration :=
  unfold managedRevisionIteration;
  unfold readObject, written, emit, set_obligation, set_durable;
  unfold bind, modify, lift, get, ret, extendErr.

(** X11.  The host writes its signature only at the end of an iteration that
    has committed: when the trace of an iteration holds the host's signature,
    the trace is the settings, the deadline, the acceptance, the call of
    [modifyStorageObligation], which returned nil, the stop or acceptance
    signal, and the signature, in this order. *)
Theorem signature_only_after_commit (h : Host) (r : renter)
    (finalIter : bool) (w w' : world) (res : outcome error unit) :
  managedRevisionIteration h r finalIter w = (res, w') ->
  exists evs,
    trace w' = trace w ++ evs
    /\ forall sig,
         EvWriteSignature sig ∈ evs ->
         exists so removed gained data,
           evs = [EvRPCSettings; EvSetDeadline; EvWriteAcceptance;
                  EvModifyStorageObligation so removed gained data;
                  if finalIter then EvWriteStop else EvWriteAcceptance;
                  EvWriteSignature sig]
           /\ modifyStorageObligation (durable w) so removed gained data
              = (None, durable w')
           /\ obligation w' = so.
Proof.
  unfold_iteration. intros Hrun.
  repeat (case_match; simplify_eq; simpl in * );
    (eexists; split; [rewrite <- ?app_assoc; simpl; reflexivity|]);
    intros sig0 Hin;
    repeat (apply elem_of_cons in Hin as [Hin|Hin]; [try discriminate|]);
    try (apply elem_of_nil in Hin; destruct Hin);
    simplify_eq;
    eexists _, _, _, _; (split; [reflexivity|]); (split; [|reflexivity]);
    (apply injective_projections; simpl; [assumption | reflexivity]).
Qed.

(** X12.  The durable state changes through [modifyStorageObligation] only:
    an iteration whose trace holds no call of it leaves the durable state,
    the accumulators and the transaction sets of the obligation as they
    were.  No iteration makes the call twice. *)
Theorem durable_only_through_commit (h : Host) (r : renter)
    (finalIter : bool) (w w' : world) (res : outcome error unit) :
  managedRevisionIteration h r finalIter w = (res, w') ->
  exists evs,
    trace w' = trace w ++ evs
    /\ (length (filter (fun ev => is_commit ev = true) evs) <= 1)%nat
    /\ (Forall (fun ev => is_commit ev = false) evs ->
        durable w' = durable w /\ sameLedger (obligation w) (obligation w')).
Proof.
  unfold_iteration. intros Hrun.
  repeat (case_match; simplify_eq; simpl in * );
    (eexists; split; [rewrite <- ?app_assoc; simpl; reflexivity|]);
    (split; [simpl; lia|]);
    intros Hnone;
    repeat (apply Forall_cons in Hnone as [? Hnone]);
    try discriminate;
    (split; [reflexivity|]);
    try apply sameLedger_refl;
    match goal with
    | |- sameLedger _ (fst (snd ?closure)) =>
        destruct closure as [o1 s1] eqn:Hclosure;
        apply applyAndVerify_sameLedger in Hclosure; exact Hclosure
    end.
Qed.


End IterationEffects.

Section RevisionAcceptanceWitnesses.
Import Host.
#[local] Existing Instances Fixture.crypto Fixture.constants Fixture.deps.

(** Revision 6 of the fixture that takes the host's valid output from 1000
    to nothing is accepted at height 855. *)
Lemma verifyRevision_accepts_only_witness :
  verifyRevision Fixture.emptyObligation Fixture.hostLosesRevision 855 0 0 = Ok tt
  /\ valueAt (NewValidProofOutputs Fixture.oldRevision) 1 = 1000
  /\ valueAt (NewValidProofOutputs Fixture.hostLosesRevision) 1 = 0.
Proof.
  split; [|split; reflexivity].
  apply (proj2 (verifyRevision_accepts_only Fixture.emptyObligation
                  Fixture.hostLosesRevision 855 0 0)).
  exists Fixture.lastTransaction, Fixture.oldRevision, 6.
  repeat split;
    first [reflexivity | vm_compute; reflexivity | vm_compute; discriminate].
Defined.

Lemma verifyRevision_returns_witness :
  verifyRevision Fixture.emptyObligation Fixture.staleRevision 500 0 0 = Ok tt
  \/ exists e,
       verifyRevision Fixture.emptyObligation Fixture.staleRevision 500 0 0 = Err e.
Proof.
  apply (proj1 (verifyRevision_returns Fixture.emptyObligation Fixture.staleRevision
                  500 0 0) Fixture.lastTransaction Fixture.oldRevision);
    [reflexivity | reflexivity | simpl; lia | simpl; lia | vm_compute; discriminate].
Defined.

End RevisionAcceptanceWitnesses.

Section IterationEffectsWitnesses.
Import Host.
#[local] Existing Instances Fixture.crypto Fixture.constants Fixture.deps.

Lemma paid_iteration_runs :
  fst (managedRevisionIteration FixtureIteration.host
         (FixtureIteration.renterSending [Fixture.insertAt 0]
            FixtureIteration.paidRevision) true
         FixtureIteration.world0) = Ok tt.
Proof. vm_compute. reflexivity. Qed.

(** The paid insert of the fixture, as the final iteration: the signature is
    in the trace, after the commit and the stop signal. *)
Lemma signature_only_after_commit_witness :
  exists w' so removed gained data sig,
    managedRevisionIteration FixtureIteration.host
      (FixtureIteration.renterSending [Fixture.insertAt 0]
         FixtureIteration.paidRevision) true
      FixtureIteration.world0 = (Ok tt, w')
    /\ trace w' = [EvRPCSettings; EvSetDeadline; EvWriteAcceptance;
                   EvModifyStorageObligation so removed gained data;
                   EvWriteStop; EvWriteSignature sig].
Proof.
  pose proof paid_iteration_runs as Hok.
  destruct (managedRevisionIteration FixtureIteration.host
              (FixtureIteration.renterSending [Fixture.insertAt 0]
                 FixtureIteration.paidRevision) true
              FixtureIteration.world0) as [res w'] eqn:Hrun.
  cbn [fst] in Hok. subst res.
  destruct (signature_only_after_commit FixtureIteration.host
              (FixtureIteration.renterSending [Fixture.insertAt 0]
                 FixtureIteration.paidRevision) true
              FixtureIteration.world0 w' (Ok tt) Hrun) as (evs & Htrace & Hsig).
  assert (Hin : EvWriteSignature
                  {| SigParentID := 11; PublicKeyIndex := 1; Signature := [] |}
                ∈ evs).
  { assert (Hlast : last (trace w')
                    = Some (EvWriteSignature
                              {| SigParentID := 11; PublicKeyIndex := 1;
                                 Signature := [] |})).
    { change w' with (snd (Ok tt : outcome error unit, w')). rewrite <- Hrun.
      vm_compute. reflexivity. }
    rewrite Htrace in Hlast. simpl in Hlast.
    destruct evs as [|ev evs] using rev_ind; [discriminate|].
    rewrite last_snoc in Hlast. injection Hlast as ->.
    apply elem_of_app. right. apply list_elem_of_here. }
  destruct (Hsig _ Hin) as (so & removed & gained & data & Hevs & _).
  exists w', so, removed, gained, data.
  eexists. split; [reflexivity|].
  rewrite Htrace, Hevs. reflexivity.
Defined.

(** The stale revision of the fixture is rejected without a commit. *)
Lemma durable_only_through_commit_witness :
  exists res w',
    managedRevisionIteration FixtureIteration.host
      (FixtureIteration.renterSending [] Fixture.staleRevision) false
      FixtureIteration.world0 = (res, w')
    /\ durable w' = Fixture.emptyStore.
Proof.
  destruct (managedRevisionIteration FixtureIteration.host
              (FixtureIteration.renterSending [] Fixture.staleRevision) false
              FixtureIteration.world0) as [res w'] eqn:Hrun.
  exists res, w'. split; [reflexivity|].
  destruct (durable_only_through_commit FixtureIteration.host
              (FixtureIteration.renterSending [] Fixture.staleRevision) false
              FixtureIteration.world0 w' res Hrun) as (evs & Htrace & _ & Hkeep).
  apply Hkeep.
  assert (Hevs : trace w'
                 = [EvRPCSettings; EvSetDeadline;
                    EvWriteRejection
                      (Extended "unable to verify revision: " errBadRevisionNumber)]).
  { change w' with (snd (res, w')). rewrite <- Hrun. vm_compute. reflexivity. }
  rewrite Htrace in Hevs. simpl in Hevs. subst evs.
  repeat constructor.
Defined.


End IterationEffectsWitnesses.

(** ** The scanner's update of the host database, continued *)

Section ScannerEffects.
Import HostDB.
Context `{Currency.TaxRate}.

(** The database a successful probe leaves. *)
Lemma managedUpdateEntry_succeeded (entry : loc) (e : hostEntry)
    (newSettings : HostExternalSettings) (hdb : hostDB) :
  heap hdb !! entry = Some e ->
  let addr := NetAddress (Settings e) in
  managedUpdateEntry entry newSettings None hdb
  = Some {| heap := <[entry := probed e newSettings]> (heap hdb);
            allHosts := match allHosts hdb !! addr with
                        | Some _ => allHosts hdb
                        | None => <[addr := entry]> (allHosts hdb)
                        end;
            activeHosts :=
              if bool_decide (size (delete addr (activeHosts hdb)) < maxActiveHosts)%nat
              then <[addr := entry]> (delete addr (activeHosts hdb))
              else delete addr (activeHosts hdb) |}.
Proof.
  intros Hheap addr. unfold managedUpdateEntry. rewrite Hheap.
  destruct hdb as [hp all act]. simpl in *. fold addr.
  assert (Hdead : bool_decide (is_Some (@None loc)) = false).
  { apply bool_decide_eq_false_2. intros [? ?]. discriminate. }
  destruct (all !! addr) as [prior|] eqn:Hall;
    destruct (act !! addr) as [node|] eqn:Ha; simpl.
  all: rewrite ?(delete_id _ _ Ha).
  all: repeat first [ rewrite Ha | rewrite lookup_delete_eq | rewrite Hdead
                    | progress simpl ].
  all: match goal with
       | |- context [bool_decide (?n < maxActiveHosts)%nat] =>
           destruct (bool_decide (n < maxActiveHosts)%nat)
       end; simpl.
  all: unfold insertNode; simpl; rewrite ?lookup_insert_eq; simpl.
  all: reflexivity.
Qed.

(** The database a failed probe leaves. *)
Lemma managedUpdateEntry_failed (entry : loc) (e : hostEntry)
    (newSettings : HostExternalSettings) (msg : string) (hdb : hostDB) :
  heap hdb !! entry = Some e ->
  let addr := NetAddress (Settings e) in
  managedUpdateEntry entry newSettings (Some msg) hdb
  = match allHosts hdb !! addr with
    | None => Some (set_allHosts (<[addr := entry]> (allHosts hdb)) hdb)
    | Some prior =>
        pe ← heap hdb !! prior;
        if bool_decide (Key (PublicKey pe) = Key (PublicKey e))
        then decrementReliability addr UnreachablePenalty hdb
        else Some hdb
    end.
Proof.
  intros Hheap addr. unfold managedUpdateEntry. rewrite Hheap. simpl. fold addr.
  destruct (allHosts hdb !! addr); reflexivity.
Qed.


(** The heap one update leaves: every entry is still allocated, under its
    address and with its public key, and its reliability is down by one at
    most unless it is [MaxReliability]. *)
Lemma managedUpdateEntry_identity (entry : loc) (newSettings : HostExternalSettings)
    (netErr : option string) (hdb hdb' : hostDB) :
  managedUpdateEntry entry newSettings netErr hdb = Some hdb' ->
  forall q x,
    heap hdb !! q = Some x ->
    exists x',
      heap hdb' !! q = Some x'
      /\ NetAddress (Settings x') = NetAddress (Settings x)
      /\ PublicKey x' = PublicKey x
      /\ (Reliability x - 1 <= Reliability x' \/ Reliability x' = MaxReliability).
Proof.
  intros Hrun q x Hq.
  assert (Hsame : exists x',
            heap hdb !! q = Some x'
            /\ NetAddress (Settings x') = NetAddress (Settings x)
            /\ PublicKey x' = PublicKey x
            /\ (Reliability x - 1 <= Reliability x' \/ Reliability x' = MaxReliability))
    by (exists x; repeat split; [assumption | left; lia]).
  destruct (heap hdb !! entry) as [e|] eqn:Hheap;
    [|unfold managedUpdateEntry in Hrun; rewrite Hheap in Hrun; discriminate].
  destruct netErr as [msg|].
  - rewrite (managedUpdateEntry_failed _ _ _ _ _ Hheap) in Hrun.
    destruct (allHosts hdb !! NetAddress (Settings e)) as [prior|] eqn:Hall.
    + destruct (heap hdb !! prior) as [pe|] eqn:Hprior; [|discriminate].
      simpl in Hrun. case_bool_decide.
      * unfold decrementReliability in Hrun. rewrite Hall, Hprior in Hrun.
        simpl in Hrun.
        assert (Hheap' : heap hdb'
                  = <[prior := set_Reliability_Online
                                 (Currency.Sub (Reliability pe) UnreachablePenalty)
                                 false pe]> (heap hdb))
          by (repeat case_match; simplify_eq; reflexivity).
        rewrite Hheap'. destruct (decide (q = prior)) as [->|Hne].
        -- rewrite lookup_insert_eq. eexists. split; [reflexivity|].
           assert (x = pe) by congruence. subst x.
           split; [reflexivity|]. split; [reflexivity|]. left. simpl.
           unfold Currency.Sub, UnreachablePenalty, Currency.NewCurrency64.
           destruct (Reliability pe <? 1); lia.
        -- rewrite lookup_insert_ne by congruence. exact Hsame.
      * simplify_eq. exact Hsame.
    + simplify_eq. exact Hsame.
  - rewrite (managedUpdateEntry_succeeded _ _ _ _ Hheap) in Hrun.
    simplify_eq. simpl. destruct (decide (q = entry)) as [->|Hne].
    + rewrite lookup_insert_eq. eexists. split; [reflexivity|].
      assert (x = e) by congruence. subst x.
      split; [reflexivity|]. split; [reflexivity|]. right. reflexivity.
    + rewrite lookup_insert_ne by congruence. exact Hsame.
Qed.

(** X14.  Whatever the probes of a round answer, the scanner never frees an
    entry and never changes the address or the public key of one: when
    [threadedProbeHosts] returns, every entry of the heap is still there,
    under its old address and with its old key. *)
Theorem scanner_keeps_identity
    (probes : list (loc * HostExternalSettings * option string))
    (hdb hdb' : hostDB) :
  threadedProbeHosts probes hdb = Some hdb' ->
  forall q x,
    heap hdb !! q = Some x ->
    exists x',
      heap hdb' !! q = Some x'
      /\ NetAddress (Settings x') = NetAddress (Settings x)
      /\ PublicKey x' = PublicKey x.
Proof.
  revert hdb. induction probes as [|[[entry settings] err] rest IH];
    intros hdb Hrun q x Hq.
  - simpl in Hrun. simplify_eq. exists x. auto.
  - simpl in Hrun.
    destruct (managedUpdateEntry entry settings err hdb) as [hdb1|] eqn:Hstep;
      [|discriminate].
    simpl in Hrun.
    destruct (managedUpdateEntry_identity _ _ _ _ _ Hstep q x Hq)
      as (x1 & Hx1 & Haddr1 & Hkey1 & _).
    destruct (IH hdb1 Hrun q x1 Hx1) as (x' & Hx' & Haddr & Hkey).
    exists x'. split; [exact Hx'|]. split; congruence.
Qed.

(** X15.  An update is local.  On a database whose entries are filed under
    their own addresses, [managedUpdateEntry] leaves both maps as they are at
    every address but the one of the probed entry, and leaves the heap as it is
    at every location but the probed entry and the entry on file under that
    address.  Nothing is asked of the reliabilities. *)
Theorem managedUpdateEntry_frame (entry : loc) (e : hostEntry)
    (newSettings : HostExternalSettings) (netErr : option string)
    (hdb hdb' : hostDB) :
  (forall a q x,
     allHosts hdb !! a = Some q -> heap hdb !! q = Some x ->
     NetAddress (Settings x) = a) ->
  heap hdb !! entry = Some e ->
  managedUpdateEntry entry newSettings netErr hdb = Some hdb' ->
  let addr := NetAddress (Settings e) in
  (forall a, a <> addr ->
     allHosts hdb' !! a = allHosts hdb !! a
     /\ activeHosts hdb' !! a = activeHosts hdb !! a)
  /\ (forall q, q <> entry -> allHosts hdb !! addr <> Some q ->
       heap hdb' !! q = heap hdb !! q).
Proof.
  intros Hfiled Hheap Hrun addr. destruct netErr as [msg|].
  - rewrite (managedUpdateEntry_failed _ _ _ _ _ Hheap) in Hrun. fold addr in Hrun.
    destruct (allHosts hdb !! addr) as [prior|] eqn:Hall.
    + destruct (heap hdb !! prior) as [pe|] eqn:Hpe; [|discriminate].
      pose proof (Hfiled addr prior pe Hall Hpe) as Hpaddr.
      simpl in Hrun. case_bool_decide.
      * rewrite (decrementReliability_known hdb addr prior pe _ Hall Hpe Hpaddr)
          in Hrun.
        simplify_eq. simpl. split.
        -- intros a Hne. split.
           ++ case_match; [rewrite lookup_delete_ne by congruence|]; reflexivity.
           ++ rewrite lookup_delete_ne by congruence. reflexivity.
        -- intros q _ Hq. rewrite lookup_insert_ne by congruence. reflexivity.
      * simplify_eq. split; auto.
    + simplify_eq. simpl. split; [|auto].
      intros a Hne. rewrite lookup_insert_ne by congruence. auto.
  - rewrite (managedUpdateEntry_succeeded _ _ _ _ Hheap) in Hrun. fold addr in Hrun.
    simplify_eq. simpl. split.
    + intros a Hne. split.
      * case_match; [reflexivity|]. rewrite lookup_insert_ne by congruence.
        reflexivity.
      * case_bool_decide.
        -- rewrite lookup_insert_ne, lookup_delete_ne by congruence. reflexivity.
        -- rewrite lookup_delete_ne by congruence. reflexivity.
    + intros q Hne _. rewrite lookup_insert_ne by congruence. reflexivity.
Qed.

(** X16.  A successful probe of an entry on the heap always returns.  Behind
    the pointer it leaves the new settings under the old address, the old
    public key, [MaxReliability], online, and a weight that is the weight of
    the entry as stored.  The
    address is on file in [allHosts] afterwards, under the pointer that was
    there before if there was one.  The entry is in [activeHosts] afterwards
    exactly when the other addresses leave room, that is, when [activeHosts]
    without this address has fewer than [maxActiveHosts] entries: the test for
    the address being active already, at line 125, never decides anything. *)
Theorem successful_probe (entry : loc) (e : hostEntry)
    (newSettings : HostExternalSettings) (hdb : hostDB) :
  heap hdb !! entry = Some e ->
  let addr := NetAddress (Settings e) in
  exists hdb' e',
    managedUpdateEntry entry newSettings None hdb = Some hdb'
    /\ heap hdb' !! entry = Some e'
    /\ NetAddress (Settings e') = addr
    /\ Collateral (Settings e') = Collateral newSettings
    /\ ContractPrice (Settings e') = ContractPrice newSettings
    /\ DownloadBandwidthPrice (Settings e') = DownloadBandwidthPrice newSettings
    /\ StoragePrice (Settings e') = StoragePrice newSettings
    /\ UploadBandwidthPrice (Settings e') = UploadBandwidthPrice newSettings
    /\ PublicKey e' = PublicKey e
    /\ Reliability e' = MaxReliability
    /\ Online e' = true
    /\ Weight e' = calculateHostWeight e'
    /\ allHosts hdb' !! addr
       = Some (default entry (allHosts hdb !! addr))
    /\ activeHosts hdb' !! addr
       = if bool_decide (size (delete addr (activeHosts hdb)) < maxActiveHosts)%nat
         then Some entry else None.
Proof.
  intros Hheap addr.
  exists {| heap := <[entry := probed e newSettings]> (heap hdb);
            allHosts := match allHosts hdb !! addr with
                        | Some _ => allHosts hdb
                        | None => <[addr := entry]> (allHosts hdb)
                        end;
            activeHosts :=
              if bool_decide (size (delete addr (activeHosts hdb)) < maxActiveHosts)%nat
              then <[addr := entry]> (delete addr (activeHosts hdb))
              else delete addr (activeHosts hdb) |},
         (probed e newSettings).
  split; [exact (managedUpdateEntry_succeeded _ _ _ _ Hheap)|].
  simpl. split; [apply lookup_insert_eq|].
  repeat (split; [reflexivity|]).
  split.
  - destruct (allHosts hdb !! addr) as [prior|] eqn:Hall; simpl.
    + exact Hall.
    + apply lookup_insert_eq.
  - case_bool_decide.
    + apply lookup_insert_eq.
    + apply lookup_delete_eq.
Qed.

End ScannerEffects.

Section ScannerRounds.
Import HostDB.
Context `{Currency.TaxRate}.

(** X17.  A host on file under its own pointer survives exactly as many
    failed probes as its reliability counts.  After [n] failed probes of the
    entry, with [n] at least one and at most the reliability, the reliability
    is down by [n], the entry is offline and out of [activeHosts], and it is
    off [allHosts] when [n] is the reliability and still on file when [n] is
    less. *)
Theorem failed_probes_evict
    (probes : list (loc * HostExternalSettings * option string))
    (entry : loc) (e : hostEntry) (hdb : hostDB) :
  heap hdb !! entry = Some e ->
  let addr := NetAddress (Settings e) in
  allHosts hdb !! addr = Some entry ->
  Forall (fun p => p.1.1 = entry /\ is_Some p.2) probes ->
  probes <> [] ->
  Z.of_nat (length probes) <= Reliability e ->
  exists hdb',
    threadedProbeHosts probes hdb = Some hdb'
    /\ heap hdb' !! entry
       = Some (set_Reliability_Online
                 (Reliability e - Z.of_nat (length probes)) false e)
    /\ activeHosts hdb' !! addr = None
    /\ allHosts hdb' !! addr
       = if bool_decide (Z.of_nat (length probes) = Reliability e)
         then None else Some entry.
Proof.
  intros Hheap addr. subst addr.
  revert e hdb Hheap.
  induction probes as [|[[entry' settings] err] rest IH];
    intros e hdb Hheap Hall Hprobes Hne Hlen; [congruence|].
  apply Forall_cons in Hprobes as [[Hentry [msg Herr]] Hrest].
  simpl in Hentry, Herr. subst entry' err.
  simpl in Hlen. cbn [threadedProbeHosts].
  rewrite (managedUpdateEntry_failed _ _ _ _ _ Hheap), Hall, Hheap. simpl.
  rewrite bool_decide_eq_true_2 by reflexivity.
  rewrite (decrementReliability_known hdb _ entry e _ Hall Hheap eq_refl).
  rewrite Sub_penalty by lia. simpl.
  unfold Currency.IsZero, UnreachablePenalty, Currency.NewCurrency64.
  destruct rest as [|p rest].
  - simpl. eexists. split; [reflexivity|]. simpl.
    split; [rewrite lookup_insert_eq; reflexivity|].
    split; [apply lookup_delete_eq|].
    destruct (Z.eqb_spec (Reliability e - 1) 0).
    + rewrite bool_decide_eq_true_2 by lia. apply lookup_delete_eq.
    + rewrite bool_decide_eq_false_2 by lia. exact Hall.
  - simpl in Hlen.
    destruct (Z.eqb_spec (Reliability e - 1) 0); [lia|].
    match goal with
    | |- context [threadedProbeHosts _ ?h] => set (hdb1 := h)
    end.
    destruct (IH (set_Reliability_Online (Reliability e - 1) false e) hdb1)
      as (hdb' & Hrun & Hentry & Hactive & Hfile).
    + apply lookup_insert_eq.
    + exact Hall.
    + exact Hrest.
    + discriminate.
    + simpl. lia.
    + exists hdb'. split; [exact Hrun|]. simpl in Hentry, Hactive, Hfile.
      split.
      * rewrite Hentry. unfold set_Reliability_Online. simpl. do 2 f_equal. lia.
      * split; [exact Hactive|]. rewrite Hfile.
        repeat case_bool_decide; try reflexivity; simpl in *; lia.
Qed.

Lemma div_antitone (a s t : Z) : 0 <= a -> 0 < s <= t -> a / t <= a / s.
Proof. intros Ha Hst. apply Z.div_le_compat_l; assumption. Qed.

Lemma div5_antitone (a s t : Z) :
  0 <= a -> 0 < s <= t ->
  a / t / t / t / t / t <= a / s / s / s / s / s.
Proof.
  intros Ha Hst.
  assert (Hstep : forall x y, 0 <= x <= y -> 0 <= x / t <= y / s).
  { intros x y [Hx Hxy]. split; [apply Z.div_pos; lia|].
    transitivity (x / s); [apply div_antitone; lia|].
    apply Z.div_le_mono; lia. }
  apply Hstep, Hstep, Hstep, Hstep, Hstep. lia.
Qed.

(** X18.  A dearer host never weighs more.  Of two entries whose settings
    differ in the storage price alone, all prices non-negative, the one with
    the higher storage price has the lower or the same weight. *)
Theorem weight_falls_with_storage_price (cheap dear : hostEntry) :
  0 <= Currency.taxNum -> 0 < Currency.taxDen ->
  0 <= Collateral (Settings cheap) ->
  0 <= ContractPrice (Settings cheap) ->
  0 <= UploadBandwidthPrice (Settings cheap) ->
  0 <= DownloadBandwidthPrice (Settings cheap) ->
  Collateral (Settings dear) = Collateral (Settings cheap) ->
  ContractPrice (Settings dear) = ContractPrice (Settings cheap) ->
  UploadBandwidthPrice (Settings dear) = UploadBandwidthPrice (Settings cheap) ->
  DownloadBandwidthPrice (Settings dear) = DownloadBandwidthPrice (Settings cheap) ->
  0 <= StoragePrice (Settings cheap) <= StoragePrice (Settings dear) ->
  calculateHostWeight dear <= calculateHostWeight cheap.
Proof.
  intros Hnum Hden Hc Hcp Hup Hdp Ec Ecp Eup Edp Hsp.
  unfold calculateHostWeight. cbv zeta. rewrite Ec, Ecp, Eup, Edp.
  unfold Currency.Add, Currency.Div, Currency.Div64, Currency.Mul,
    Currency.MulTax, Currency.IsZero.
  set (cp := ContractPrice (Settings cheap) / 6048 / 10000000000).
  set (up := UploadBandwidthPrice (Settings cheap) / 24192).
  set (dp := DownloadBandwidthPrice (Settings cheap) / 12096).
  set (c := Collateral (Settings cheap)) in *.
  set (fee := (cp + up + dp + c) * Currency.taxNum / Currency.taxDen).
  assert (0 <= cp) by (unfold cp; repeat apply Z.div_pos; lia).
  assert (0 <= up) by (unfold up; apply Z.div_pos; lia).
  assert (0 <= dp) by (unfold dp; apply Z.div_pos; lia).
  assert (0 <= fee) by (unfold fee; apply Z.div_pos; nia).
  set (s := StoragePrice (Settings cheap) + cp + up + dp + fee).
  set (t := StoragePrice (Settings dear) + cp + up + dp + fee).
  assert (Hst : 0 <= s <= t) by (unfold s, t; lia).
  assert (Hbase : 0 <= baseWeight) by (unfold baseWeight; apply Z.pow_nonneg; lia).
  match goal with
  | |- (if _ then ?wt else _) <= (if _ then ?ws else _) =>
      assert (Hweight : 0 <= wt <= ws); [|revert Hweight; generalize wt, ws]
  end.
  { destruct (Z.eqb_spec t 0) as [Ht|Ht]; simpl.
    - destruct (Z.eqb_spec s 0); simpl; lia.
    - assert (Hpos : 0 <= baseWeight / t / t / t / t / t)
        by (repeat apply Z.div_pos; lia).
      split; [exact Hpos|].
      destruct (Z.eqb_spec s 0) as [Hs|Hs]; simpl.
      + transitivity (baseWeight / 1 / 1 / 1 / 1 / 1).
        * apply div5_antitone; lia.
        * rewrite !Z.div_1_r. lia.
      + apply div5_antitone; lia. }
  intros wt ws Hweight. destruct (Z.eqb_spec c 0); [apply Hweight|].
  apply Z.mul_le_mono_nonneg_r; lia.
Qed.

(** X19.  The weight is the base weight over the fifth power of the total
    price, times the collateral when there is one: the five truncating
    divisions lose nothing against the single one. *)
Theorem weight_fifth_power (entry : hostEntry) :
  let s := Settings entry in
  let adjusted :=
    ContractPrice s / 6048 / 10000000000 + UploadBandwidthPrice s / 24192
    + DownloadBandwidthPrice s / 12096 in
  let totalPrice :=
    StoragePrice s + adjusted
    + Currency.MulTax (adjusted + Collateral s) in
  0 < totalPrice ->
  calculateHostWeight entry
  = baseWeight / totalPrice ^ 5
    * (if Currency.IsZero (Collateral s) then 1 else Collateral s).
Proof.
  intros s adjusted totalPrice Hpos.
  unfold calculateHostWeight. cbv zeta. fold s.
  unfold Currency.Add, Currency.Div, Currency.Div64, Currency.Mul.
  replace (StoragePrice s + ContractPrice s / 6048 / 10000000000
           + UploadBandwidthPrice s / 24192 + DownloadBandwidthPrice s / 12096
           + Currency.MulTax
               (ContractPrice s / 6048 / 10000000000
                + UploadBandwidthPrice s / 24192
                + DownloadBandwidthPrice s / 12096 + Collateral s))
    with totalPrice by (unfold totalPrice, adjusted; ring).
  unfold Currency.IsZero.
  destruct (Z.eqb_spec totalPrice 0) as [Hz|Hnz]; [exfalso; lia|]. simpl negb. cbv iota.
  rewrite !Z.div_div by lia.
  replace (totalPrice * (totalPrice * (totalPrice * (totalPrice * totalPrice))))
    with (totalPrice ^ 5) by ring.
  unfold Currency.t. destruct (Collateral s =? 0); ring.
Qed.


(** What one update keeps of a well kept database. *)
Lemma managedUpdateEntry_wellKept (entry : loc) (e : hostEntry)
    (newSettings : HostExternalSettings) (netErr : option string) (hdb : hostDB) :
  wellKept hdb ->
  heap hdb !! entry = Some e ->
  0 < Reliability e ->
  exists hdb',
    managedUpdateEntry entry newSettings netErr hdb = Some hdb' /\ wellKept hdb'.
Proof.
  intros Hkept Hheap Hpos. pose proof Hkept as [Hret Hsize].
  set (addr := NetAddress (Settings e)).
  destruct netErr as [msg|].
  - rewrite (managedUpdateEntry_failed _ _ _ _ _ Hheap). fold addr.
    destruct (allHosts hdb !! addr) as [prior|] eqn:Hall.
    + destruct (Hret addr prior Hall) as (pe & Hpe & Hpaddr & Hppos).
      rewrite Hpe. simpl. case_bool_decide.
      * rewrite (decrementReliability_known hdb addr prior pe _ Hall Hpe Hpaddr).
        rewrite (Sub_penalty _ Hppos).
        eexists. split; [reflexivity|]. apply wellKept_penalised; assumption.
      * exists hdb. split; [reflexivity | exact Hkept].
    + eexists. split; [reflexivity|]. apply wellKept_filed; assumption.
  - rewrite (managedUpdateEntry_succeeded _ _ _ _ Hheap). fold addr.
    eexists. split; [reflexivity|]. split.
    + intros a q. simpl. intros Hq.
      assert (Hfiled : allHosts hdb !! a = Some q \/ (a = addr /\ q = entry)).
      { destruct (allHosts hdb !! addr); [left; exact Hq|].
        apply lookup_insert_Some in Hq as [[<- <-]|[_ Hq]]; auto. }
      destruct (decide (q = entry)) as [->|Hne].
      * exists (probed e newSettings). split; [apply lookup_insert_eq|].
        split; [|reflexivity]. simpl. destruct Hfiled as [Hq'|[-> _]]; [|reflexivity].
        symmetry. exact (retained_entry_address hdb entry e a Hret Hheap Hq').
      * destruct Hfiled as [Hq'|[_ ->]]; [|contradiction].
        destruct (Hret a q Hq') as (e0 & He0 & Ha & Hp).
        exists e0. rewrite lookup_insert_ne by congruence. auto.
    + simpl.
      assert (Hless : (size (delete addr (activeHosts hdb)) <= maxActiveHosts)%nat).
      { etransitivity; [|exact Hsize]. apply map_subseteq_size, delete_subseteq. }
      case_bool_decide as Hroom; [|exact Hless].
      rewrite map_size_insert_None by apply lookup_delete_eq. lia.
Qed.

(** X29.  A whole round keeps the database well kept.  When the database is
    well kept, the round has at most [MaxReliability] probes, and every probed
    entry has a reliability of at least the number of probes of the round,
    [threadedProbeHosts] returns, and every entry of [allHosts] has a
    reliability above zero afterwards and [activeHosts] at most
    [maxActiveHosts] entries, whatever the probes answer. *)
Theorem probe_round_keeps_database
    (probes : list (loc * HostExternalSettings * option string)) (hdb : hostDB) :
  wellKept hdb ->
  Z.of_nat (length probes) <= MaxReliability ->
  Forall (fun p => exists e,
            heap hdb !! p.1.1 = Some e
            /\ Z.of_nat (length probes) <= Reliability e) probes ->
  exists hdb', threadedProbeHosts probes hdb = Some hdb' /\ wellKept hdb'.
Proof.
  revert hdb. induction probes as [|[[entry settings] err] rest IH];
    intros hdb Hkept Hmax Hprobes.
  - exists hdb. split; [reflexivity | exact Hkept].
  - cbn [length] in Hmax, Hprobes.
    apply Forall_cons in Hprobes as [(e & Hheap & Hrel) Hrest]. simpl in Hheap.
    destruct (managedUpdateEntry_wellKept entry e settings err hdb Hkept Hheap)
      as (hdb1 & Hstep & Hkept1); [lia|].
    cbn [threadedProbeHosts]. rewrite Hstep. simpl.
    apply IH; [exact Hkept1 | lia |].
    eapply Forall_impl; [exact Hrest|].
    intros p (x & Hx & Hxrel).
    destruct (managedUpdateEntry_identity _ _ _ _ _ Hstep _ x Hx)
      as (x' & Hx' & _ & _ & Hrel').
    exists x'. split; [exact Hx'|]. destruct Hrel' as [Hdown|Hreset]; lia.
Qed.

End ScannerRounds.

Section ScannerEffectsWitnesses.
Import HostDB.
#[local] Existing Instance Currency.SiafundPortion.

(** Two failed probes of the only host: its entry stays on the heap under
    its address and key. *)
Lemma scanner_keeps_identity_witness :
  exists x',
    heap FixtureHostDB.afterFailedRound !! 1%positive = Some x'
    /\ NetAddress (Settings x') = FixtureHostDB.address
    /\ PublicKey x' = PublicKey (FixtureHostDB.entryWith 0 10 2).
Proof.
  refine (scanner_keeps_identity FixtureHostDB.failedRound FixtureHostDB.twoChances
            FixtureHostDB.afterFailedRound _ 1%positive
            (FixtureHostDB.entryWith 0 10 2) _);
    [vm_compute; reflexivity | reflexivity].
Defined.

(** The failed probe that evicts the host touches nothing else. *)
Lemma managedUpdateEntry_frame_witness :
  (forall a, a <> FixtureHostDB.address ->
     allHosts FixtureHostDB.afterFirstProbe !! a
     = allHosts FixtureHostDB.lastChance !! a
     /\ activeHosts FixtureHostDB.afterFirstProbe !! a
        = activeHosts FixtureHostDB.lastChance !! a)
  /\ (forall q, q <> 1%positive ->
       allHosts FixtureHostDB.lastChance !! FixtureHostDB.address <> Some q ->
       heap FixtureHostDB.afterFirstProbe !! q = heap FixtureHostDB.lastChance !! q).
Proof.
  apply (managedUpdateEntry_frame 1%positive (FixtureHostDB.entryWith 0 10 1)
           (FixtureHostDB.settingsWith 0 10) FixtureHostDB.probeFailed
           FixtureHostDB.lastChance FixtureHostDB.afterFirstProbe);
    [|reflexivity | vm_compute; reflexivity].
  intros a q x Hfile Hentry. simpl in Hfile, Hentry.
  apply lookup_singleton_Some in Hfile as [<- <-].
  apply lookup_singleton_Some in Hentry as [_ <-]. reflexivity.
Defined.

(** A host that is announced and not on file answers its first probe. *)
Lemma successful_probe_witness :
  exists hdb' e',
    managedUpdateEntry 1%positive (FixtureHostDB.settingsWith 5 20) None
      FixtureHostDB.unknownHost = Some hdb'
    /\ heap hdb' !! 1%positive = Some e'
    /\ Collateral (Settings e') = 20
    /\ Weight e' = calculateHostWeight e'
    /\ allHosts hdb' !! FixtureHostDB.address = Some 1%positive
    /\ activeHosts hdb' !! FixtureHostDB.address = Some 1%positive.
Proof.
  destruct (successful_probe 1%positive (FixtureHostDB.entryWith 0 10 150)
              (FixtureHostDB.settingsWith 5 20) FixtureHostDB.unknownHost eq_refl)
    as (hdb' & e' & Hrun & Hheap & _ & Hcollateral & _ & _ & _ & _ & _ & _ & _
        & Hweight & Hall & Hactive).
  exists hdb', e'. repeat split; assumption.
Defined.

(** Reliability two, two failed probes: the host is gone. *)
Lemma failed_probes_evict_witness :
  exists hdb',
    threadedProbeHosts FixtureHostDB.failedRound FixtureHostDB.twoChances = Some hdb'
    /\ heap hdb' !! 1%positive
       = Some (set_Reliability_Online 0 false (FixtureHostDB.entryWith 0 10 2))
    /\ activeHosts hdb' !! FixtureHostDB.address = None
    /\ allHosts hdb' !! FixtureHostDB.address = None.
Proof.
  apply (failed_probes_evict FixtureHostDB.failedRound 1%positive
           (FixtureHostDB.entryWith 0 10 2) FixtureHostDB.twoChances).
  - reflexivity.
  - reflexivity.
  - repeat constructor; simpl; eauto.
  - discriminate.
  - simpl. lia.
Defined.

(** Storage at 7 against storage for nothing. *)
Lemma weight_falls_with_storage_price_witness :
  calculateHostWeight (FixtureHostDB.pricedEntry 7 10 150)
  <= calculateHostWeight (FixtureHostDB.pricedEntry 0 10 150).
Proof.
  apply (weight_falls_with_storage_price (FixtureHostDB.pricedEntry 0 10 150)
           (FixtureHostDB.pricedEntry 7 10 150));
    first [reflexivity | simpl; lia].
Defined.

(** A total price of 7 and a collateral of 10. *)
Lemma weight_fifth_power_witness :
  calculateHostWeight (FixtureHostDB.pricedEntry 7 10 150)
  = baseWeight / 7 ^ 5 * 10.
Proof.
  rewrite (weight_fifth_power (FixtureHostDB.pricedEntry 7 10 150));
    [|vm_compute; reflexivity].
  apply (f_equal2 Z.mul); [|vm_compute; reflexivity].
  apply (f_equal (Z.div baseWeight)). vm_compute. reflexivity.
Defined.


Lemma twoChances_wellKept : wellKept FixtureHostDB.twoChances.
Proof.
  split.
  - intros addr entry Hlookup. simpl in Hlookup.
    apply lookup_singleton_Some in Hlookup as [<- <-].
    exists (FixtureHostDB.entryWith 0 10 2).
    split; [reflexivity|]. split; reflexivity.
  - simpl. rewrite map_size_singleton. unfold maxActiveHosts. lia.
Qed.

(** The round of two failed probes on the host with reliability two. *)
Lemma probe_round_keeps_database_witness :
  exists hdb',
    threadedProbeHosts FixtureHostDB.failedRound FixtureHostDB.twoChances = Some hdb'
    /\ wellKept hdb'.
Proof.
  apply (probe_round_keeps_database FixtureHostDB.failedRound FixtureHostDB.twoChances).
  - exact twoChances_wellKept.
  - vm_compute. discriminate.
  - repeat constructor; exists (FixtureHostDB.entryWith 0 10 2);
      (split; [reflexivity | vm_compute; discriminate]).
Defined.

End ScannerEffectsWitnesses.

(** ** The transaction validators *)

Section TransactionValidators.
Import Consensus Validation.
Context `{ValidationTypes}.

Lemma doubleCoinSpends_error (inputs : list CoinInput) (spendCoins : gset CoinOutputID) :
  doubleCoinSpends inputs spendCoins <> None ->
  doubleCoinSpends inputs spendCoins = Some ErrDoubleSpend.
Proof.
  revert spendCoins. induction inputs as [|ci rest IH]; intros spendCoins; simpl.
  - congruence.
  - case_bool_decide; [reflexivity | apply IH].
Qed.

Lemma doubleCoinSpends_None (inputs : list CoinInput) (spendCoins : gset CoinOutputID) :
  doubleCoinSpends inputs spendCoins = None
  <-> NoDup (ParentID <$> inputs)
      /\ forall id, id ∈ ParentID <$> inputs -> id ∉ spendCoins.
Proof.
  revert spendCoins. induction inputs as [|ci rest IH]; intros spendCoins.
  - simpl. split; [|reflexivity]. intros _.
    split; [constructor|]. intros id Hin. apply elem_of_nil in Hin. destruct Hin.
  - cbn [doubleCoinSpends]. rewrite fmap_cons. case_bool_decide as Hseen.
    + split; [discriminate|].
      intros [_ Hfresh]. exfalso.
      apply (Hfresh (ParentID ci)); [left|exact Hseen].
    + rewrite IH, NoDup_cons. split.
      * intros [Hnodup Hfresh]. split; [split; [|exact Hnodup]|].
        -- intros Hin. apply (Hfresh _ Hin).
           apply elem_of_union_l, elem_of_singleton. reflexivity.
        -- intros id Hin. apply elem_of_cons in Hin as [->|Hin]; [exact Hseen|].
           intros Hid. apply (Hfresh _ Hin), elem_of_union_r, Hid.
      * intros [[Hnotin Hnodup] Hfresh]. split; [exact Hnodup|].
        intros id Hin Hid. apply elem_of_union in Hid as [Hid|Hid].
        -- apply elem_of_singleton in Hid. subst id. contradiction.
        -- apply (Hfresh id); [right; exact Hin | exact Hid].
Qed.

Lemma doubleBlockStakeSpends_error (inputs : list BlockStakeInput)
    (spendBlockStakes : gset BlockStakeOutputID) :
  doubleBlockStakeSpends inputs spendBlockStakes <> None ->
  doubleBlockStakeSpends inputs spendBlockStakes = Some ErrDoubleSpend.
Proof.
  revert spendBlockStakes.
  induction inputs as [|bsi rest IH]; intros spendBlockStakes; simpl.
  - congruence.
  - case_bool_decide; [reflexivity | apply IH].
Qed.

Lemma doubleBlockStakeSpends_None (inputs : list BlockStakeInput)
    (spendBlockStakes : gset BlockStakeOutputID) :
  doubleBlockStakeSpends inputs spendBlockStakes = None
  <-> NoDup (BlockStakeParentID <$> inputs)
      /\ forall id, id ∈ BlockStakeParentID <$> inputs -> id ∉ spendBlockStakes.
Proof.
  revert spendBlockStakes. induction inputs as [|bsi rest IH]; intros spendBlockStakes.
  - simpl. split; [|reflexivity]. intros _.
    split; [constructor|]. intros id Hin. apply elem_of_nil in Hin. destruct Hin.
  - cbn [doubleBlockStakeSpends]. rewrite fmap_cons. case_bool_decide as Hseen.
    + split; [discriminate|].
      intros [_ Hfresh]. exfalso.
      apply (Hfresh (BlockStakeParentID bsi)); [left|exact Hseen].
    + rewrite IH, NoDup_cons. split.
      * intros [Hnodup Hfresh]. split; [split; [|exact Hnodup]|].
        -- intros Hin. apply (Hfresh _ Hin).
           apply elem_of_union_l, elem_of_singleton. reflexivity.
        -- intros id Hin. apply elem_of_cons in Hin as [->|Hin]; [exact Hseen|].
           intros Hid. apply (Hfresh _ Hin), elem_of_union_r, Hid.
      * intros [[Hnotin Hnodup] Hfresh]. split; [exact Hnodup|].
        intros id Hin Hid. apply elem_of_union in Hid as [Hid|Hid].
        -- apply elem_of_singleton in Hid. subst id. contradiction.
        -- apply (Hfresh id); [right; exact Hin | exact Hid].
Qed.

(** X20.  The double spend validators accept a transaction exactly when no
    two of its inputs of the kind have the same parent, and reject any other
    with [ErrDoubleSpend]. *)
Theorem double_spend_validators (tx : Transaction) (ctx : TransactionValidationContext) :
  (ValidateDoubleCoinSpends tx ctx = None <-> NoDup (ParentID <$> CoinInputs tx))
  /\ (~ NoDup (ParentID <$> CoinInputs tx) ->
      ValidateDoubleCoinSpends tx ctx = Some ErrDoubleSpend)
  /\ (ValidateDoubleBlockStakeSpends tx ctx = None
      <-> NoDup (BlockStakeParentID <$> BlockStakeInputs tx))
  /\ (~ NoDup (BlockStakeParentID <$> BlockStakeInputs tx) ->
      ValidateDoubleBlockStakeSpends tx ctx = Some ErrDoubleSpend).
Proof.
  unfold ValidateDoubleCoinSpends, ValidateDoubleBlockStakeSpends.
  assert (Hcoin : doubleCoinSpends (CoinInputs tx) ∅ = None
                  <-> NoDup (ParentID <$> CoinInputs tx)).
  { rewrite doubleCoinSpends_None. split; [tauto|]. intros Hnodup.
    split; [exact Hnodup | set_solver]. }
  assert (Hstake : doubleBlockStakeSpends (BlockStakeInputs tx) ∅ = None
                   <-> NoDup (BlockStakeParentID <$> BlockStakeInputs tx)).
  { rewrite doubleBlockStakeSpends_None. split; [tauto|]. intros Hnodup.
    split; [exact Hnodup | set_solver]. }
  split; [exact Hcoin|]. split; [|split; [exact Hstake|]].
  - intros Hdup. apply doubleCoinSpends_error. tauto.
  - intros Hdup. apply doubleBlockStakeSpends_error. tauto.
Qed.

Lemma minerFeesAreValid_error (ctx : TransactionValidationContext)
    (fees : list Currency.t) :
  minerFeesAreValid ctx fees <> None ->
  minerFeesAreValid ctx fees = Some ErrTooSmallMinerFee.
Proof.
  induction fees as [|fee rest IH]; simpl; [congruence|].
  destruct (Currency.Cmp fee (MinimumMinerFee ctx) =? -1); [reflexivity | exact IH].
Qed.

Lemma minerFeesAreValid_None (ctx : TransactionValidationContext)
    (fees : list Currency.t) :
  minerFeesAreValid ctx fees = None
  <-> Forall (fun fee => MinimumMinerFee ctx <= fee) fees.
Proof.
  induction fees as [|fee rest IH].
  - simpl. split; [constructor | reflexivity].
  - cbn [minerFeesAreValid]. rewrite Forall_cons. unfold Currency.Cmp.
    destruct (Z.compare_spec fee (MinimumMinerFee ctx)) as [Heq|Hlt|Hgt]; simpl.
    + rewrite IH. intuition lia.
    + split; [discriminate | lia].
    + rewrite IH. intuition lia.
Qed.

Lemma total_at_least (bound : Z) (amounts : list Currency.t) :
  Forall (fun amount => bound <= amount) amounts ->
  bound * len amounts <= total amounts.
Proof.
  unfold len, total. induction 1 as [|amount amounts Hamount _ IH]; simpl; lia.
Qed.

(** X21.  [ValidateMinerFeesAreValid] accepts exactly the transactions all of
    whose miner fees are at least [MinimumMinerFee], and rejects any other
    with [ErrTooSmallMinerFee]; a transaction without miner fees passes it.
    A transaction that does not create a block and passes both miner fee
    validators has a miner fee, and with a minimum that is not negative its
    fees sum to at least the minimum. *)
Theorem miner_fee_validators (ID : Transaction -> TransactionID)
    (tx : Transaction) (ctx : TransactionValidationContext) :
  (ValidateMinerFeesAreValid tx ctx = None
   <-> Forall (fun fee => MinimumMinerFee ctx <= fee) (MinerFees tx))
  /\ (ValidateMinerFeesAreValid tx ctx <> None ->
      ValidateMinerFeesAreValid tx ctx = Some ErrTooSmallMinerFee)
  /\ (IsBlockCreatingTx ctx = false ->
      ValidateMinerFeeIsPresent ID tx ctx = None ->
      ValidateMinerFeesAreValid tx ctx = None ->
      0 <= MinimumMinerFee ctx ->
      MinerFees tx <> [] /\ MinimumMinerFee ctx <= total (MinerFees tx)).
Proof.
  unfold ValidateMinerFeesAreValid, ValidateMinerFeeIsPresent.
  split; [apply minerFeesAreValid_None|]. split; [apply minerFeesAreValid_error|].
  intros -> Hpresent Hvalid Hmin.
  apply minerFeesAreValid_None in Hvalid.
  destruct (Z.eqb_spec (len (MinerFees tx)) 0) as [Hlen|Hlen]; [discriminate|].
  split.
  - intros Hnil. rewrite Hnil in Hlen. apply Hlen. reflexivity.
  - pose proof (total_at_least _ _ Hvalid) as Hsum.
    assert (1 <= len (MinerFees tx)) by (unfold len in *; lia). nia.
Qed.

Lemma coinOutputsAreValid_prefix ctx (valid : list CoinOutput) (rest : list CoinOutput) :
  Forall (validCoinOutput ctx) valid ->
  coinOutputsAreValid ctx (valid ++ rest) = coinOutputsAreValid ctx rest.
Proof.
  induction 1 as [|co valid [Hvalue Hstandard] _ IH]; [reflexivity|].
  cbn [app coinOutputsAreValid]. unfold Currency.IsZero.
  destruct (Z.eqb_spec (Value co) 0); [contradiction|].
  rewrite Hstandard. exact IH.
Qed.

Lemma coinOutputsAreValid_None ctx (outputs : list CoinOutput) :
  coinOutputsAreValid ctx outputs = None -> Forall (validCoinOutput ctx) outputs.
Proof.
  induction outputs as [|co rest IH]; [constructor|].
  cbn [coinOutputsAreValid]. unfold Currency.IsZero.
  destruct (Z.eqb_spec (Value co) 0); [discriminate|].
  destruct (IsStandardCondition (OutputCondition co) (Context ctx)) eqn:Hstandard;
    [discriminate|].
  intros Hrest. constructor; [split; assumption | exact (IH Hrest)].
Qed.

Lemma blockStakeOutputsAreValid_prefix ctx (valid rest : list BlockStakeOutput) :
  Forall (validBlockStakeOutput ctx) valid ->
  blockStakeOutputsAreValid ctx (valid ++ rest) = blockStakeOutputsAreValid ctx rest.
Proof.
  induction 1 as [|bso valid [Hvalue Hstandard] _ IH]; [reflexivity|].
  cbn [app blockStakeOutputsAreValid]. unfold Currency.IsZero.
  destruct (Z.eqb_spec (BlockStakeValue bso) 0); [contradiction|].
  rewrite Hstandard. exact IH.
Qed.

Lemma blockStakeOutputsAreValid_None ctx (outputs : list BlockStakeOutput) :
  blockStakeOutputsAreValid ctx outputs = None ->
  Forall (validBlockStakeOutput ctx) outputs.
Proof.
  induction outputs as [|bso rest IH]; [constructor|].
  cbn [blockStakeOutputsAreValid]. unfold Currency.IsZero.
  destruct (Z.eqb_spec (BlockStakeValue bso) 0); [discriminate|].
  destruct (IsStandardCondition (BlockStakeCondition bso) (Context ctx)) eqn:Hstandard;
    [discriminate|].
  intros Hrest. constructor; [split; assumption | exact (IH Hrest)].
Qed.

(** X22.  The output validators accept a transaction exactly when every
    output of the kind has a value other than zero and a standard condition.
    Otherwise the first output that fails decides the error: [ErrZeroOutput]
    if its value is zero, whatever its condition, and else the error of its
    condition. *)
Theorem output_validators (tx : Transaction) (ctx : TransactionValidationContext) :
  (ValidateCoinOutputsAreValid tx ctx = None
   <-> Forall (validCoinOutput ctx) (CoinOutputs tx))
  /\ (forall valid co rest,
        CoinOutputs tx = valid ++ co :: rest ->
        Forall (validCoinOutput ctx) valid ->
        ~ validCoinOutput ctx co ->
        ValidateCoinOutputsAreValid tx ctx
        = if Currency.IsZero (Value co) then Some ErrZeroOutput
          else ErrNotStandard
               <$> IsStandardCondition (OutputCondition co) (Context ctx))
  /\ (ValidateBlockStakeOutputsAreValid tx ctx = None
      <-> Forall (validBlockStakeOutput ctx) (BlockStakeOutputs tx))
  /\ (forall valid bso rest,
        BlockStakeOutputs tx = valid ++ bso :: rest ->
        Forall (validBlockStakeOutput ctx) valid ->
        ~ validBlockStakeOutput ctx bso ->
        ValidateBlockStakeOutputsAreValid tx ctx
        = if Currency.IsZero (BlockStakeValue bso) then Some ErrZeroOutput
          else ErrNotStandard
               <$> IsStandardCondition (BlockStakeCondition bso) (Context ctx)).
Proof.
  unfold ValidateCoinOutputsAreValid, ValidateBlockStakeOutputsAreValid.
  split; [|split; [|split]].
  - split; [apply coinOutputsAreValid_None|].
    intros Hall. rewrite <- (app_nil_r (CoinOutputs tx)).
    rewrite coinOutputsAreValid_prefix by exact Hall. reflexivity.
  - intros valid co rest -> Hvalid Hco.
    rewrite coinOutputsAreValid_prefix by exact Hvalid.
    cbn [coinOutputsAreValid]. unfold Currency.IsZero, validCoinOutput in *.
    destruct (Z.eqb_spec (Value co) 0); [reflexivity|].
    destruct (IsStandardCondition (OutputCondition co) (Context ctx));
      [reflexivity | tauto].
  - split; [apply blockStakeOutputsAreValid_None|].
    intros Hall. rewrite <- (app_nil_r (BlockStakeOutputs tx)).
    rewrite blockStakeOutputsAreValid_prefix by exact Hall. reflexivity.
  - intros valid bso rest -> Hvalid Hbso.
    rewrite blockStakeOutputsAreValid_prefix by exact Hvalid.
    cbn [blockStakeOutputsAreValid]. unfold Currency.IsZero, validBlockStakeOutput in *.
    destruct (Z.eqb_spec (BlockStakeValue bso) 0); [reflexivity|].
    destruct (IsStandardCondition (BlockStakeCondition bso) (Context ctx));
      [reflexivity | tauto].
Qed.

Lemma coinInputsAreValid_prefix ctx (valid rest : list CoinInput) :
  Forall (validCoinInput ctx) valid ->
  coinInputsAreValid ctx (valid ++ rest) = coinInputsAreValid ctx rest.
Proof.
  induction 1 as [|ci valid [Hparent Hstandard] _ IH]; [reflexivity|].
  cbn [app coinInputsAreValid].
  rewrite bool_decide_eq_false_2 by exact Hparent.
  rewrite Hstandard. exact IH.
Qed.

Lemma coinInputsAreValid_None ctx (inputs : list CoinInput) :
  coinInputsAreValid ctx inputs = None -> Forall (validCoinInput ctx) inputs.
Proof.
  induction inputs as [|ci rest IH]; [constructor|].
  cbn [coinInputsAreValid]. case_bool_decide as Hparent; [discriminate|].
  destruct (IsStandardFulfillment (InputFulfillment ci) (Context ctx)) eqn:Hstandard;
    [discriminate|].
  intros Hrest. constructor; [split; assumption | exact (IH Hrest)].
Qed.

Lemma blockStakeInputsAreValid_prefix ctx (valid rest : list BlockStakeInput) :
  Forall (validBlockStakeInput ctx) valid ->
  blockStakeInputsAreValid ctx (valid ++ rest) = blockStakeInputsAreValid ctx rest.
Proof.
  induction 1 as [|bsi valid [Hparent Hstandard] _ IH]; [reflexivity|].
  cbn [app blockStakeInputsAreValid].
  rewrite bool_decide_eq_false_2 by exact Hparent.
  rewrite Hstandard. exact IH.
Qed.

Lemma blockStakeInputsAreValid_None ctx (inputs : list BlockStakeInput) :
  blockStakeInputsAreValid ctx inputs = None ->
  Forall (validBlockStakeInput ctx) inputs.
Proof.
  induction inputs as [|bsi rest IH]; [constructor|].
  cbn [blockStakeInputsAreValid]. case_bool_decide as Hparent; [discriminate|].
  destruct (IsStandardFulfillment (BlockStakeFulfillment bsi) (Context ctx))
    eqn:Hstandard; [discriminate|].
  intros Hrest. constructor; [split; assumption | exact (IH Hrest)].
Qed.

(** X23.  The input validators accept a transaction exactly when every input
    of the kind has a parent other than the zero identifier and a standard
    fulfillment.  Otherwise the first input that fails decides the error:
    the missing parent if its parent is the zero identifier, whatever its
    fulfillment, and else the error of its fulfillment. *)
Theorem input_validators (tx : Transaction) (ctx : TransactionValidationContext) :
  (ValidateCoinInputsAreValid tx ctx = None
   <-> Forall (validCoinInput ctx) (CoinInputs tx))
  /\ (forall valid ci rest,
        CoinInputs tx = valid ++ ci :: rest ->
        Forall (validCoinInput ctx) valid ->
        ~ validCoinInput ctx ci ->
        ValidateCoinInputsAreValid tx ctx
        = if bool_decide (ParentID ci = zeroCoinOutputID) then Some ErrNoCoinParentID
          else ErrNotStandard
               <$> IsStandardFulfillment (InputFulfillment ci) (Context ctx))
  /\ (ValidateBlockStakeInputsAreValid tx ctx = None
      <-> Forall (validBlockStakeInput ctx) (BlockStakeInputs tx))
  /\ (forall valid bsi rest,
        BlockStakeInputs tx = valid ++ bsi :: rest ->
        Forall (validBlockStakeInput ctx) valid ->
        ~ validBlockStakeInput ctx bsi ->
        ValidateBlockStakeInputsAreValid tx ctx
        = if bool_decide (BlockStakeParentID bsi = zeroBlockStakeOutputID)
          then Some ErrNoBlockStakeParentID
          else ErrNotStandard
               <$> IsStandardFulfillment (BlockStakeFulfillment bsi) (Context ctx)).
Proof.
  unfold ValidateCoinInputsAreValid, ValidateBlockStakeInputsAreValid.
  split; [|split; [|split]].
  - split; [apply coinInputsAreValid_None|].
    intros Hall. rewrite <- (app_nil_r (CoinInputs tx)).
    rewrite coinInputsAreValid_prefix by exact Hall. reflexivity.
  - intros valid ci rest -> Hvalid Hci.
    rewrite coinInputsAreValid_prefix by exact Hvalid.
    cbn [coinInputsAreValid]. unfold validCoinInput in *.
    case_bool_decide; [reflexivity|].
    destruct (IsStandardFulfillment (InputFulfillment ci) (Context ctx));
      [reflexivity | tauto].
  - split; [apply blockStakeInputsAreValid_None|].
    intros Hall. rewrite <- (app_nil_r (BlockStakeInputs tx)).
    rewrite blockStakeInputsAreValid_prefix by exact Hall. reflexivity.
  - intros valid bsi rest -> Hvalid Hbsi.
    rewrite blockStakeInputsAreValid_prefix by exact Hvalid.
    cbn [blockStakeInputsAreValid]. unfold validBlockStakeInput in *.
    case_bool_decide; [reflexivity|].
    destruct (IsStandardFulfillment (BlockStakeFulfillment bsi) (Context ctx));
      [reflexivity | tauto].
Qed.

Lemma fold_Add_stake_values (outputs : list BlockStakeOutput) (start : Currency.t) :
  fold_left (fun sum bso => Currency.Add sum (BlockStakeValue bso)) outputs start
  = start + total (BlockStakeValue <$> outputs).
Proof.
  revert start. induction outputs as [|bso outputs IH]; intros start.
  - unfold total. simpl. lia.
  - cbn [fold_left]. rewrite IH, fmap_cons. unfold Currency.Add, total.
    cbn [foldr]. lia.
Qed.

Lemma collectBlockStakeInputSum_resolved css ctx inputs start bsos :
  resolveBlockStakes css inputs = Some bsos ->
  collectBlockStakeInputSum css ctx inputs start
  = inr (start + total (BlockStakeValue <$> bsos)).
Proof.
  revert start bsos. induction inputs as [|bsi inputs IH]; intros start bsos; simpl.
  - intros [= <-]. unfold total. simpl. f_equal. lia.
  - destruct (UnspentBlockStakeOutputGet css (BlockStakeParentID bsi)) as [bso|];
      simpl; [|discriminate].
    destruct (resolveBlockStakes css inputs) as [bsos'|]; simpl; [|discriminate].
    intros [= <-]. rewrite (IH _ bsos' eq_refl), fmap_cons.
    unfold Currency.Add, total. cbn [foldr]. f_equal. lia.
Qed.

Lemma collectBlockStakeInputSum_unresolved css ctx inputs start :
  resolveBlockStakes css inputs = None ->
  exists bsi,
    bsi ∈ inputs
    /\ UnspentBlockStakeOutputGet css (BlockStakeParentID bsi) = None
    /\ collectBlockStakeInputSum css ctx inputs start
       = inl (ErrBlockStakeParentNotFound (BlockStakeParentID bsi) (BlockHeight ctx)).
Proof.
  revert start. induction inputs as [|bsi inputs IH]; intros start; simpl.
  - discriminate.
  - destruct (UnspentBlockStakeOutputGet css (BlockStakeParentID bsi)) as [bso|]
      eqn:Hget; simpl.
    + destruct (resolveBlockStakes css inputs) as [bsos'|]; simpl; [discriminate|].
      intros _. destruct (IH (Currency.Add start (BlockStakeValue bso)) eq_refl)
        as (bsi' & Hin & Hnone & Hrun).
      exists bsi'. split; [apply list_elem_of_further, Hin|]. split; assumption.
    + intros _. exists bsi. split; [apply list_elem_of_here|].
      split; [assumption|reflexivity].
Qed.

(** X24.  [ValidateBlockStakeOutputsAreBalanced] returns nil exactly when
    every block stake input's parent resolves and the resolved values add up
    to the values of the block stake outputs; miner fees play no part.  When
    a parent does not resolve the error names that parent and the block
    height of the context; when all resolve and the sums differ the error
    states on which side the inputs are. *)
Theorem block_stake_outputs_balanced (ID : Transaction -> TransactionID)
    (tx : Transaction) (ctx : TransactionCreationValidationContext)
    (css : BlockStakeStateGetter) :
  let outputs := total (BlockStakeValue <$> BlockStakeOutputs tx) in
  (ValidateBlockStakeOutputsAreBalanced ID tx ctx css = None
   <-> exists bsos,
         resolveBlockStakes css (BlockStakeInputs tx) = Some bsos
         /\ total (BlockStakeValue <$> bsos) = outputs)
  /\ (resolveBlockStakes css (BlockStakeInputs tx) = None ->
      exists bsi,
        bsi ∈ BlockStakeInputs tx
        /\ UnspentBlockStakeOutputGet css (BlockStakeParentID bsi) = None
        /\ ValidateBlockStakeOutputsAreBalanced ID tx ctx css
           = Some (ErrBlockStakeParentNotFound (BlockStakeParentID bsi)
                     (BlockHeight ctx)))
  /\ (forall bsos,
        resolveBlockStakes css (BlockStakeInputs tx) = Some bsos ->
        let inputs := total (BlockStakeValue <$> bsos) in
        (inputs < outputs ->
         ValidateBlockStakeOutputsAreBalanced ID tx ctx css
         = Some (ErrBlockStakeInputsLessThanOutputs inputs (ID tx) outputs))
        /\ (inputs > outputs ->
            ValidateBlockStakeOutputsAreBalanced ID tx ctx css
            = Some (ErrBlockStakeInputsGreaterThanOutputs inputs (ID tx) outputs))).
Proof.
  intros outputs.
  assert (Hres : forall bsos,
             resolveBlockStakes css (BlockStakeInputs tx) = Some bsos ->
             ValidateBlockStakeOutputsAreBalanced ID tx ctx css
             = if total (BlockStakeValue <$> bsos) <? outputs
               then Some (ErrBlockStakeInputsLessThanOutputs
                            (total (BlockStakeValue <$> bsos)) (ID tx) outputs)
               else if total (BlockStakeValue <$> bsos) >? outputs
                    then Some (ErrBlockStakeInputsGreaterThanOutputs
                                 (total (BlockStakeValue <$> bsos)) (ID tx) outputs)
                    else None).
  { intros bsos Hbsos. unfold ValidateBlockStakeOutputsAreBalanced.
    rewrite (collectBlockStakeInputSum_resolved css ctx _ 0 bsos Hbsos).
    rewrite fold_Add_stake_values, !Z.add_0_l. fold outputs.
    unfold Currency.Cmp, Z.ltb, Z.gtb.
    destruct (total (BlockStakeValue <$> bsos) ?= outputs); reflexivity. }
  split; [|split].
  - split.
    + intros Hnil.
      destruct (resolveBlockStakes css (BlockStakeInputs tx)) as [bsos|] eqn:Hbsos.
      * exists bsos. split; [reflexivity|]. rewrite (Hres bsos eq_refl) in Hnil.
        destruct (Z.ltb_spec (total (BlockStakeValue <$> bsos)) outputs);
          [discriminate|].
        destruct (Z.gtb_spec (total (BlockStakeValue <$> bsos)) outputs);
          [discriminate|]. lia.
      * destruct (collectBlockStakeInputSum_unresolved css ctx _ 0 Hbsos)
          as (bsi & _ & _ & Hrun).
        unfold ValidateBlockStakeOutputsAreBalanced in Hnil. rewrite Hrun in Hnil.
        discriminate.
    + intros (bsos & Hbsos & Hsum). rewrite (Hres bsos Hbsos), Hsum.
      rewrite Z.ltb_irrefl, Z.gtb_ltb, Z.ltb_irrefl. reflexivity.
  - intros Hnone.
    destruct (collectBlockStakeInputSum_unresolved css ctx _ 0 Hnone)
      as (bsi & Hin & Hget & Hrun).
    exists bsi. split; [exact Hin|]. split; [exact Hget|].
    unfold ValidateBlockStakeOutputsAreBalanced. rewrite Hrun. reflexivity.
  - intros bsos Hbsos inputs. rewrite (Hres bsos Hbsos). fold inputs.
    split; intros Hcmp.
    + destruct (Z.ltb_spec inputs outputs); [reflexivity | lia].
    + destruct (Z.ltb_spec inputs outputs); [lia|].
      destruct (Z.gtb_spec inputs outputs); [reflexivity | lia].
Qed.

End TransactionValidators.

Section TransactionValidatorsWitnesses.
Import Consensus Validation.
#[local] Existing Instance FixtureValidation.types.
#[local] Existing Instance FixtureValidation.validationTypes.

(** One input of each kind: nothing is spent twice. *)
Lemma double_spend_validators_witness :
  ValidateDoubleCoinSpends FixtureValidation.tx FixtureValidation.ctx = None
  /\ ValidateDoubleBlockStakeSpends FixtureValidation.tx FixtureValidation.ctx = None.
Proof.
  destruct (double_spend_validators FixtureValidation.tx FixtureValidation.ctx)
    as (Hcoin & _ & Hstake & _).
  split; [apply Hcoin | apply Hstake]; apply NoDup_singleton.
Defined.

(** Fees of 10 and 15 against a minimum of 10. *)
Lemma miner_fee_validators_witness :
  MinerFees FixtureValidation.tx <> []
  /\ MinimumMinerFee FixtureValidation.ctx <= total (MinerFees FixtureValidation.tx).
Proof.
  apply (miner_fee_validators FixtureValidation.ID FixtureValidation.tx
           FixtureValidation.ctx);
    first [reflexivity | vm_compute; discriminate].
Defined.

(** The output without a value is turned down for its value, not for its
    condition. *)
Lemma output_validators_witness :
  ValidateCoinOutputsAreValid FixtureValidation.flawedTx FixtureValidation.ctx
  = Some ErrZeroOutput.
Proof.
  destruct (output_validators FixtureValidation.flawedTx FixtureValidation.ctx)
    as (_ & Hfirst & _).
  apply (Hfirst [FixtureValidation.soundOutput] FixtureValidation.voidOutput []).
  - reflexivity.
  - repeat constructor. discriminate.
  - intros [Hvalue _]. apply Hvalue. reflexivity.
Defined.

(** The input without a parent is turned down for its parent, not for its
    fulfillment. *)
Lemma input_validators_witness :
  ValidateCoinInputsAreValid FixtureValidation.flawedTx FixtureValidation.ctx
  = Some ErrNoCoinParentID.
Proof.
  destruct (input_validators FixtureValidation.flawedTx FixtureValidation.ctx)
    as (_ & Hfirst & _).
  apply (Hfirst [FixtureValidation.soundInput] FixtureValidation.orphanInput []).
  - reflexivity.
  - repeat constructor. discriminate.
  - intros [Hparent _]. apply Hparent. reflexivity.
Defined.

(** A block stake of 3 in and of 3 out. *)
Lemma block_stake_outputs_balanced_witness :
  ValidateBlockStakeOutputsAreBalanced FixtureValidation.ID FixtureValidation.tx
    FixtureValidation.creation FixtureValidation.css = None.
Proof.
  apply (block_stake_outputs_balanced FixtureValidation.ID FixtureValidation.tx
           FixtureValidation.creation FixtureValidation.css).
  exists [FixtureValidation.stakeOutput].
  split; reflexivity.
Defined.

End TransactionValidatorsWitnesses.

(** ** The configuration checks of the daemon *)

Section DaemonChecks.
Import Daemon.
Context `{Library}.

Lemma Replace1_absent (s : string) (m : Ascii.ascii) :
  m ∉ letters s -> Replace1 s m = s.
Proof.
  unfold letters.
  induction s as [|c rest IH]; [reflexivity|].
  cbn [Replace1 String.list_ascii_of_string]. intros Hnotin.
  apply not_elem_of_cons in Hnotin as [Hne Hrest].
  rewrite bool_decide_eq_false_2 by congruence. rewrite (IH Hrest). reflexivity.
Qed.

Lemma Replace1_present (s : string) (m : Ascii.ascii) :
  m ∈ letters s -> letters s ≡ₚ m :: letters (Replace1 s m).
Proof.
  unfold letters.
  induction s as [|c rest IH]; cbn [Replace1 String.list_ascii_of_string].
  - intros Hin. apply elem_of_nil in Hin. destruct Hin.
  - intros Hin. case_bool_decide as Hc.
    + subst c. reflexivity.
    + apply elem_of_cons in Hin as [Heq|Hin]; [congruence|].
      cbn [String.list_ascii_of_string]. rewrite (IH Hin) at 1. apply Permutation_swap.
Qed.

(** What taking the letters of [valid] out of [s], each once, leaves
    nothing of. *)
Lemma Replace1_all (valid : list Ascii.ascii) (s : string) :
  NoDup valid ->
  fold_left Replace1 valid s = EmptyString
  <-> NoDup (letters s) /\ forall c, c ∈ letters s -> c ∈ valid.
Proof.
  intros Hvalid. revert s.
  induction Hvalid as [|m valid Hm Hvalid IH]; intros s.
  - simpl. split.
    + intros ->. split; [constructor|]. intros c Hc. exact Hc.
    + intros [_ Hsub]. destruct s as [|c rest]; [reflexivity|].
      exfalso. apply (not_elem_of_nil c), Hsub. left.
  - cbn [fold_left]. rewrite IH.
    destruct (decide (m ∈ letters s)) as [Hin|Hnotin].
    + pose proof (Replace1_present s m Hin) as Hperm.
      set (r := letters (Replace1 s m)) in *. clearbody r.
      setoid_rewrite Hperm. rewrite NoDup_cons. split.
      * intros [Hnodup Hsub]. split; [split; [|exact Hnodup]|].
        -- intros Hr. apply Hm, Hsub, Hr.
        -- intros c Hc. apply elem_of_cons in Hc as [->|Hc]; [left|].
           right. apply Hsub, Hc.
      * intros [[Hr Hnodup] Hsub]. split; [exact Hnodup|].
        intros c Hc. assert (Hcv : c ∈ m :: valid) by (apply Hsub; right; exact Hc).
        apply elem_of_cons in Hcv as [->|Hcv]; [contradiction | exact Hcv].
    + rewrite (Replace1_absent s m Hnotin). split.
      * intros [Hnodup Hsub]. split; [exact Hnodup|].
        intros c Hc. right. apply Hsub, Hc.
      * intros [Hnodup Hsub]. split; [exact Hnodup|].
        intros c Hc. assert (Hcv : c ∈ m :: valid) by (apply Hsub, Hc).
        apply elem_of_cons in Hcv as [->|Hcv]; [contradiction | exact Hcv].
Qed.

Lemma validModules_NoDup : NoDup (letters validModules).
Proof. apply (bool_decide_unpack _). vm_compute. exact I. Qed.

(** The two results of [processModules]. *)
Lemma processModules_cases (modules : string) :
  let lower := ToLower modules in
  (NoDup (letters lower) /\ (forall c, c ∈ letters lower -> c ∈ letters validModules)
   /\ processModules modules = (lower, None))
  \/ (~ (NoDup (letters lower) /\ forall c, c ∈ letters lower -> c ∈ letters validModules)
      /\ exists invalidModules,
           invalidModules <> EmptyString
           /\ processModules modules = (EmptyString, Some (ErrModules invalidModules))).
Proof.
  intros lower. unfold processModules. fold lower.
  pose proof (Replace1_all (letters validModules) lower validModules_NoDup) as Hall.
  destruct (fold_left Replace1 (letters validModules) lower) as [|c rest] eqn:Hleft.
  - left. destruct (proj1 Hall eq_refl) as [Hnodup Hsub].
    split; [exact Hnodup|]. split; [exact Hsub|]. reflexivity.
  - right. split.
    + intros Hgood. apply Hall in Hgood. discriminate.
    + exists (String c rest). split; [discriminate|].
      cbn [String.length]. destruct (Z.ltb_spec 0 (Z.of_nat (S (String.length rest))));
        [reflexivity | lia].
Qed.

(** X25.  [processModules] accepts a string exactly when, in lower case, it
    is made of letters of [cgtwe] and has each at most once; the order does
    not matter and the empty string passes.  It then returns the string in
    lower case.  Any other string gets the empty string and an error that
    names what is left over, which is not empty. *)
Theorem processModules_accepts (modules : string) :
  let lower := ToLower modules in
  (snd (processModules modules) = None
   <-> NoDup (letters lower) /\ forall c, c ∈ letters lower -> c ∈ letters validModules)
  /\ (snd (processModules modules) = None -> fst (processModules modules) = lower)
  /\ (forall err,
        snd (processModules modules) = Some err ->
        fst (processModules modules) = EmptyString
        /\ exists invalidModules,
             invalidModules <> EmptyString /\ err = ErrModules invalidModules).
Proof.
  intros lower.
  destruct (processModules_cases modules)
    as [(Hnodup & Hsub & ->)|(Hbad & invalidModules & Hne & ->)]; fold lower; simpl.
  - split; [tauto|]. split; [reflexivity|]. discriminate.
  - split; [split; [discriminate | contradiction]|]. split; [discriminate|].
    intros err [= <-]. split; [reflexivity|]. exists invalidModules. auto.
Qed.

(** X26.  When [Atoi] fails on every string that starts with a colon,
    [processNetAddr] never returns a bare integer, and processing an address
    a second time changes nothing. *)
Theorem processNetAddr_proper (addr : string) :
  (forall s, Atoi (":" +:+ s) = None) ->
  Atoi (processNetAddr addr) = None
  /\ processNetAddr (processNetAddr addr) = processNetAddr addr.
Proof.
  intros Hcolon.
  assert (Hnot : Atoi (processNetAddr addr) = None).
  { unfold processNetAddr.
    destruct (Atoi addr) eqn:Haddr; [apply Hcolon | exact Haddr]. }
  split; [exact Hnot|]. unfold processNetAddr at 1. rewrite Hnot. reflexivity.
Qed.

(** X27.  [verifyAPISecurity] accepts a configuration exactly when the API
    keeps to its default binding and its address is a loopback address, or the
    binding is freed and a password is set.  So no accepted configuration
    opens an API without password on an address that is not loopback; a freed
    binding without password is refused on a loopback address too. *)
Theorem verifyAPISecurity_accepts (config : Config) :
  (verifyAPISecurity config = None
   <-> (AllowAPIBind (Siad config) = false
        /\ IsLoopback (APIaddr (Siad config)) = true)
       \/ (AllowAPIBind (Siad config) = true
           /\ AuthenticateAPI (Siad config) = true))
  /\ (verifyAPISecurity config = None ->
      IsLoopback (APIaddr (Siad config)) = true
      \/ AuthenticateAPI (Siad config) = true)
  /\ (AllowAPIBind (Siad config) = true ->
      AuthenticateAPI (Siad config) = false ->
      verifyAPISecurity config = Some ErrNoPassword).
Proof.
  assert (Hnone : verifyAPISecurity config = None
                  <-> (AllowAPIBind (Siad config) = false
                       /\ IsLoopback (APIaddr (Siad config)) = true)
                      \/ (AllowAPIBind (Siad config) = true
                          /\ AuthenticateAPI (Siad config) = true)).
  { unfold verifyAPISecurity.
    destruct (AllowAPIBind (Siad config)), (AuthenticateAPI (Siad config)),
      (IsLoopback (APIaddr (Siad config))); simpl;
      try case_bool_decide; intuition congruence. }
  split; [exact Hnone|]. split.
  - intros Hnil. apply Hnone in Hnil. tauto.
  - intros Hallow Hauth. unfold verifyAPISecurity. rewrite Hallow, Hauth. reflexivity.
Qed.

(** X28.  When [JoinErrors] returns nil only for errors that are all nil, a
    configuration that [processConfig] returns has the three addresses
    processed, the modules in lower case, made of letters of [cgtwe] with
    none twice, and passes [verifyAPISecurity] with the processed address of
    the API; flags are as they were. *)
Theorem processConfig_returns (config config' : Config) :
  (forall errs sep, JoinErrors errs sep = None -> Forall (fun err => err = None) errs) ->
  processConfig config = inr config' ->
  let lower := ToLower (Modules (Siad config)) in
  config'
  = {| Siad := {| AllowAPIBind := AllowAPIBind (Siad config);
                  AuthenticateAPI := AuthenticateAPI (Siad config);
                  APIaddr := processNetAddr (APIaddr (Siad config));
                  RPCaddr := processNetAddr (RPCaddr (Siad config));
                  HostAddr := processNetAddr (HostAddr (Siad config));
                  Modules := lower |} |}
  /\ NoDup (letters lower)
  /\ (forall c, c ∈ letters lower -> c ∈ letters validModules)
  /\ verifyAPISecurity config' = None.
Proof.
  intros Hjoin Hrun lower. unfold processConfig in Hrun.
  destruct (processModules_cases (Modules (Siad config)))
    as [(Hnodup & Hsub & Hmodules)|(_ & invalidModules & _ & Hmodules)];
    rewrite Hmodules in Hrun; fold lower in Hrun;
    match type of Hrun with
    | match JoinErrors ?errs ?sep with _ => _ end = _ =>
        destruct (JoinErrors errs sep) eqn:Hjoined; [discriminate|];
        apply Hjoin in Hjoined
    end.
  - apply Forall_cons in Hjoined as [_ Hjoined].
    apply Forall_cons in Hjoined as [Hsecure _].
    injection Hrun as <-. auto.
  - apply Forall_cons in Hjoined as [Herr _]. discriminate.
Qed.

End DaemonChecks.

Section DaemonChecksWitnesses.
Import Daemon.
#[local] Existing Instance FixtureDaemon.library.

(** Three modules in an order of their own. *)
Lemma processModules_accepts_witness :
  processModules "gtc" = ("gtc"%string, None).
Proof.
  destruct (processModules_accepts "gtc") as (Haccepts & Hlower & _).
  assert (Hnil : snd (processModules "gtc") = None).
  { apply Haccepts. split.
    - apply (bool_decide_unpack _). vm_compute. exact I.
    - apply Forall_forall. apply (bool_decide_unpack _). vm_compute. exact I. }
  rewrite (surjective_pairing (processModules "gtc")), Hnil, (Hlower Hnil).
  reflexivity.
Defined.

Lemma readPort_colon (s : string) : Atoi (":" +:+ s) = None.
Proof. reflexivity. Qed.

(** A bare port number gets its colon, once. *)
Lemma processNetAddr_proper_witness :
  Atoi (processNetAddr "23112") = None
  /\ processNetAddr (processNetAddr "23112") = processNetAddr "23112".
Proof.
  apply (processNetAddr_proper "23112"). exact readPort_colon.
Defined.

(** The default binding on [localhost]. *)
Lemma verifyAPISecurity_accepts_witness :
  verifyAPISecurity FixtureDaemon.config = None.
Proof.
  apply (verifyAPISecurity_accepts FixtureDaemon.config).
  left. split; reflexivity.
Defined.

Lemma join_None (errs : list (option error)) (sep : string) :
  JoinErrors errs sep = None -> Forall (fun err => err = None) errs.
Proof.
  change (FixtureDaemon.join errs sep = None -> Forall (fun err => err = None) errs).
  unfold FixtureDaemon.join. induction errs as [|[err|] errs IH]; simpl.
  - constructor.
  - discriminate.
  - intros Hnone. constructor; [reflexivity | exact (IH Hnone)].
Qed.

(** The configuration of the fixture passes, with its bare port number
    turned into an address. *)
Lemma processConfig_returns_witness :
  processConfig FixtureDaemon.config = inr FixtureDaemon.processed
  /\ verifyAPISecurity FixtureDaemon.processed = None.
Proof.
  assert (Hrun : processConfig FixtureDaemon.config = inr FixtureDaemon.processed)
    by (vm_compute; reflexivity).
  split; [exact Hrun|].
  destruct (processConfig_returns FixtureDaemon.config FixtureDaemon.processed
              join_None Hrun) as (_ & _ & _ & Hsecure).
  exact Hsecure.
Defined.

End DaemonChecksWitnesses.
